(** * RTL tool abstraction layer: managers, adapters and output grammars

    A shallow embedding of the TypeScript sources under [src/rtl/tools]:
    the three category managers (lint, simulation, synthesis), the lint
    adapters' output parsers, and the simulation adapters' compile/simulate
    pair with its pass/fail detection.

    Conventions.
    - A JavaScript string is a list of UTF-16 code units ([jsstring]).
    - A promise that rejects and a [throw] are the same thing here: an
      [Outcome] is either [Returned v] or [Threw e].
    - Adapter methods act on an external world (child processes, adapter
      fields); manager code threads that world and keeps a journal of the
      adapter methods it invoked. *)

From Stdlib Require Import String Ascii List NArith ZArith Bool Lia.
Import ListNotations.

Set Implicit Arguments.

(* ================================================================== *)
(** ** JavaScript strings and the string builtins the sources use *)
(* ================================================================== *)

Module Js.

Definition jsstring := list N.

(** An ASCII literal of the source, as code units. *)
Definition js (s : string) : jsstring :=
  map N_of_ascii (list_ascii_of_string s).
Arguments js s%_string.

(** [s === t] on strings. *)
Fixpoint str_eqb (s t : jsstring) : bool :=
  match s, t with
  | [], [] => true
  | c :: s', d :: t' => N.eqb c d && str_eqb s' t'
  | _, _ => false
  end.

(** Truthiness of a string value: only the empty string is falsy. *)
Definition truthy (s : jsstring) : bool :=
  match s with [] => false | _ :: _ => true end.

(** Truthiness of an optional string ([undefined] is falsy). *)
Definition truthy_opt (o : option jsstring) : bool :=
  match o with Some s => truthy s | None => false end.

(** [a || b] where [a] is a possibly-undefined string. *)
Definition or_else (a : option jsstring) (b : jsstring) : jsstring :=
  match a with
  | Some s => if truthy s then s else b
  | None => b
  end.

Definition in_range (lo hi c : N) : bool := N.leb lo c && N.leb c hi.

(** ECMAScript LineTerminator: LF, CR, LS, PS. *)
Definition isLineTerminator (c : N) : bool :=
  N.eqb c 10 || N.eqb c 13 || N.eqb c 8232 || N.eqb c 8233.

(** ECMAScript WhiteSpace or LineTerminator: what [\s] matches and what
    [trim] strips. *)
Definition isWhiteSpace (c : N) : bool :=
  in_range 9 13 c || N.eqb c 32 || N.eqb c 160 || N.eqb c 5760
  || in_range 8192 8202 c || N.eqb c 8232 || N.eqb c 8233
  || N.eqb c 8239 || N.eqb c 8287 || N.eqb c 12288 || N.eqb c 65279.

Definition isDigit (c : N) : bool := in_range 48 57 c.

(** [\w] : [A-Za-z0-9_]. *)
Definition isWordChar (c : N) : bool :=
  in_range 65 90 c || in_range 97 122 c || isDigit c || N.eqb c 95.

(** Case folding on the ASCII letters.  The patterns of the sources are
    ASCII, and no code unit outside ASCII folds onto an ASCII letter
    (neither under the [i] flag of a non-unicode regular expression nor
    under [toLowerCase] for the letters of [error]), so this is all the
    folding the comparisons below ever observe. *)
Definition toUpperAscii (c : N) : N :=
  if in_range 97 122 c then c - 32 else c.

Definition toLowerAscii (c : N) : N :=
  if in_range 65 90 c then c + 32 else c.

Definition toLowerCase (s : jsstring) : jsstring := map toLowerAscii s.

Fixpoint dropWhile (p : N -> bool) (s : jsstring) : jsstring :=
  match s with
  | c :: s' => if p c then dropWhile p s' else s
  | [] => []
  end.

Definition trimStart (s : jsstring) : jsstring := dropWhile isWhiteSpace s.
Definition trimEnd (s : jsstring) : jsstring :=
  rev (dropWhile isWhiteSpace (rev s)).
Definition trim (s : jsstring) : jsstring := trimEnd (trimStart s).

(** [s.startsWith(p)] *)
Fixpoint startsWith (p s : jsstring) : bool :=
  match p, s with
  | [], _ => true
  | c :: p', d :: s' => N.eqb c d && startsWith p' s'
  | _ :: _, [] => false
  end.

(** [s.includes(p)] *)
Fixpoint includes (p s : jsstring) : bool :=
  startsWith p s ||
  match s with
  | [] => false
  | _ :: s' => includes p s'
  end.

(** [s.split(sep)] for a one-character separator; never empty. *)
Fixpoint split (sep : N) (s : jsstring) : list jsstring :=
  match s with
  | [] => [[]]
  | c :: s' =>
      if N.eqb c sep then [] :: split sep s'
      else match split sep s' with
           | l :: ls => (c :: l) :: ls
           | [] => [[c]]
           end
  end.

(** [xs.join(sep)] *)
Fixpoint join (sep : jsstring) (xs : list jsstring) : jsstring :=
  match xs with
  | [] => []
  | [x] => x
  | x :: rest => x ++ sep ++ join sep rest
  end.

(** A number as the parsers produce it.  [parseInt] yields [NaN] when the
    text does not start with a digit; otherwise the value of the leading
    run of decimal digits (exact here; the source's doubles agree below
    2^53). *)
Inductive number := NaN | Int (n : N).

Fixpoint digitsValue (acc : N) (s : jsstring) : N :=
  match s with
  | c :: s' => if isDigit c then digitsValue (10 * acc + (c - 48)) s' else acc
  | [] => acc
  end.

(** [parseInt(s, 10)] on text without sign or leading blanks (it is only
    applied to [\d+] captures). *)
Definition parseInt10 (s : jsstring) : number :=
  match s with
  | c :: _ => if isDigit c then Int (digitsValue 0 s) else NaN
  | [] => NaN
  end.

End Js.
Import Js.

(* ================================================================== *)
(** ** Regular expressions (the fragment the adapters' patterns use) *)
(* ================================================================== *)

(** A backtracking matcher with ECMAScript's priorities: alternatives are
    tried left to right, a greedy quantifier tries the longest repetition
    first, a lazy one the shortest.  Every quantified atom in the sources is
    a one-character class ([\w+], [\s+], [\d+], [.+], [.+?], [[\d.]+]), so quantifiers
    take a character set. *)
Module Regex.

Inductive charset :=
| CsAny                 (* .   : anything but a line terminator *)
| CsWord                (* \w *)
| CsSpace               (* \s *)
| CsDigit               (* \d *)
| CsLit (c : N)         (* a literal character *)
| CsOr (a b : charset). (* a bracketed class, e.g. [\d.] *)

Inductive regex :=
| Eps
| Chr (cs : charset)
| Seq (r1 r2 : regex)
| Alt (r1 r2 : regex)
| Group (i : nat) (r : regex)          (* i-th capturing group, from 1 *)
| Plus (greedy : bool) (cs : charset)  (* cs+  or  cs+? *)
| Bol                                  (* ^ without the m flag *)
| Eol.                                 (* $ without the m flag *)

Record pattern := { re : regex; ignoreCase : bool }.

Definition captures := list (option jsstring).

Fixpoint cs_mem (ic : bool) (cs : charset) (c : N) : bool :=
  match cs with
  | CsAny => negb (isLineTerminator c)
  | CsWord => isWordChar c
  | CsSpace => isWhiteSpace c
  | CsDigit => isDigit c
  | CsLit d => if ic then N.eqb (toUpperAscii c) (toUpperAscii d) else N.eqb c d
  | CsOr a b => cs_mem ic a c || cs_mem ic b c
  end.

Fixpoint set_cap (i : nat) (v : jsstring) (cs : captures) : captures :=
  match i, cs with
  | O, _ :: rest => Some v :: rest
  | O, [] => [Some v]
  | S i', c :: rest => c :: set_cap i' v rest
  | S i', [] => None :: set_cap i' v []
  end.

(** The text consumed between two suffixes of the same input. *)
Definition consumed (from to : jsstring) : jsstring :=
  firstn (length from - length to) from.

Definition orelse {A} (a b : option A) : option A :=
  match a with Some _ => a | None => b end.

Section Matcher.
Variable ic : bool.
Variable total : nat.     (* length of the whole input, to recognise ^ *)
Variable R : Type.

(** Zero or more characters of [cs], then the continuation. *)
Fixpoint star (greedy : bool) (cs : charset) (s : jsstring)
         (k : jsstring -> option R) : option R :=
  match s with
  | c :: s' =>
      if cs_mem ic cs c then
        if greedy then orelse (star greedy cs s' k) (k s)
        else orelse (k s) (star greedy cs s' k)
      else k s
  | [] => k []
  end.

Fixpoint backtrack (r : regex) (s : jsstring) (caps : captures)
         (k : jsstring -> captures -> option R) : option R :=
  match r with
  | Eps => k s caps
  | Chr cs =>
      match s with
      | c :: s' => if cs_mem ic cs c then k s' caps else None
      | [] => None
      end
  | Seq r1 r2 => backtrack r1 s caps (fun s' caps' => backtrack r2 s' caps' k)
  | Alt r1 r2 => orelse (backtrack r1 s caps k) (backtrack r2 s caps k)
  | Group i r1 =>
      backtrack r1 s caps (fun s' caps' => k s' (set_cap i (consumed s s') caps'))
  | Plus greedy cs =>
      match s with
      | c :: s' =>
          if cs_mem ic cs c then star greedy cs s' (fun s'' => k s'' caps)
          else None
      | [] => None
      end
  | Bol => if Nat.eqb (length s) total then k s caps else None
  | Eol => match s with [] => k s caps | _ :: _ => None end
  end.
End Matcher.

(** One attempt at the current position, then the next positions. *)
Fixpoint exec_from (p : pattern) (total : nat) (s : jsstring)
  : option captures :=
  match backtrack p.(ignoreCase) total p.(re) s []
            (fun s' caps => Some (set_cap 0 (consumed s s') caps)) with
  | Some caps => Some caps
  | None =>
      match s with
      | [] => None
      | _ :: s' => exec_from p total s'
      end
  end.

(** [s.match(p)] for a pattern without the g flag: the capture array
    (index 0 is the whole match) or [None] for [null]. *)
Definition exec (p : pattern) (s : jsstring) : option captures :=
  exec_from p (length s) s.

(** [p.test(s)] *)
Definition test (p : pattern) (s : jsstring) : bool :=
  match exec p s with Some _ => true | None => false end.

(** The i-th capture as a string (every group of the sources' patterns
    takes part in every match, so the default is never seen). *)
Definition cap (i : nat) (caps : captures) : jsstring :=
  match nth i caps None with Some v => v | None => [] end.

(** Pattern-building helpers. *)
Fixpoint seqs (rs : list regex) : regex :=
  match rs with
  | [] => Eps
  | [r] => r
  | r :: rest => Seq r (seqs rest)
  end.

Definition lit (s : string) : regex :=
  seqs (map (fun a => Chr (CsLit (N_of_ascii a))) (list_ascii_of_string s)).
Arguments lit s%_string.

End Regex.

(* ================================================================== *)
(** ** Thrown values, outcomes, and the world the managers run in *)
(* ================================================================== *)

(** What a [catch (error: any)] clause can receive, classified by what
    reading [error.message] does: an [Error] (or any object carrying a
    string [message]) yields that string; [null] and [undefined] make the
    property read itself throw a [TypeError]; any other value (a thrown
    string, number or plain object) yields [undefined].  These three
    convert to a string.  [ThrownUnprintable message raised] is a value
    that does not: a [Symbol], an object with no usable [toString] (a
    null prototype, say) or one whose [toString] throws.  [message] is
    what its [message] property reads as, [raised] what the conversion
    throws. *)
Inductive Thrown :=
| ThrownError (message : jsstring)
| ThrownNullish
| ThrownOther
| ThrownUnprintable (message : option jsstring) (raised : Thrown).

Inductive Outcome (A : Type) :=
| Returned (a : A)
| Threw (e : Thrown).
Arguments Returned {A} a.
Arguments Threw {A} e.

(** The [TypeError] raised by [error.message] on [null]/[undefined]
    (message text as V8 words it). *)
Definition nullishPropertyRead : Thrown :=
  ThrownError (js "Cannot read properties of undefined (reading 'message')").

(** The adapter methods a manager can invoke, and what it leaves in its
    journal: one entry per invocation, plus its [console.warn] calls. *)
Inductive Method :=
| MIsInstalled | MLint | MCompile | MSimulate | MCollectCoverage
| MSynthesize | MAnalyzeTiming | MEstimatePPA.

Inductive Event :=
| Invoked (m : Method)
| Warned.

Definition Method_eqb (a b : Method) : bool :=
  match a, b with
  | MIsInstalled, MIsInstalled | MLint, MLint | MCompile, MCompile
  | MSimulate, MSimulate | MCollectCoverage, MCollectCoverage
  | MSynthesize, MSynthesize | MAnalyzeTiming, MAnalyzeTiming
  | MEstimatePPA, MEstimatePPA => true
  | _, _ => false
  end.

(** Does the journal record an invocation of [m]? *)
Definition invoked (m : Method) (j : list Event) : bool :=
  existsb (fun e => match e with Invoked m' => Method_eqb m m' | Warned => false end) j.

(** An adapter method: it may change the external world, and it returns
    or throws. *)
Definition Act (W A : Type) := W -> Outcome A * W.

Record World (W : Type) := { ext : W; journal : list Event }.

(** Manager code: state (the world and the journal) and exceptions. *)
Definition M (W A : Type) := World W -> Outcome A * World W.

Section Monad.
Context {W : Type}.

Definition ret {A} (a : A) : M W A := fun w => (Returned a, w).

Definition throw {A} (e : Thrown) : M W A := fun w => (Threw e, w).

Definition bind {A B} (m : M W A) (k : A -> M W B) : M W B :=
  fun w =>
    match m w with
    | (Returned a, w') => k a w'
    | (Threw e, w') => (Threw e, w')
    end.

(** [try { m } catch (error) { h error }] *)
Definition try_catch {A} (m : M W A) (h : Thrown -> M W A) : M W A :=
  fun w =>
    match m w with
    | (Returned a, w') => (Returned a, w')
    | (Threw e, w') => h e w'
    end.

(** [await tool.method(...)]: run the adapter method on the external
    world and note the invocation. *)
Definition invoke {A} (m : Method) (act : Act W A) : M W A :=
  fun w =>
    let (o, x) := act w.(ext) in
    (o, {| ext := x; journal := w.(journal) ++ [Invoked m] |}).

(** [console.warn(...)] *)
Definition warn : M W unit :=
  fun w => (Returned tt, {| ext := w.(ext); journal := w.(journal) ++ [Warned] |}).

(** [error.message] *)
Definition message_of (error : Thrown) : M W (option jsstring) :=
  match error with
  | ThrownError m => ret (Some m)
  | ThrownOther => ret None
  | ThrownNullish => throw nullishPropertyRead
  | ThrownUnprintable m _ => ret m
  end.

(** The string conversion of [error] inside a template literal,
    [`... ${error}`]. *)
Definition stringified (error : Thrown) : M W unit :=
  match error with
  | ThrownUnprintable _ raised => throw raised
  | _ => ret tt
  end.
End Monad.

Notation "x <- m ;; k" := (bind m (fun x => k))
  (at level 61, m at next level, right associativity).
Notation "m ;;; k" := (bind m (fun _ => k))
  (at level 61, right associativity).

(* ================================================================== *)
(** ** Result types ([rtl/types.ts]) *)
(* ================================================================== *)

Record ToolResult := {
  success : bool;
  stdout : option jsstring;
  stderr : option jsstring;
  exitCode : option N;
  errors : option (list jsstring)
}.

Inductive Severity := SevError | SevWarning | SevInfo.

(** [LintWarning] and [LintError]: the same fields; a [LintError] has
    severity [error], a [LintWarning] has [warning] or [info]. *)
Record LintMessage := {
  file : jsstring;
  line : number;
  column : option number;
  code : jsstring;
  message : jsstring;
  severity : Severity
}.

(** [interface LintResult extends ToolResult] *)
Record LintResult := {
  lintBase :> ToolResult;
  warnings : list LintMessage;
  lintErrors : list LintMessage
}.

(** Numeric payloads below are only carried around by this layer. *)
Record CoverageResult := {
  cov_line : Z; cov_toggle : Z; cov_fsm : Z; cov_functional : option Z
}.

Record SimulationResult := {
  simBase :> ToolResult;
  passed : bool;
  coverage : option CoverageResult;
  waveform : option jsstring
}.

Record TimingResult := {
  criticalPath_start : jsstring; criticalPath_end : jsstring;
  criticalPath_delay : Z; slack : Z; frequency : Z
}.

Record PPAResult := {
  area_cells : Z; area_area : Z;
  power_dynamic : Z; power_static : Z; power_total : Z;
  performance_frequency : Z
}.

Record SynthesisResult := {
  synthBase :> ToolResult;
  netlist : option jsstring;
  timing : option TimingResult;
  ppa : option PPAResult
}.

(** [interface CompileResult extends ToolResult] *)
Record CompileResult := {
  compileBase :> ToolResult;
  executable : option jsstring
}.

(** The object literal [{ success: false, stderr: msg }] (other fields
    absent). *)
Definition failure (msg : option jsstring) : ToolResult :=
  {| success := false; stdout := None; stderr := msg;
     exitCode := None; errors := None |}.

(* ================================================================== *)
(** ** Tool interfaces ([rtl/tools/types.ts]) *)
(* ================================================================== *)

Record ToolInput := {
  files : list jsstring;
  args : option (list jsstring);
  env : option (list (jsstring * jsstring))
}.

Section Interfaces.
Variable W : Type.

Record ToolRunner := {
  run : ToolInput -> Act W ToolResult;
  isInstalled : Act W bool;
  getVersion : Act W jsstring
}.

Record LintTool := {
  lintRunner :> ToolRunner;
  lint : list jsstring -> Act W LintResult
}.

Record SimulationTool := {
  simRunner :> ToolRunner;
  compile : list jsstring -> Act W CompileResult;
  simulate : jsstring -> option (list jsstring) -> Act W SimulationResult;
  collectCoverage : option (Act W CoverageResult)
}.

Record SynthesisTool := {
  synthRunner :> ToolRunner;
  synthesize : list jsstring -> jsstring -> Act W SynthesisResult;
  analyzeTiming : jsstring -> Act W TimingResult;
  estimatePPA : jsstring -> Act W PPAResult
}.
End Interfaces.

(* ================================================================== *)
(** ** [Map<string, T>]: entries in insertion order, keys distinct *)
(* ================================================================== *)

Module Map.
Section Map.
Variable V : Type.

Definition t := list (jsstring * V).

Definition empty : t := [].

Fixpoint get (m : t) (k : jsstring) : option V :=
  match m with
  | [] => None
  | (k', v) :: rest => if str_eqb k k' then Some v else get rest k
  end.

Definition has (m : t) (k : jsstring) : bool :=
  match get m k with Some _ => true | None => false end.

(** [m.set(k, v)]: an existing key keeps its place and takes the new
    value; a new key goes last. *)
Fixpoint set (m : t) (k : jsstring) (v : V) : t :=
  match m with
  | [] => [(k, v)]
  | (k', v') :: rest =>
      if str_eqb k k' then (k', v) :: rest else (k', v') :: set rest k v
  end.

Definition keys (m : t) : list jsstring := map fst m.
End Map.
End Map.

(* ================================================================== *)
(** ** The category managers *)
(* ================================================================== *)

(** [LintManager], [SimulationManager] and [SynthesisManager] carry the
    same two fields and the same [register], [setPreferred],
    [detectInstalledTools], [selectTool] and [getAvailableTools], word for
    word up to the tool type and the category named in the error text.
    That common part is written once, over the tool type [T]. *)
Module Manager.
Section Manager.
Variables W T : Type.
Variable runner : T -> ToolRunner W.

Record t := { tools : Map.t T; preferredTool : option jsstring }.

(** [constructor()] *)
Definition create : t := {| tools := Map.empty T; preferredTool := None |}.

Definition register (mgr : t) (name : jsstring) (tool : T) : t :=
  {| tools := Map.set mgr.(tools) name tool;
     preferredTool := mgr.(preferredTool) |}.

Definition setPreferred (category : jsstring) (mgr : t) (name : jsstring)
  : Outcome t :=
  if negb (Map.has mgr.(tools) name) then
    Threw (ThrownError
             (category ++ js " tool '" ++ name ++ js "' not registered"))
  else
    Returned {| tools := mgr.(tools); preferredTool := Some name |}.

(** The body of [for (const [name, tool] of this.tools)] in
    [detectInstalledTools], with the [installed] array as accumulator. *)
Fixpoint detectLoop (entries : Map.t T) (installed : list jsstring)
  : M W (list jsstring) :=
  match entries with
  | [] => ret installed
  | (name, tool) :: rest =>
      installed' <-
        try_catch
          (b <- invoke MIsInstalled (isInstalled (runner tool)) ;;
           ret (if (b : bool) then installed ++ [name] else installed))
          (fun error =>
             (* console.warn(`Failed to check if ${name} is installed: ${error}`) *)
             stringified error ;;; warn ;;; ret installed) ;;
      detectLoop rest installed'
  end.

Definition detectInstalledTools (mgr : t) : M W (list jsstring) :=
  detectLoop mgr.(tools) [].

(** [if (name && this.tools.has(name)) { const tool = this.tools.get(name)!;
     if (await tool.isInstalled()) return tool; }]
    [Some tool] when the block returns, [None] when control falls out of
    it.  A key the map [has] is a key [get] finds, so the two calls are one
    lookup here. *)
Definition tryNamed (tools : Map.t T) (name : option jsstring)
  : M W (option T) :=
  match name with
  | Some n =>
      if truthy n then
        match Map.get tools n with
        | Some tool =>
            b <- invoke MIsInstalled (isInstalled (runner tool)) ;;
            ret (if (b : bool) then Some tool else None)
        | None => ret None
        end
      else ret None
  | None => ret None
  end.

(** [for (const [name, tool] of this.tools) if (await tool.isInstalled())
     return tool;  return null;] *)
Fixpoint firstInstalled (entries : Map.t T) : M W (option T) :=
  match entries with
  | [] => ret None
  | (_, tool) :: rest =>
      b <- invoke MIsInstalled (isInstalled (runner tool)) ;;
      if (b : bool) then ret (Some tool) else firstInstalled rest
  end.

Definition selectTool (mgr : t) (preferred : option jsstring)
  : M W (option T) :=
  (* User override *)
  o <- tryNamed mgr.(tools) preferred ;;
  match o with
  | Some tool => ret (Some tool)
  | None =>
      (* Manager's preferred *)
      p <- tryNamed mgr.(tools) mgr.(preferredTool) ;;
      match p with
      | Some tool => ret (Some tool)
      | None =>
          (* First installed *)
          firstInstalled mgr.(tools)
      end
  end.

Definition getAvailableTools (mgr : t) : list jsstring :=
  Map.keys mgr.(tools).
End Manager.
End Manager.

Module LintManager.
Section LintManager.
Variable W : Type.

Definition t := Manager.t (LintTool W).

Definition register := @Manager.register (LintTool W).
Definition setPreferred := @Manager.setPreferred (LintTool W) (js "Lint").
Definition detectInstalledTools := Manager.detectInstalledTools (@lintRunner W).
Definition selectTool := Manager.selectTool (@lintRunner W).

Definition lint (mgr : t) (files : list jsstring)
           (preferredTool : option jsstring) : M W LintResult :=
  tool <- selectTool mgr preferredTool ;;
  match tool with
  | None =>
      ret {| lintBase := failure (Some (js "No lint tool available"));
             warnings := []; lintErrors := [] |}
  | Some tool =>
      try_catch
        (invoke MLint (lint tool files))
        (fun error =>
           msg <- message_of error ;;
           ret {| lintBase := failure msg;
                  warnings := []; lintErrors := [] |})
  end.
End LintManager.
End LintManager.

Module SimulationManager.
Section SimulationManager.
Variable W : Type.

Definition t := Manager.t (SimulationTool W).

Definition register := @Manager.register (SimulationTool W).
Definition setPreferred :=
  @Manager.setPreferred (SimulationTool W) (js "Simulation").
Definition detectInstalledTools := Manager.detectInstalledTools (@simRunner W).
Definition selectTool := Manager.selectTool (@simRunner W).

(** [{ success: false, passed: false, errors, stderr }] *)
Definition failed (errs : option (list jsstring)) (msg : option jsstring)
  : SimulationResult :=
  {| simBase := {| success := false; stdout := None; stderr := msg;
                   exitCode := None; errors := errs |};
     passed := false; coverage := None; waveform := None |}.

(** [simResult.coverage = c] *)
Definition setCoverage (r : SimulationResult) (c : CoverageResult)
  : SimulationResult :=
  {| simBase := r.(simBase); passed := r.(passed);
     coverage := Some c; waveform := r.(waveform) |}.

Definition simulate (mgr : t) (files : list jsstring) (testbench : jsstring)
           (args : option (list jsstring)) (preferredTool : option jsstring)
  : M W SimulationResult :=
  tool <- selectTool mgr preferredTool ;;
  match tool with
  | None => ret (failed None (Some (js "No simulation tool available")))
  | Some tool =>
      try_catch
        ((* Compile design *)
         compileResult <- invoke MCompile (compile tool files) ;;
         if negb compileResult.(success) then
           ret (failed compileResult.(errors) compileResult.(stderr))
         else
           (* Run simulation *)
           simResult <- invoke MSimulate
                          (simulate tool testbench args) ;;
           (* Collect coverage if supported *)
           match collectCoverage tool with
           | Some collect =>
               if simResult.(success) then
                 try_catch
                   (c <- invoke MCollectCoverage collect ;;
                    ret (setCoverage simResult c))
                   (fun _ => warn ;;; ret simResult)
               else ret simResult
           | None => ret simResult
           end)
        (fun error =>
           msg <- message_of error ;;
           ret (failed None msg))
  end.
End SimulationManager.
End SimulationManager.

Module SynthesisManager.
Section SynthesisManager.
Variable W : Type.

Definition t := Manager.t (SynthesisTool W).

Definition register := @Manager.register (SynthesisTool W).
Definition setPreferred :=
  @Manager.setPreferred (SynthesisTool W) (js "Synthesis").
Definition detectInstalledTools :=
  Manager.detectInstalledTools (@synthRunner W).
Definition selectTool := Manager.selectTool (@synthRunner W).

(** [{ success: false, stderr: msg }] *)
Definition failed (msg : option jsstring) : SynthesisResult :=
  {| synthBase := failure msg;
     netlist := None; timing := None; ppa := None |}.

(** [result.timing = v] and [result.ppa = v] *)
Definition setTiming (r : SynthesisResult) (v : TimingResult) :=
  {| synthBase := r.(synthBase); netlist := r.(netlist);
     timing := Some v; ppa := r.(ppa) |}.
Definition setPpa (r : SynthesisResult) (v : PPAResult) :=
  {| synthBase := r.(synthBase); netlist := r.(netlist);
     timing := r.(timing); ppa := Some v |}.

(** The inner [try] assigns [result.timing] and then [result.ppa] on the
    object [result] itself, so when [estimatePPA] throws the handler (which
    only warns) leaves the timing assignment in place; the two nested
    handlers below are that one handler, seen after zero and after one
    assignment. *)
Definition enrich (tool : SynthesisTool W) (result : SynthesisResult)
           (net : jsstring) : M W SynthesisResult :=
  try_catch
    (tm <- invoke MAnalyzeTiming (analyzeTiming tool net) ;;
     try_catch
       (p <- invoke MEstimatePPA (estimatePPA tool net) ;;
        ret (setPpa (setTiming result tm) p))
       (fun _ => warn ;;; ret (setTiming result tm)))
    (fun _ => warn ;;; ret result).

Definition synthesize (mgr : t) (design : list jsstring)
           (constraints : jsstring) (preferredTool : option jsstring)
  : M W SynthesisResult :=
  tool <- selectTool mgr preferredTool ;;
  match tool with
  | None => ret (failed (Some (js "No synthesis tool available")))
  | Some tool =>
      try_catch
        (result <- invoke MSynthesize
                     (synthesize tool design constraints) ;;
         (* Analyze timing if synthesis succeeded *)
         match result.(netlist) with
         | Some net =>
             if result.(success) && truthy net then enrich tool result net
             else ret result
         | None => ret result
         end)
        (fun error =>
           msg <- message_of error ;;
           ret (failed msg))
  end.
End SynthesisManager.
End SynthesisManager.

(* ================================================================== *)
(** ** Child processes *)
(* ================================================================== *)

(** The error [execAsync] rejects with: an [Error] carrying the captured
    streams and the exit code. *)
Record ExecError := {
  err_stdout : option jsstring;
  err_stderr : option jsstring;
  err_code : option N;
  err_message : jsstring
}.

Inductive ExecOutcome :=
| ExecOk (out err : jsstring)       (* resolved with { stdout, stderr } *)
| ExecFailed (error : ExecError).   (* rejected: non-zero exit, timeout, ... *)

(** The options object passed along with the command. *)
Inductive ExecOptions :=
| NoOptions
| WithEnv (env : option (list (jsstring * jsstring)))
| WithTimeout (ms : N).

(** [error.code || 1] *)
Definition code_or_1 (c : option N) : N :=
  match c with
  | Some n => if N.eqb n 0 then 1%N else n
  | None => 1%N
  end.

(** The body shared by every adapter's [run]: spawn, then fold a rejection
    into a result.  [errs] is how the adapter fills [errors] from the
    rejection. *)
Definition runResult (errs : ExecError -> list jsstring) (o : ExecOutcome)
  : ToolResult :=
  match o with
  | ExecOk out err =>
      {| success := true; stdout := Some out; stderr := Some err;
         exitCode := Some 0%N; errors := None |}
  | ExecFailed error =>
      {| success := false;
         stdout := Some (or_else error.(err_stdout) []);
         stderr := Some (or_else error.(err_stderr) []);
         exitCode := Some (code_or_1 error.(err_code));
         errors := Some (errs error) |}
  end.

(** [errors: [error.message]] *)
Definition errsMessage (error : ExecError) : list jsstring :=
  [error.(err_message)].

(** [errors: error.stderr ? [error.stderr] : []] *)
Definition errsStderr (error : ExecError) : list jsstring :=
  match error.(err_stderr) with
  | Some s => if truthy s then [s] else []
  | None => []
  end.

(** [const match = stdout.match(p); return match ? match[1] : 'unknown'] *)
Definition versionOf (p : Regex.pattern) (out : jsstring) : jsstring :=
  match Regex.exec p out with
  | Some m => Regex.cap 1 m
  | None => js "unknown"
  end.

(** The [parseLintOutput] epilogue common to the three lint adapters. *)
Definition lintResultOf (result : ToolResult)
           (found : list LintMessage * list LintMessage) : LintResult :=
  let (warns, errs) := found in
  {| lintBase := {| success := Nat.eqb (length errs) 0;
                    stdout := result.(stdout);
                    stderr := result.(stderr);
                    exitCode := None; errors := None |};
     warnings := warns;
     lintErrors := errs |}.

(** [(result.stdout || '') + (result.stderr || '')], split at newlines. *)
Definition outputLines (result : ToolResult) : list jsstring :=
  split 10 (or_else result.(stdout) [] ++ or_else result.(stderr) []).

(* ================================================================== *)
(** ** Lint adapters *)
(* ================================================================== *)

Import Regex.

(** [probe cmd name]: the [isInstalled] body, [try { stdout.includes(name) }
    catch { false }]. *)
Definition probe {Env} (execAsync : jsstring -> ExecOptions -> Env -> ExecOutcome * Env)
           (cmd name : jsstring) : Act Env bool :=
  fun e =>
    match execAsync cmd NoOptions e with
    | (ExecOk out _, e') => (Returned (includes name out), e')
    | (ExecFailed _, e') => (Returned false, e')
    end.

(** The [getVersion] body. *)
Definition probeVersion {Env}
           (execAsync : jsstring -> ExecOptions -> Env -> ExecOutcome * Env)
           (cmd : jsstring) (p : pattern) : Act Env jsstring :=
  fun e =>
    match execAsync cmd NoOptions e with
    | (ExecOk out _, e') => (Returned (versionOf p out), e')
    | (ExecFailed _, e') => (Returned (js "unknown"), e')
    end.

(** [[...(input.args || []), ...input.files]] *)
Definition argv (input : ToolInput) : list jsstring :=
  match input.(args) with Some a => a | None => [] end ++ input.(files).

Module VerilatorLint.
Section VerilatorLint.
Variable Env : Type.
Variable execAsync : jsstring -> ExecOptions -> Env -> ExecOutcome * Env.

Definition isInstalled : Act Env bool :=
  probe execAsync (js "verilator --version") (js "Verilator").

Definition getVersion : Act Env jsstring :=
  probeVersion execAsync (js "verilator --version")
    {| re := seqs [lit "Verilator"; Plus true CsSpace;
                   Group 1 (Plus true (CsOr CsDigit (CsLit 46)))];
       ignoreCase := false |}.

Definition run (input : ToolInput) : Act Env ToolResult :=
  fun e =>
    let cmd := js "verilator " ++ join (js " ") (js "--lint-only" :: argv input) in
    let (o, e') := execAsync cmd (WithEnv input.(env)) e in
    (Returned (runResult errsMessage o), e').

(** [/^%(Warning|Error)-(\w+):\s+(.+?):(\d+):(\d+):\s+(.+)$/] *)
Definition linePattern : pattern :=
  {| re := seqs [Bol; lit "%"; Group 1 (Alt (lit "Warning") (lit "Error"));
                 lit "-"; Group 2 (Plus true CsWord); lit ":";
                 Plus true CsSpace; Group 3 (Plus false CsAny); lit ":";
                 Group 4 (Plus true CsDigit); lit ":";
                 Group 5 (Plus true CsDigit); lit ":";
                 Plus true CsSpace; Group 6 (Plus true CsAny); Eol];
     ignoreCase := false |}.

(** The [for (const line of lines)] loop; the two arrays are the
    accumulators. *)
Fixpoint parseLines (lines : list jsstring)
         (warns errs : list LintMessage)
  : list LintMessage * list LintMessage :=
  match lines with
  | [] => (warns, errs)
  | line :: rest =>
      match exec linePattern line with
      | None => parseLines rest warns errs
      | Some m =>
          let lineNum := parseInt10 (cap 4 m) in
          let col := parseInt10 (cap 5 m) in
          if str_eqb (cap 1 m) (js "Warning") then
            parseLines rest
              (warns ++ [{| file := cap 3 m; line := lineNum;
                            column := Some col; code := cap 2 m;
                            message := trim (cap 6 m);
                            severity := SevWarning |}])
              errs
          else
            parseLines rest warns
              (errs ++ [{| file := cap 3 m; line := lineNum;
                           column := Some col; code := cap 2 m;
                           message := trim (cap 6 m);
                           severity := SevError |}])
      end
  end.

Definition parseLintOutput (result : ToolResult) : LintResult :=
  lintResultOf result (parseLines (outputLines result) [] []).

Definition lint (files : list jsstring) : Act Env LintResult :=
  fun e =>
    match run {| files := files;
                 args := Some [js "--lint-only"; js "--Wall"];
                 env := None |} e with
    | (Returned result, e') => (Returned (parseLintOutput result), e')
    | (Threw x, e') => (Threw x, e')
    end.

Definition tool : LintTool Env :=
  Build_LintTool (Build_ToolRunner run isInstalled getVersion) lint.
End VerilatorLint.
End VerilatorLint.

Module SlangLint.
Section SlangLint.
Variable Env : Type.
Variable execAsync : jsstring -> ExecOptions -> Env -> ExecOutcome * Env.

Definition isInstalled : Act Env bool :=
  probe execAsync (js "slang --version") (js "slang").

Definition getVersion : Act Env jsstring :=
  probeVersion execAsync (js "slang --version")
    {| re := seqs [lit "slang"; Plus true CsSpace; lit "version";
                   Plus true CsSpace;
                   Group 1 (Plus true (CsOr CsDigit (CsLit 46)))];
       ignoreCase := true |}.

Definition run (input : ToolInput) : Act Env ToolResult :=
  fun e =>
    let cmd := js "slang " ++ join (js " ") (js "--lint" :: argv input) in
    let (o, e') := execAsync cmd (WithEnv input.(env)) e in
    (Returned (runResult errsStderr o), e').

(** [/^(.+?):(\d+):(\d+):\s+(error|warning|note):\s+(.+)$/] *)
Definition linePattern : pattern :=
  {| re := seqs [Bol; Group 1 (Plus false CsAny); lit ":";
                 Group 2 (Plus true CsDigit); lit ":";
                 Group 3 (Plus true CsDigit); lit ":"; Plus true CsSpace;
                 Group 4 (Alt (lit "error") (Alt (lit "warning") (lit "note")));
                 lit ":"; Plus true CsSpace; Group 5 (Plus true CsAny); Eol];
     ignoreCase := false |}.

Fixpoint parseLines (lines : list jsstring)
         (warns errs : list LintMessage)
  : list LintMessage * list LintMessage :=
  match lines with
  | [] => (warns, errs)
  | line :: rest =>
      match exec linePattern line with
      | None => parseLines rest warns errs
      | Some m =>
          let lineNum := parseInt10 (cap 2 m) in
          let col := parseInt10 (cap 3 m) in
          if str_eqb (cap 4 m) (js "error") then
            parseLines rest warns
              (errs ++ [{| file := cap 1 m; line := lineNum;
                           column := Some col; code := js "slang";
                           message := trim (cap 5 m);
                           severity := SevError |}])
          else
            parseLines rest
              (warns ++ [{| file := cap 1 m; line := lineNum;
                            column := Some col; code := js "slang";
                            message := trim (cap 5 m);
                            severity :=
                              if str_eqb (cap 4 m) (js "warning")
                              then SevWarning else SevInfo |}])
              errs
      end
  end.

Definition parseLintOutput (result : ToolResult) : LintResult :=
  lintResultOf result (parseLines (outputLines result) [] []).

Definition lint (files : list jsstring) : Act Env LintResult :=
  fun e =>
    match run {| files := files; args := Some [js "--lint"];
                 env := None |} e with
    | (Returned result, e') => (Returned (parseLintOutput result), e')
    | (Threw x, e') => (Threw x, e')
    end.

Definition tool : LintTool Env :=
  Build_LintTool (Build_ToolRunner run isInstalled getVersion) lint.
End SlangLint.
End SlangLint.

Module VeribleLint.
Section VeribleLint.
Variable Env : Type.
Variable execAsync : jsstring -> ExecOptions -> Env -> ExecOutcome * Env.

Definition isInstalled : Act Env bool :=
  probe execAsync (js "verible-verilog-lint --version") (js "verible").

(** [/verible-verilog-lint\s+([\w.-]+)/i] *)
Definition getVersion : Act Env jsstring :=
  probeVersion execAsync (js "verible-verilog-lint --version")
    {| re := seqs [lit "verible-verilog-lint"; Plus true CsSpace;
                   Group 1 (Plus true
                              (CsOr CsWord (CsOr (CsLit 46) (CsLit 45))))];
       ignoreCase := true |}.

Definition run (input : ToolInput) : Act Env ToolResult :=
  fun e =>
    let cmd := js "verible-verilog-lint " ++ join (js " ") (argv input) in
    let (o, e') := execAsync cmd (WithEnv input.(env)) e in
    (Returned (runResult errsStderr o), e').

(** [/^(.+?):(\d+):(\d+):\s+(.+?)\s+\[(.+?)\]$/] *)
Definition linePattern : pattern :=
  {| re := seqs [Bol; Group 1 (Plus false CsAny); lit ":";
                 Group 2 (Plus true CsDigit); lit ":";
                 Group 3 (Plus true CsDigit); lit ":"; Plus true CsSpace;
                 Group 4 (Plus false CsAny); Plus true CsSpace; lit "[";
                 Group 5 (Plus false CsAny); lit "]"; Eol];
     ignoreCase := false |}.

Fixpoint parseLines (lines : list jsstring)
         (warns errs : list LintMessage)
  : list LintMessage * list LintMessage :=
  match lines with
  | [] => (warns, errs)
  | line :: rest =>
      match exec linePattern line with
      | None => parseLines rest warns errs
      | Some m =>
          let lineNum := parseInt10 (cap 2 m) in
          let col := parseInt10 (cap 3 m) in
          (* Treat all as warnings unless the message suggests otherwise *)
          let isError := includes (js "error") (toLowerCase (cap 4 m)) in
          if isError then
            parseLines rest warns
              (errs ++ [{| file := cap 1 m; line := lineNum;
                           column := Some col; code := cap 5 m;
                           message := trim (cap 4 m);
                           severity := SevError |}])
          else
            parseLines rest
              (warns ++ [{| file := cap 1 m; line := lineNum;
                            column := Some col; code := cap 5 m;
                            message := trim (cap 4 m);
                            severity := SevWarning |}])
              errs
      end
  end.

Definition parseLintOutput (result : ToolResult) : LintResult :=
  lintResultOf result (parseLines (outputLines result) [] []).

Definition lint (files : list jsstring) : Act Env LintResult :=
  fun e =>
    match run {| files := files; args := Some []; env := None |} e with
    | (Returned result, e') => (Returned (parseLintOutput result), e')
    | (Threw x, e') => (Threw x, e')
    end.

Definition tool : LintTool Env :=
  Build_LintTool (Build_ToolRunner run isInstalled getVersion) lint.
End VeribleLint.
End VeribleLint.

(* ================================================================== *)
(** ** Simulation adapters *)
(* ================================================================== *)

(** [for (const pattern of patterns) if (pattern.test(output)) return v;]
    [Some v] when the loop returns, [None] when it runs to its end. *)
Fixpoint returnOnMatch (v : bool) (patterns : list pattern)
         (output : jsstring) : option bool :=
  match patterns with
  | [] => None
  | p :: rest =>
      if test p output then Some v else returnOnMatch v rest output
  end.

(** The body of [checkSimulationPassed], over its two pattern arrays. *)
Definition checkPatterns (failPatterns passPatterns : list pattern)
           (output : jsstring) : bool :=
  (* Check for explicit failure first *)
  match returnOnMatch false failPatterns output with
  | Some b => b
  | None =>
      (* Check for explicit pass *)
      match returnOnMatch true passPatterns output with
      | Some b => b
      | None =>
          (* If no explicit pass/fail, assume pass if no errors *)
          true
      end
  end.

(** A literal pattern with the [i] flag. *)
Definition ci (s : string) : pattern := {| re := lit s; ignoreCase := true |}.
Arguments ci s%_string.

Module IcarusSim.
Section IcarusSim.
Variable Env : Type.
Variable execAsync : jsstring -> ExecOptions -> Env -> ExecOutcome * Env.

(** The instance: [private executable?: string]. *)
Record t := { this_executable : option jsstring }.

(** [new IcarusSim()] *)
Definition create : t := {| this_executable := None |}.

(** The world an instance acts on: its own field and the processes. *)
Definition world := (t * Env)%type.

Definition isInstalled : Act world bool :=
  fun '(this, e) =>
    let (o, e') := probe execAsync (js "iverilog -V") (js "Icarus Verilog") e in
    (o, (this, e')).

Definition getVersion : Act world jsstring :=
  fun '(this, e) =>
    let (o, e') :=
      probeVersion execAsync (js "iverilog -V")
        {| re := seqs [lit "Icarus Verilog version"; Plus true CsSpace;
                       Group 1 (Plus true (CsOr CsDigit (CsLit 46)))];
           ignoreCase := true |} e in
    (o, (this, e')).

Definition run (input : ToolInput) : Act world ToolResult :=
  fun '(this, e) =>
    let cmd := js "iverilog " ++ join (js " ") (argv input) in
    let (o, e') := execAsync cmd (WithEnv input.(env)) e in
    (Returned (runResult errsMessage o), (this, e')).

Definition compile (files : list jsstring) : Act world CompileResult :=
  fun '(_, e) =>
    (* this.executable = 'a.out' *)
    let exe := js "a.out" in
    let this := {| this_executable := Some exe |} in
    let compileArgs := js "-o" :: exe :: files in
    match run {| files := []; args := Some compileArgs; env := None |}
              (this, e) with
    | (Returned result, w) =>
        if negb result.(success) then
          (Returned {| compileBase :=
                         {| success := false; stdout := None;
                            stderr := result.(stderr); exitCode := None;
                            errors := result.(errors) |};
                       executable := None |}, w)
        else
          (Returned {| compileBase :=
                         {| success := true; stdout := result.(stdout);
                            stderr := result.(stderr); exitCode := None;
                            errors := None |};
                       executable := this.(this_executable) |}, w)
    | (Threw x, w) => (Threw x, w)
    end.

Definition passPatterns : list pattern :=
  [ci "test passed"; ci "all tests passed"; ci "simulation passed";
   ci "*** PASS ***"].

Definition failPatterns : list pattern :=
  [ci "test failed"; ci "error:"; ci "assertion failed"; ci "*** FAIL ***"].

Definition checkSimulationPassed (output : jsstring) : bool :=
  checkPatterns failPatterns passPatterns output.

(** The guard's result: [{ success: false, passed: false,
    stderr: 'Design not compiled. Call compile() first.' }] *)
Definition notCompiled : SimulationResult :=
  {| simBase := failure (Some (js "Design not compiled. Call compile() first."));
     passed := false; coverage := None; waveform := None |}.

(** What [simulate] does once past the guard, with [exe] the value of
    [this.executable]. *)
Definition runExecutable (exe : jsstring) (args : option (list jsstring))
  : Act Env SimulationResult :=
  fun e =>
    let simArgs := match args with Some a => a | None => [] end in
    let cmd := js "vvp " ++ exe ++ js " " ++ join (js " ") simArgs in
    match execAsync cmd (WithTimeout 60000) e with
    | (ExecOk out err, e') =>
        (* Check for pass/fail in output *)
        let passed := checkSimulationPassed out in
        (Returned {| simBase := {| success := true; stdout := Some out;
                                   stderr := Some err; exitCode := None;
                                   errors := None |};
                     passed := passed; coverage := None;
                     waveform := Some (js "dump.vcd") |}, e')
    | (ExecFailed error, e') =>
        (Returned {| simBase :=
                       {| success := false;
                          stdout := Some (or_else error.(err_stdout) []);
                          stderr := Some (or_else error.(err_stderr)
                                                  error.(err_message));
                          exitCode := None; errors := None |};
                     passed := false; coverage := None;
                     waveform := None |}, e')
    end.

Definition simulate (testbench : jsstring) (args : option (list jsstring))
  : Act world SimulationResult :=
  fun '(this, e) =>
    match this.(this_executable) with
    | Some exe =>
        if negb (truthy exe) then (Returned notCompiled, (this, e))
        else
          let (o, e') := runExecutable exe args e in
          (o, (this, e'))
    | None => (Returned notCompiled, (this, e))
    end.

Definition tool : SimulationTool world :=
  Build_SimulationTool (Build_ToolRunner run isInstalled getVersion)
                       compile simulate None.
End IcarusSim.
End IcarusSim.

(** The Verilator simulation adapter.  Node's [path.basename] and
    [path.extname] are taken as given functions on strings. *)
Module VerilatorSim.
Definition passPatterns : list pattern :=
  [ci "test passed"; ci "all tests passed"; ci "simulation passed";
   ci "*** PASS ***"].

Definition failPatterns : list pattern :=
  [ci "test failed"; ci "error:"; ci "assertion failed"; ci "*** FAIL ***"].

Definition checkSimulationPassed (output : jsstring) : bool :=
  checkPatterns failPatterns passPatterns output.

(** What [path.extname(undefined)] throws: a [TypeError] whose message is
    [The "path" argument must be of type string. Received undefined]. *)
Definition invalidPathArgument : Thrown :=
  ThrownError (js "The " ++ [34%N] ++ js "path" ++ [34%N]
               ++ js " argument must be of type string. Received undefined").

Section Adapter.
Variable Env : Type.
Variable execAsync : jsstring -> ExecOptions -> Env -> ExecOutcome * Env.
Variable basename : jsstring -> jsstring -> jsstring.
Variable extname : jsstring -> jsstring.

(** The instance: [private executable?: string]. *)
Record t := { this_executable : option jsstring }.

(** [new VerilatorSim()] *)
Definition create : t := {| this_executable := None |}.

Definition world := (t * Env)%type.

Definition isInstalled : Act world bool :=
  fun '(this, e) =>
    let (o, e') := probe execAsync (js "verilator --version") (js "Verilator") e in
    (o, (this, e')).

Definition getVersion : Act world jsstring :=
  fun '(this, e) =>
    let (o, e') :=
      probeVersion execAsync (js "verilator --version")
        {| re := seqs [lit "Verilator"; Plus true CsSpace;
                       Group 1 (Plus true (CsOr CsDigit (CsLit 46)))];
           ignoreCase := false |} e in
    (o, (this, e')).

Definition run (input : ToolInput) : Act world ToolResult :=
  fun '(this, e) =>
    let cmd := js "verilator " ++ join (js " ") (argv input) in
    let (o, e') := execAsync cmd (WithEnv input.(env)) e in
    (Returned (runResult errsMessage o), (this, e')).

(** [files[0]] is [undefined] for an empty list, and the [path] functions
    throw on it before anything is spawned.  [this.executable] is assigned
    only after a successful run. *)
Definition compile (files : list jsstring) : Act world CompileResult :=
  fun '(this, e) =>
    match files with
    | [] => (Threw invalidPathArgument, (this, e))
    | topFile :: _ =>
        let topModule := basename topFile (extname topFile) in
        let verilateArgs :=
          [js "--cc"; js "--build"; js "--exe"; js "--Wall"; js "--trace";
           js "--coverage"] ++ files in
        match run {| files := []; args := Some verilateArgs; env := None |}
                  (this, e) with
        | (Returned result, (this1, e1)) =>
            if negb result.(success) then
              (Returned {| compileBase :=
                             {| success := false; stdout := None;
                                stderr := result.(stderr); exitCode := None;
                                errors := result.(errors) |};
                           executable := None |}, (this1, e1))
            else
              (* Executable path: obj_dir/V{topModule} *)
              let exe := js "obj_dir/V" ++ topModule in
              (Returned {| compileBase :=
                             {| success := true; stdout := result.(stdout);
                                stderr := result.(stderr); exitCode := None;
                                errors := None |};
                           executable := Some exe |},
               ({| this_executable := Some exe |}, e1))
        | (Threw x, w) => (Threw x, w)
        end
    end.

Definition notCompiled : SimulationResult :=
  {| simBase := failure (Some (js "Design not compiled. Call compile() first."));
     passed := false; coverage := None; waveform := None |}.

(** What [simulate] does once past the guard. *)
Definition runExecutable (exe : jsstring) (args : option (list jsstring))
  : Act Env SimulationResult :=
  fun e =>
    let simArgs := match args with Some a => a | None => [] end in
    let cmd := exe ++ js " " ++ join (js " ") simArgs in
    match execAsync cmd (WithTimeout 60000) e with
    | (ExecOk out err, e') =>
        let passed := checkSimulationPassed out in
        (Returned {| simBase := {| success := true; stdout := Some out;
                                   stderr := Some err; exitCode := None;
                                   errors := None |};
                     passed := passed; coverage := None;
                     waveform := Some (js "dump.vcd") |}, e')
    | (ExecFailed error, e') =>
        (Returned {| simBase :=
                       {| success := false;
                          stdout := Some (or_else error.(err_stdout) []);
                          stderr := Some (or_else error.(err_stderr)
                                                  error.(err_message));
                          exitCode := None; errors := None |};
                     passed := false; coverage := None;
                     waveform := None |}, e')
    end.

Definition simulate (testbench : jsstring) (args : option (list jsstring))
  : Act world SimulationResult :=
  fun '(this, e) =>
    match this.(this_executable) with
    | Some exe =>
        if negb (truthy exe) then (Returned notCompiled, (this, e))
        else
          let (o, e') := runExecutable exe args e in
          (o, (this, e'))
    | None => (Returned notCompiled, (this, e))
    end.

(** [collectCoverage]: the parse of [coverage.dat] is still to be written;
    the method answers zeros. *)
Definition collectCoverage : Act world CoverageResult :=
  fun w =>
    (Returned {| cov_line := 0; cov_toggle := 0; cov_fsm := 0;
                 cov_functional := None |}, w).

Definition tool : SimulationTool world :=
  Build_SimulationTool (Build_ToolRunner run isInstalled getVersion)
                       compile simulate (Some collectCoverage).
End Adapter.
End VerilatorSim.

(* ================================================================== *)
(** ** The three categories, uniformly *)
(* ================================================================== *)

Inductive Category := Lint | Simulation | Synthesis.

Definition ToolOf (W : Type) (c : Category) : Type :=
  match c with
  | Lint => LintTool W
  | Simulation => SimulationTool W
  | Synthesis => SynthesisTool W
  end.

Definition runnerOf {W : Type} (c : Category) : ToolOf W c -> ToolRunner W :=
  match c with
  | Lint => @lintRunner W
  | Simulation => @simRunner W
  | Synthesis => @synthRunner W
  end.

(** The [selectTool] of the manager of category [c]. *)
Definition selectToolOf {W : Type} (c : Category)
  : Manager.t (ToolOf W c) -> option jsstring -> M W (option (ToolOf W c)) :=
  match c with
  | Lint => @LintManager.selectTool W
  | Simulation => @SimulationManager.selectTool W
  | Synthesis => @SynthesisManager.selectTool W
  end.

(** The three lint adapters, uniformly. *)
Inductive LintAdapter := Verilator | Slang | Verible.

Definition linePatternOf (a : LintAdapter) : pattern :=
  match a with
  | Verilator => VerilatorLint.linePattern
  | Slang => SlangLint.linePattern
  | Verible => VeribleLint.linePattern
  end.

Definition parseLinesOf (a : LintAdapter)
  : list jsstring -> list LintMessage -> list LintMessage
    -> list LintMessage * list LintMessage :=
  match a with
  | Verilator => VerilatorLint.parseLines
  | Slang => SlangLint.parseLines
  | Verible => VeribleLint.parseLines
  end.

Definition parseLintOutputOf (a : LintAdapter) : ToolResult -> LintResult :=
  match a with
  | Verilator => VerilatorLint.parseLintOutput
  | Slang => SlangLint.parseLintOutput
  | Verible => VeribleLint.parseLintOutput
  end.

Definition lintOf {Env : Type} (a : LintAdapter)
           (execAsync : jsstring -> ExecOptions -> Env -> ExecOutcome * Env)
  : list jsstring -> Act Env LintResult :=
  match a with
  | Verilator => VerilatorLint.lint execAsync
  | Slang => SlangLint.lint execAsync
  | Verible => VeribleLint.lint execAsync
  end.

(* ================================================================== *)
(** ** The selection rule, as the specification words it *)
(* ================================================================== *)

Module SelectSpec.
Section SelectSpec.
Variable T : Type.

(** The tool registered under [name], if [name] is given, registered and
    in the installed-set. *)
Definition registeredInstalled (reg : Map.t T) (installed : jsstring -> bool)
           (name : option jsstring) : option T :=
  match name with
  | Some n =>
      match Map.get reg n with
      | Some tool => if installed n then Some tool else None
      | None => None
      end
  | None => None
  end.

(** The first adapter in registration order that is installed. *)
Fixpoint firstRegisteredInstalled (reg : Map.t T)
         (installed : jsstring -> bool) : option T :=
  match reg with
  | [] => None
  | (n, tool) :: rest =>
      if installed n then Some tool
      else firstRegisteredInstalled rest installed
  end.

(** Override, else preferred, else first installed, else null. *)
Definition precedence (reg : Map.t T) (installed : jsstring -> bool)
           (override preferred : option jsstring) : option T :=
  match registeredInstalled reg installed override with
  | Some tool => Some tool
  | None =>
      match registeredInstalled reg installed preferred with
      | Some tool => Some tool
      | None => firstRegisteredInstalled reg installed
      end
  end.

(** A name that counts: given and not the empty string. *)
Definition given (name : option jsstring) : option jsstring :=
  match name with
  | Some n => if truthy n then Some n else None
  | None => None
  end.
End SelectSpec.
End SelectSpec.

(** The installed-set [installed] describes the registry [reg]: in every
    world, the probe of each registered adapter answers membership of its
    name. *)
Definition answers {W T : Type} (runner : T -> ToolRunner W)
           (reg : Map.t T) (installed : jsstring -> bool) : Prop :=
  forall n tool, In (n, tool) reg ->
    forall x, fst (isInstalled (runner tool) x) = Returned (installed n).

(** The journal of [w'] extends that of [w] by [evs]. *)
Definition extends {W : Type} (w w' : World W) (evs : list Event) : Prop :=
  w'.(journal) = w.(journal) ++ evs.

(** Error-severity diagnostics among everything a lint run parsed. *)
Definition isErrorSeverity (d : LintMessage) : bool :=
  match d.(severity) with SevError => true | _ => false end.

Definition errorCount (r : LintResult) : nat :=
  length (filter isErrorSeverity (r.(warnings) ++ r.(lintErrors))).

(** The output line is one that the adapter's parser reads as an
    error-severity diagnostic: it matches the adapter's line pattern, and
    the Verilator prefix is not [Warning], the slang severity is [error],
    the Verible message mentions "error". *)
Definition isErrorLine (a : LintAdapter) (ln : jsstring) : bool :=
  match exec (linePatternOf a) ln with
  | None => false
  | Some m =>
      match a with
      | Verilator => negb (str_eqb (cap 1 m) (js "Warning"))
      | Slang => str_eqb (cap 4 m) (js "error")
      | Verible => includes (js "error") (toLowerCase (cap 4 m))
      end
  end.

(** "No failure pattern matches." *)
Definition noFailureMatches (failPatterns : list pattern)
           (output : jsstring) : bool :=
  negb (existsb (fun p => test p output) failPatterns).

(** The message a thrown value carries, if it carries one. *)
Definition messageText (e : Thrown) : option jsstring :=
  match e with
  | ThrownError m => Some m
  | ThrownNullish | ThrownOther => None
  | ThrownUnprintable m _ => m
  end.

(** The two simulation adapters, uniformly. *)
Inductive SimAdapter := Icarus | VerilatorSimulator.

Definition failPatternsOf (a : SimAdapter) : list pattern :=
  match a with
  | Icarus => IcarusSim.failPatterns
  | VerilatorSimulator => VerilatorSim.failPatterns
  end.

Definition passPatternsOf (a : SimAdapter) : list pattern :=
  match a with
  | Icarus => IcarusSim.passPatterns
  | VerilatorSimulator => VerilatorSim.passPatterns
  end.

Definition checkSimulationPassedOf (a : SimAdapter) : jsstring -> bool :=
  match a with
  | Icarus => IcarusSim.checkSimulationPassed
  | VerilatorSimulator => VerilatorSim.checkSimulationPassed
  end.

(** A run of events that are all [isInstalled] probes. *)
Definition probesOnly (evs : list Event) : Prop :=
  Forall (fun e => e = Invoked MIsInstalled) evs.

(* ================================================================== *)
(** ** Scripted adapters, for concrete runs *)
(* ================================================================== *)

(** Adapters over a world with nothing in it: each method's behaviour is
    fixed when the adapter is built. *)
Module Scripted.

Definition w0 : World unit := {| ext := tt; journal := [] |}.

Definition always {A} (o : Outcome A) : Act unit A := fun x => (o, x).

Definition runner (installed : bool) : ToolRunner unit :=
  {| run := fun _ => always (Returned (failure None));
     isInstalled := always (Returned installed);
     getVersion := always (Returned (js "unknown")) |}.

(** A clean lint result whose stdout is [tag]. *)
Definition clean (tag : jsstring) : LintResult :=
  {| lintBase := {| success := true; stdout := Some tag; stderr := None;
                    exitCode := None; errors := None |};
     warnings := []; lintErrors := [] |}.

Definition linter (installed : bool) (o : Outcome LintResult)
  : LintTool unit :=
  {| lintRunner := runner installed; lint := fun _ => always o |}.

Definition simulator (installed : bool) (c : Outcome CompileResult)
           (s : Outcome SimulationResult) : SimulationTool unit :=
  {| simRunner := runner installed;
     compile := fun _ => always c;
     simulate := fun _ _ => always s;
     collectCoverage := None |}.

Definition synthesizer (installed : bool) (s : Outcome SynthesisResult)
           (tm : Outcome TimingResult) (p : Outcome PPAResult)
  : SynthesisTool unit :=
  {| synthRunner := runner installed;
     synthesize := fun _ _ => always s;
     analyzeTiming := fun _ => always tm;
     estimatePPA := fun _ => always p |}.

Definition someTiming : TimingResult :=
  {| criticalPath_start := js "a"; criticalPath_end := js "b";
     criticalPath_delay := 2; slack := 1; frequency := 100 |}.

Definition somePpa : PPAResult :=
  {| area_cells := 10; area_area := 25; power_dynamic := 1;
     power_static := 1; power_total := 2; performance_frequency := 100 |}.

(** A successful core synthesis result with a netlist; [tm] is the
    timing the adapter itself put there, if any. *)
Definition synthesized (tm : option TimingResult) : SynthesisResult :=
  {| synthBase := {| success := true; stdout := None; stderr := None;
                     exitCode := None; errors := None |};
     netlist := Some (js "design.v"); timing := tm; ppa := None |}.

(** A failed compile step. *)
Definition compileFailed : CompileResult :=
  {| compileBase := {| success := false; stdout := None;
                       stderr := Some (js "syntax error");
                       exitCode := None;
                       errors := Some [js "Command failed"] |};
     executable := None |}.

(** verilator (not installed) registered before slang (installed). *)
Definition slangOnly : Map.t (LintTool unit) :=
  [(js "verilator", linter false (Returned (clean (js "verilator"))));
   (js "slang", linter true (Returned (clean (js "slang"))))].

Definition slangInstalled (n : jsstring) : bool := str_eqb n (js "slang").

(** Two installed adapters, the second registered under the empty name. *)
Definition withEmptyName : Map.t (LintTool unit) :=
  [(js "verilator", linter true (Returned (clean (js "verilator"))));
   ([], linter true (Returned (clean (js "unnamed"))))].

(** An installed linter whose [lint] throws an [Error]. *)
Definition eacces : Thrown := ThrownError (js "spawn EACCES").

Definition brokenLinter : LintTool unit := linter true (Threw eacces).

Definition brokenLintManager : Manager.t (LintTool unit) :=
  {| Manager.tools := [(js "verilator", brokenLinter)];
     Manager.preferredTool := None |}.

(** Synthesizers whose timing analysis throws; the core step of the
    second one has already filled [timing]. *)
Definition noTimingSynthesizer : SynthesisTool unit :=
  synthesizer true (Returned (synthesized None)) (Threw eacces)
              (Returned somePpa).

Definition presetSynthesizer : SynthesisTool unit :=
  synthesizer true (Returned (synthesized (Some someTiming)))
              (Threw eacces) (Returned somePpa).

Definition yosysOnly (tool : SynthesisTool unit)
  : Manager.t (SynthesisTool unit) :=
  {| Manager.tools := [(js "yosys", tool)];
     Manager.preferredTool := None |}.

(** A process table in which every command fails with exit code 1 and
    prints [text] on stderr. *)
Definition failing (text : jsstring)
  : jsstring -> ExecOptions -> unit -> ExecOutcome * unit :=
  fun _ _ x =>
    (ExecFailed {| err_stdout := Some []; err_stderr := Some text;
                   err_code := Some 1%N;
                   err_message := js "Command failed" |}, x).
End Scripted.

(* ================================================================== *)
(** ** The manager factories ([create...Manager]) *)
(* ================================================================== *)

(** [try { const { X } = await import(...); manager.register(name, new X()) }
     catch (error) { console.warn(...) }]
    The outcome of the dynamic import is a parameter: [Some tool] is the
    adapter instance of a module that loaded, [None] a module that did
    not. *)
Definition registerLoaded {W T : Type} (mgr : Manager.t T)
           (name : jsstring) (loaded : option T) : M W (Manager.t T) :=
  match loaded with
  | Some tool => ret (Manager.register mgr name tool)
  | None => warn ;;; ret mgr
  end.

(** A synchronous call that may throw, inside manager code. *)
Definition lift {W A : Type} (o : Outcome A) : M W A := fun w => (o, w).

(** [installed.includes(name)] on an array of strings. *)
Definition arrayIncludes (xs : list jsstring) (x : jsstring) : bool :=
  existsb (str_eqb x) xs.

Definition createLintManager {W : Type}
           (verilator verible slang : option (LintTool W))
  : M W (LintManager.t W) :=
  let manager := Manager.create (LintTool W) in
  manager <- registerLoaded manager (js "verilator") verilator ;;
  manager <- registerLoaded manager (js "verible") verible ;;
  manager <- registerLoaded manager (js "slang") slang ;;
  (* Set default preference: verilator (most widely used) *)
  installed <- LintManager.detectInstalledTools manager ;;
  if arrayIncludes installed (js "verilator") then
    lift (LintManager.setPreferred manager (js "verilator"))
  else if arrayIncludes installed (js "slang") then
    lift (LintManager.setPreferred manager (js "slang"))
  else if arrayIncludes installed (js "verible") then
    lift (LintManager.setPreferred manager (js "verible"))
  else ret manager.

Definition createSimulationManager {W : Type}
           (verilator iverilog : option (SimulationTool W))
  : M W (SimulationManager.t W) :=
  let manager := Manager.create (SimulationTool W) in
  manager <- registerLoaded manager (js "verilator") verilator ;;
  manager <- registerLoaded manager (js "iverilog") iverilog ;;
  installed <- SimulationManager.detectInstalledTools manager ;;
  if arrayIncludes installed (js "verilator") then
    lift (SimulationManager.setPreferred manager (js "verilator"))
  else if arrayIncludes installed (js "iverilog") then
    lift (SimulationManager.setPreferred manager (js "iverilog"))
  else ret manager.

Definition createSynthesisManager {W : Type}
           (yosys : option (SynthesisTool W))
  : M W (SynthesisManager.t W) :=
  let manager := Manager.create (SynthesisTool W) in
  manager <- registerLoaded manager (js "yosys") yosys ;;
  installed <- SynthesisManager.detectInstalledTools manager ;;
  if arrayIncludes installed (js "yosys") then
    lift (SynthesisManager.setPreferred manager (js "yosys"))
  else ret manager.

(** The managers a program can hold: built by the constructor, [register]
    and the calls of [setPreferred] that return. *)
Inductive Reachable {T : Type} : Manager.t T -> Prop :=
| ReachCreate : Reachable (Manager.create T)
| ReachRegister (mgr : Manager.t T) (name : jsstring) (tool : T) :
    Reachable mgr -> Reachable (Manager.register mgr name tool)
| ReachSetPreferred (category : jsstring) (mgr mgr' : Manager.t T)
                    (name : jsstring) :
    Reachable mgr ->
    Manager.setPreferred category mgr name = Returned mgr' ->
    Reachable mgr'.

(** An adapter that keeps to the adapter contract as far as the managers
    rely on it: its probe returns, and no method rejects with
    [null]/[undefined]. *)
Definition neverNullish {W A : Type} (act : Act W A) : Prop :=
  forall x, fst (act x) <> Threw ThrownNullish.

Definition probeReturns {W : Type} (r : ToolRunner W) : Prop :=
  forall x, exists b, fst (isInstalled r x) = Returned b.

(** The value converts to a string. *)
Definition printable (e : Thrown) : bool :=
  match e with
  | ThrownUnprintable _ _ => false
  | _ => true
  end.

(** Whatever a probe of the registry throws converts to a string. *)
Definition probesPrintable {W T : Type} (runner : T -> ToolRunner W)
           (reg : Map.t T) : Prop :=
  forall n t, In (n, t) reg ->
    forall x e, fst (isInstalled (runner t) x) = Threw e ->
                printable e = true.

(* ================================================================== *)
(** ** Language-server clients ([rtl/lsp]) *)
(* ================================================================== *)

Module Lsp.

Inductive LSPType := slang | verible | svls | none.

Inductive Severity := error | warning | info | hint.

(** [interface Diagnostic] *)
Record Diagnostic := {
  file : jsstring;
  line : number;
  column : number;
  severity : Severity;
  message : jsstring;
  code : option jsstring
}.

(** [a + b] on two possibly-undefined strings.  Next to a string,
    [undefined] prints as ["undefined"]; [undefined + undefined] is the
    number [NaN], here [None]. *)
Definition plus (a b : option jsstring) : option jsstring :=
  match a, b with
  | Some s, Some t => Some (s ++ t)
  | Some s, None => Some (s ++ js "undefined")
  | None, Some t => Some (js "undefined" ++ t)
  | None, None => None
  end.

End Lsp.

Module SlangLSP.

Inductive Standard := Std1995 | Std2001 | Std2005 | Std2009 | Std2012 | Std2017.

Definition standardText (s : Standard) : jsstring :=
  match s with
  | Std1995 => js "1995" | Std2001 => js "2001" | Std2005 => js "2005"
  | Std2009 => js "2009" | Std2012 => js "2012" | Std2017 => js "2017"
  end.

(** [interface SlangConfig]; [defines] lists the object's entries in
    enumeration order. *)
Record SlangConfig := {
  workspaceRoot : jsstring;
  includePaths : option (list jsstring);
  defines : option (list (jsstring * jsstring));
  standard : option Standard;
  topModule : option jsstring
}.

(** [constructor(config)]: [{ standard: '2017', ...config }]. *)
Definition create (config : SlangConfig) : SlangConfig :=
  {| workspaceRoot := config.(workspaceRoot);
     includePaths := config.(includePaths);
     defines := config.(defines);
     standard := match config.(standard) with
                 | Some s => Some s
                 | None => Some Std2017
                 end;
     topModule := config.(topModule) |}.

Definition buildArgs (config : SlangConfig) (filePath : jsstring)
  : list jsstring :=
  (* Include paths *)
  match config.(includePaths) with
  | Some paths => flat_map (fun includePath => [js "-I"; includePath]) paths
  | None => []
  end
  (* Defines *)
  ++ match config.(defines) with
     | Some entries =>
         flat_map (fun '(key, value) => [js "-D"; key ++ js "=" ++ value])
                  entries
     | None => []
     end
  (* Standard *)
  ++ match config.(standard) with
     | Some s => [js "--std=" ++ standardText s]
     | None => []
     end
  (* Top module (optional) *)
  ++ match config.(topModule) with
     | Some top => if truthy top then [js "--top"; top] else []
     | None => []
     end
  (* Lint mode, file *)
  ++ [js "--lint"; filePath].

Definition mapSeverity (severity : jsstring) : Lsp.Severity :=
  if str_eqb severity (js "error") then Lsp.error
  else if str_eqb severity (js "warning") then Lsp.warning
  else if str_eqb severity (js "note") then Lsp.info
  else Lsp.hint.

(** [/^(.+?):(\d+):(\d+):\s+(error|warning|note):\s+(.+)$/] *)
Definition linePattern : pattern :=
  {| re := seqs [Bol; Group 1 (Plus false CsAny); lit ":";
                 Group 2 (Plus true CsDigit); lit ":";
                 Group 3 (Plus true CsDigit); lit ":"; Plus true CsSpace;
                 Group 4 (Alt (lit "error") (Alt (lit "warning") (lit "note")));
                 lit ":"; Plus true CsSpace; Group 5 (Plus true CsAny); Eol];
     ignoreCase := false |}.

Fixpoint parseLines (lines : list jsstring)
         (diagnostics : list Lsp.Diagnostic) : list Lsp.Diagnostic :=
  match lines with
  | [] => diagnostics
  | ln :: rest =>
      match exec linePattern ln with
      | None => parseLines rest diagnostics
      | Some m =>
          parseLines rest
            (diagnostics
             ++ [{| Lsp.file := cap 1 m;
                    Lsp.line := parseInt10 (cap 2 m);
                    Lsp.column := parseInt10 (cap 3 m);
                    Lsp.severity := mapSeverity (cap 4 m);
                    Lsp.message := trim (cap 5 m);
                    Lsp.code := None |}])
      end
  end.

Definition parseDiagnostics (output filePath : jsstring)
  : list Lsp.Diagnostic :=
  parseLines (split 10 output) [].

Section Client.
Variable Env : Type.
Variable execAsync : jsstring -> ExecOptions -> Env -> ExecOutcome * Env.

Definition isInstalled : Act Env bool :=
  probe execAsync (js "slang --version") (js "slang").

(** slang exits with non-zero on errors, but still outputs diagnostics. *)
Definition getDiagnostics (config : SlangConfig) (filePath : jsstring)
  : Act Env (list Lsp.Diagnostic) :=
  fun e =>
    let args := buildArgs config filePath in
    match execAsync (js "slang " ++ join (js " ") args) NoOptions e with
    | (ExecOk out err, e') =>
        (Returned (parseDiagnostics (out ++ err) filePath), e')
    | (ExecFailed error, e') =>
        match Lsp.plus error.(err_stdout) error.(err_stderr) with
        | Some output => (Returned (parseDiagnostics output filePath), e')
        | None =>
            (* parseDiagnostics(NaN): a number has no [split] *)
            (Threw (ThrownError (js "output.split is not a function")), e')
        end
    end.
End Client.
End SlangLSP.

Module VeribleLSP.

Definition mapSeverity (severity : jsstring) : Lsp.Severity :=
  let s := toLowerCase severity in
  if str_eqb s (js "error") then Lsp.error
  else if str_eqb s (js "warning") then Lsp.warning
  else if str_eqb s (js "info") then Lsp.info
  else Lsp.hint.

(** [/^(.+?):(\d+):(\d+):\s+(\w+):\s+\[(.+?)\]\s+(.+)$/] *)
Definition linePattern : pattern :=
  {| re := seqs [Bol; Group 1 (Plus false CsAny); lit ":";
                 Group 2 (Plus true CsDigit); lit ":";
                 Group 3 (Plus true CsDigit); lit ":"; Plus true CsSpace;
                 Group 4 (Plus true CsWord); lit ":"; Plus true CsSpace;
                 lit "["; Group 5 (Plus false CsAny); lit "]";
                 Plus true CsSpace; Group 6 (Plus true CsAny); Eol];
     ignoreCase := false |}.

Fixpoint parseLines (lines : list jsstring)
         (diagnostics : list Lsp.Diagnostic) : list Lsp.Diagnostic :=
  match lines with
  | [] => diagnostics
  | ln :: rest =>
      match exec linePattern ln with
      | None => parseLines rest diagnostics
      | Some m =>
          parseLines rest
            (diagnostics
             ++ [{| Lsp.file := cap 1 m;
                    Lsp.line := parseInt10 (cap 2 m);
                    Lsp.column := parseInt10 (cap 3 m);
                    Lsp.severity := mapSeverity (cap 4 m);
                    Lsp.message := trim (cap 6 m);
                    Lsp.code := Some (cap 5 m) |}])
      end
  end.

Definition parseDiagnostics (output filePath : jsstring)
  : list Lsp.Diagnostic :=
  parseLines (split 10 output) [].

End VeribleLSP.

(** [detectLSP]: priority slang > verible > svls > none.  The outcome of
    each of the three dynamic imports ahead of the first [try] is a
    parameter: [Returned body] for a module that loaded, [body] being what
    the [try] block then runs (creating the client and probing it), and
    [Threw e] for an import that rejects.  The imports are not guarded. *)
Definition detectLSP {W : Type} (slangModule veribleModule
                                 svlsModule : Outcome (M W bool))
  : M W Lsp.LSPType :=
  (* const { createSlangLSP } = await import('./slang.js'); *)
  slangInstalled <- lift slangModule ;;
  (* const { createVeribleLSP } = await import('./verible.js'); *)
  veribleInstalled <- lift veribleModule ;;
  (* const { createSvlsLSP } = await import('./svls.js'); *)
  svlsInstalled <- lift svlsModule ;;
  (* Try slang first (primary) *)
  r1 <- try_catch (b <- slangInstalled ;; ret (if (b : bool) then Some Lsp.slang else None))
                  (fun _ => ret None) ;;
  match r1 with
  | Some t => ret t
  | None =>
      (* Try verible (fallback 1) *)
      r2 <- try_catch (b <- veribleInstalled ;;
                       ret (if (b : bool) then Some Lsp.verible else None))
                      (fun _ => ret None) ;;
      match r2 with
      | Some t => ret t
      | None =>
          (* Try svls (fallback 2) *)
          r3 <- try_catch (b <- svlsInstalled ;;
                           ret (if (b : bool) then Some Lsp.svls else None))
                          (fun _ => ret None) ;;
          match r3 with
          | Some t => ret t
          | None => ret Lsp.none
          end
      end
  end.

(* ================================================================== *)
(** ** Include-path detection ([lsp/config-helper.ts]) *)
(* ================================================================== *)

Record ProjectStructure := {
  root : jsstring;
  rtlDirs : list jsstring;
  includeDirs : list jsstring;
  testbenchDirs : list jsstring;
  configFiles : list jsstring
}.

(** The options object; only [includeTestbench] is read. *)
Record IncludeOptions := {
  includeTestbench : option bool;
  maxDepth : option N;
  excludePatterns : option (list jsstring)
}.

(** [[...new Set(xs)]]: every value once, at the place of its first
    occurrence.  [seen] is the set built so far, in insertion order. *)
Fixpoint uniqueInto (seen xs : list jsstring) : list jsstring :=
  match xs with
  | [] => seen
  | x :: rest =>
      if arrayIncludes seen x then uniqueInto seen rest
      else uniqueInto (seen ++ [x]) rest
  end.

Definition unique (xs : list jsstring) : list jsstring := uniqueInto [] xs.

Definition autoDetectIncludePaths (structure : ProjectStructure)
           (options : option IncludeOptions) : list jsstring :=
  let includePaths :=
    (* Add include directories (highest priority) *)
    structure.(includeDirs)
    (* Add RTL directories *)
    ++ structure.(rtlDirs)
    ++ match options with
       | Some o =>
           match o.(includeTestbench) with
           | Some true => structure.(testbenchDirs)
           | _ => []
           end
       | None => []
       end in
  unique includePaths.

(* ================================================================== *)
(** ** What a pattern can match *)
(* ================================================================== *)

(** The strings a regular expression denotes (captures aside). *)
Fixpoint Lang (ic : bool) (r : regex) (v : jsstring) : Prop :=
  match r with
  | Eps | Bol | Eol => v = []
  | Chr cs => exists c, v = [c] /\ cs_mem ic cs c = true
  | Seq r1 r2 => exists v1 v2, v = v1 ++ v2 /\ Lang ic r1 v1 /\ Lang ic r2 v2
  | Alt r1 r2 => Lang ic r1 v \/ Lang ic r2 v
  | Group _ r1 => Lang ic r1 v
  | Plus _ cs => v <> [] /\ Forall (fun c => cs_mem ic cs c = true) v
  end.

(** Every capturing group of [r] denotes only strings that [Q] accepts for
    the group's index. *)
Fixpoint GroupsOk (ic : bool) (Q : nat -> jsstring -> Prop) (r : regex)
  : Prop :=
  match r with
  | Seq r1 r2 | Alt r1 r2 => GroupsOk ic Q r1 /\ GroupsOk ic Q r2
  | Group i r1 => (forall v, Lang ic r1 v -> Q i v) /\ GroupsOk ic Q r1
  | _ => True
  end.

(** Every capture that is set satisfies [Q] at its index. *)
Definition CapsOk (Q : nat -> jsstring -> Prop) (caps : captures) : Prop :=
  forall i v, nth i caps None = Some v -> Q i v.

(** A non-empty run of decimal digits. *)
Definition digits (v : jsstring) : Prop :=
  v <> [] /\ Forall (fun c => isDigit c = true) v.

(** A lint diagnostic whose position is numeric. *)
Definition positioned (d : LintMessage) : Prop :=
  (exists n, d.(line) = Int n) /\ (exists n, d.(column) = Some (Int n))
  /\ d.(file) <> [].

Definition positionedLsp (d : Lsp.Diagnostic) : Prop :=
  (exists n, d.(Lsp.line) = Int n) /\ (exists n, d.(Lsp.column) = Int n)
  /\ d.(Lsp.file) <> [].

(** A slang language-server diagnostic as the slang lint adapter would
    record it. *)
Definition asLintMessage (d : Lsp.Diagnostic) : LintMessage :=
  {| file := d.(Lsp.file); line := d.(Lsp.line);
     column := Some d.(Lsp.column); code := js "slang";
     message := d.(Lsp.message);
     severity := match d.(Lsp.severity) with
                 | Lsp.error => SevError
                 | Lsp.warning => SevWarning
                 | Lsp.info | Lsp.hint => SevInfo
                 end |}.

Definition isLspError (d : Lsp.Diagnostic) : bool :=
  match d.(Lsp.severity) with Lsp.error => true | _ => false end.

(** More scripted adapters. *)
Module Fixtures.
(** A linter whose probe throws. *)
Definition probeThrows : LintTool unit :=
  {| lintRunner :=
       {| run := fun _ => Scripted.always (Returned (failure None));
          isInstalled := Scripted.always (Threw Scripted.eacces);
          getVersion := Scripted.always (Returned (js "unknown")) |};
     lint := fun _ => Scripted.always (Returned (Scripted.clean (js "x"))) |}.

Definition probeThrowsManager : LintManager.t unit :=
  {| Manager.tools := [(js "verilator", probeThrows)];
     Manager.preferredTool := None |}.

Definition compiled : CompileResult :=
  {| compileBase := {| success := true; stdout := Some []; stderr := Some [];
                       exitCode := None; errors := None |};
     executable := Some (js "a.out") |}.

Definition simulated (ok : bool) : SimulationResult :=
  {| simBase := {| success := ok; stdout := Some (js "done");
                   stderr := Some []; exitCode := None; errors := None |};
     passed := ok; coverage := None; waveform := Some (js "dump.vcd") |}.

Definition someCoverage : CoverageResult :=
  {| cov_line := 90; cov_toggle := 80; cov_fsm := 70;
     cov_functional := None |}.

(** A simulator that compiles and simulates; [cov] is its
    [collectCoverage], if it has one. *)
Definition covering (ok : bool) (cov : option (Outcome CoverageResult))
  : SimulationTool unit :=
  {| simRunner := Scripted.runner true;
     compile := fun _ => Scripted.always (Returned compiled);
     simulate := fun _ _ => Scripted.always (Returned (simulated ok));
     collectCoverage := option_map Scripted.always cov |}.

Definition only {T : Type} (name : jsstring) (tool : T) : Manager.t T :=
  {| Manager.tools := [(name, tool)]; Manager.preferredTool := None |}.

(** Three lint adapters of which only verible and slang are installed. *)
Definition noVerilator (n : jsstring) : bool :=
  negb (str_eqb n (js "verilator")).

Definition lintTrio : list (jsstring * option (LintTool unit)) :=
  [(js "verilator",
    Some (Scripted.linter false (Returned (Scripted.clean (js "verilator")))));
   (js "verible",
    Some (Scripted.linter true (Returned (Scripted.clean (js "verible")))));
   (js "slang",
    Some (Scripted.linter true (Returned (Scripted.clean (js "slang")))))].
End Fixtures.

(** A thrown [Symbol]: it has no [message], and converting it to a string
    throws a [TypeError]. *)
Definition thrownSymbol : Thrown :=
  ThrownUnprintable None
    (ThrownError (js "Cannot convert a Symbol value to a string")).

(** A linter whose probe rejects with a [Symbol]. *)
Definition symbolProbe : LintTool unit :=
  {| lintRunner :=
       {| run := fun _ => Scripted.always (Returned (failure None));
          isInstalled := Scripted.always (Threw thrownSymbol);
          getVersion := Scripted.always (Returned (js "unknown")) |};
     lint := fun _ => Scripted.always (Returned (Scripted.clean (js "x"))) |}.

(** How often the journal records an invocation of [m]. *)
Definition countInvoked (m : Method) (j : list Event) : nat :=
  length (filter (fun e => match e with
                           | Invoked m' => Method_eqb m m'
                           | Warned => false
                           end) j).

(** The registry a factory ends up with: the adapters whose modules
    loaded, in the order the factory registers them. *)
Fixpoint loadedRegistry {T : Type} (entries : list (jsstring * option T))
  : Map.t T :=
  match entries with
  | [] => []
  | (name, Some tool) :: rest => (name, tool) :: loadedRegistry rest
  | (_, None) :: rest => loadedRegistry rest
  end.

(** The first name of [priority] that is registered and installed. *)
Fixpoint firstPreferred {T : Type} (reg : Map.t T)
         (installed : jsstring -> bool) (priority : list jsstring)
  : option jsstring :=
  match priority with
  | [] => None
  | n :: rest =>
      if Map.has reg n && installed n then Some n
      else firstPreferred reg installed rest
  end.

(** The groups that every match of [r] sets (groups under an alternative
    are left out). *)
Fixpoint Sets (r : regex) : list nat :=
  match r with
  | Seq r1 r2 => Sets r1 ++ Sets r2
  | Group i r1 => i :: Sets r1
  | _ => []
  end.

(** Every capture set in [caps] is still set in [caps']. *)
Definition Keeps (caps caps' : captures) : Prop :=
  forall i, nth i caps None <> None -> nth i caps' None <> None.

(** What the groups of the adapters' line patterns can capture. *)
Definition verilatorGroups (i : nat) (v : jsstring) : Prop :=
  match i with
  | 1 => v = js "Warning" \/ v = js "Error"
  | 3 => v <> []
  | 4 | 5 => digits v
  | _ => True
  end.

Definition slangGroups (i : nat) (v : jsstring) : Prop :=
  match i with
  | 1 => v <> []
  | 2 | 3 => digits v
  | 4 => v = js "error" \/ v = js "warning" \/ v = js "note"
  | _ => True
  end.

Definition veribleGroups (i : nat) (v : jsstring) : Prop :=
  match i with
  | 1 => v <> []
  | 2 | 3 => digits v
  | _ => True
  end.

Definition probeOrWarn (e : Event) : Prop :=
  e = Invoked MIsInstalled \/ e = Warned.

(** The three lint adapter classes as registry entries. *)
Definition lintToolOf {Env : Type} (a : LintAdapter)
           (execAsync : jsstring -> ExecOptions -> Env -> ExecOutcome * Env)
  : LintTool Env :=
  match a with
  | Verilator => VerilatorLint.tool execAsync
  | Slang => SlangLint.tool execAsync
  | Verible => VeribleLint.tool execAsync
  end.

(** What [VerilatorSim.collectCoverage] answers. *)
Definition zeroCoverage : CoverageResult :=
  {| cov_line := 0; cov_toggle := 0; cov_fsm := 0; cov_functional := None |}.

(** A process table in which every command exits with code 0 and prints
    [text] on stdout. *)
Definition printing (text : jsstring)
  : jsstring -> ExecOptions -> unit -> ExecOutcome * unit :=
  fun _ _ x => (ExecOk text [], x).

(* ================================================================== *)
(** * Properties *)
(* ================================================================== *)

(** ** Strings and maps *)

Lemma str_eqb_eq (s t : jsstring) : str_eqb s t = true <-> s = t.
Proof.
  revert t; induction s as [|c s IH]; intros [|d t]; simpl; split;
    try congruence; try discriminate; auto.
  - intros H. apply andb_true_iff in H as [Hc Hs].
    apply N.eqb_eq in Hc. apply IH in Hs. congruence.
  - intros H. injection H as -> ->.
    apply andb_true_iff; split; [apply N.eqb_refl | now apply IH].
Qed.

Lemma Map_get_In {V} (m : Map.t V) (k : jsstring) (v : V) :
  Map.get m k = Some v -> In (k, v) m.
Proof.
  induction m as [|[k' v'] rest IH]; simpl; [discriminate|].
  destruct (str_eqb k k') eqn:E.
  - apply str_eqb_eq in E. intros [= ->]. left; congruence.
  - intros H. right; auto.
Qed.

Lemma Map_has_get {V} (m : Map.t V) (k : jsstring) :
  Map.has m k = true <-> exists v, Map.get m k = Some v.
Proof.
  unfold Map.has. destruct (Map.get m k); split; eauto; try discriminate.
  intros [v [=]].
Qed.

(** [set] keeps the keys distinct and keeps an existing key in place. *)
Lemma Map_set_keys {V} (m : Map.t V) (k : jsstring) (v : V) :
  Map.keys (Map.set m k v) =
  if Map.has m k then Map.keys m else Map.keys m ++ [k].
Proof.
  unfold Map.has, Map.keys.
  induction m as [|[k' v'] rest IH]; simpl; auto.
  destruct (str_eqb k k') eqn:E; simpl; auto.
  rewrite IH. destruct (Map.get rest k); reflexivity.
Qed.

Lemma Map_get_set {V} (m : Map.t V) (k : jsstring) (v : V) :
  Map.get (Map.set m k v) k = Some v.
Proof.
  induction m as [|[k' v'] rest IH]; simpl.
  - replace (str_eqb k k) with true; auto.
    symmetry; now apply str_eqb_eq.
  - destruct (str_eqb k k') eqn:E; simpl; rewrite E; auto.
Qed.

(** ** The monad *)

Section MonadFacts.
Context {W : Type}.

Lemma bind_returned {A B} (m : M W A) (k : A -> M W B) w a :
  fst (m w) = Returned a -> bind m k w = k a (snd (m w)).
Proof. unfold bind. destruct (m w) as [[a'|e] w']; simpl; congruence. Qed.

Lemma bind_threw {A B} (m : M W A) (k : A -> M W B) w e :
  fst (m w) = Threw e -> bind m k w = (Threw e, snd (m w)).
Proof. unfold bind. destruct (m w) as [[a'|e'] w']; simpl; congruence. Qed.

Lemma invoke_fst {A} (meth : Method) (act : Act W A) w :
  fst (invoke meth act w) = fst (act w.(ext)).
Proof. unfold invoke. destruct (act (ext w)); reflexivity. Qed.

Lemma invoke_snd {A} (meth : Method) (act : Act W A) w :
  snd (invoke meth act w) =
  {| ext := snd (act w.(ext)); journal := w.(journal) ++ [Invoked meth] |}.
Proof. unfold invoke. destruct (act (ext w)); reflexivity. Qed.

Lemma extends_refl (w : World W) : extends w w [].
Proof. unfold extends. now rewrite app_nil_r. Qed.

Lemma extends_trans (w1 w2 w3 : World W) e1 e2 :
  extends w1 w2 e1 -> extends w2 w3 e2 -> extends w1 w3 (e1 ++ e2).
Proof. unfold extends. intros -> ->. now rewrite app_assoc. Qed.

Lemma extends_invoke {A} (meth : Method) (act : Act W A) w :
  extends w (snd (invoke meth act w)) [Invoked meth].
Proof. rewrite invoke_snd. reflexivity. Qed.
End MonadFacts.

(** ** Selection *)

Section SelectFacts.
Variables W T : Type.
Variable runner : T -> ToolRunner W.
Variable reg : Map.t T.
Variable installed : jsstring -> bool.

Import SelectSpec.

Lemma answers_tail n tool rest :
  answers runner ((n, tool) :: rest) installed ->
  answers runner rest installed.
Proof. intros H n' t' Hin. apply H. now right. Qed.

Lemma tryNamed_answers (name : option jsstring) (w : World W) :
  answers runner reg installed ->
  fst (Manager.tryNamed runner reg name w)
  = Returned (registeredInstalled reg installed (given name)).
Proof.
  intros Hans. destruct name as [n|]; simpl; [|reflexivity].
  destruct (truthy n); simpl; [|reflexivity].
  destruct (Map.get reg n) as [tool|] eqn:G; simpl; [|reflexivity].
  pose proof (Hans _ _ (Map_get_In _ _ G) w.(ext)) as Hp.
  rewrite bind_returned with (a := installed n)
    by (now rewrite invoke_fst).
  destruct (installed n); reflexivity.
Qed.

Lemma firstInstalled_answers (w : World W) :
  answers runner reg installed ->
  fst (Manager.firstInstalled runner reg w)
  = Returned (firstRegisteredInstalled reg installed).
Proof.
  revert w. induction reg as [|[n tool] rest IH]; intros w Hans; simpl;
    [reflexivity|].
  pose proof (Hans n tool (or_introl eq_refl) w.(ext)) as Hp.
  rewrite bind_returned with (a := installed n)
    by (now rewrite invoke_fst).
  destruct (installed n); [reflexivity|].
  apply IH. eapply answers_tail; eauto.
Qed.

Lemma selectTool_answers (preferred override : option jsstring)
      (w : World W) :
  answers runner reg installed ->
  fst (Manager.selectTool runner
         {| Manager.tools := reg; Manager.preferredTool := preferred |}
         override w)
  = Returned (precedence reg installed (given override) (given preferred)).
Proof.
  intros Hans. unfold Manager.selectTool, precedence; simpl.
  erewrite bind_returned by (apply tryNamed_answers; auto).
  destruct (registeredInstalled reg installed (given override));
    [reflexivity|].
  erewrite bind_returned by (apply tryNamed_answers; auto).
  destruct (registeredInstalled reg installed (given preferred));
    [reflexivity|].
  now apply firstInstalled_answers.
Qed.

(** Whatever the probes do, selection invokes nothing but probes. *)
Lemma tryNamed_journal (name : option jsstring) (w : World W) :
  exists evs, extends w (snd (Manager.tryNamed runner reg name w)) evs
              /\ probesOnly evs.
Proof.
  destruct name as [n|]; simpl;
    [|exists []; split; [apply extends_refl | constructor]].
  destruct (truthy n);
    [|exists []; split; [apply extends_refl | constructor]].
  destruct (Map.get reg n) as [tool|];
    [|exists []; split; [apply extends_refl | constructor]].
  exists [Invoked MIsInstalled]. split; [|repeat constructor].
  unfold bind, invoke, extends.
  destruct (isInstalled (runner tool) (ext w)) as [[b|e] x]; reflexivity.
Qed.

Lemma firstInstalled_journal (w : World W) :
  exists evs, extends w (snd (Manager.firstInstalled runner reg w)) evs
              /\ probesOnly evs.
Proof.
  revert w. induction reg as [|[n tool] rest IH]; intros w; simpl.
  - exists []; split; [apply extends_refl | constructor].
  - unfold bind at 1.
    destruct (invoke MIsInstalled (isInstalled (runner tool)) w)
      as [[b|e] w1] eqn:E.
    + assert (H1 : extends w w1 [Invoked MIsInstalled]).
      { replace w1 with (snd (invoke MIsInstalled
                                 (isInstalled (runner tool)) w))
          by now rewrite E.
        apply extends_invoke. }
      destruct b.
      * exists [Invoked MIsInstalled]; split; [exact H1|repeat constructor].
      * destruct (IH w1) as [evs [He Hp]].
        exists ([Invoked MIsInstalled] ++ evs). split.
        -- eapply extends_trans; eauto.
        -- constructor; auto.
    + exists [Invoked MIsInstalled]; split; [|repeat constructor].
      replace w1 with (snd (invoke MIsInstalled
                               (isInstalled (runner tool)) w))
        by now rewrite E.
      apply extends_invoke.
Qed.

Lemma selectTool_journal (preferred override : option jsstring)
      (w : World W) :
  exists evs,
    extends w (snd (Manager.selectTool runner
                      {| Manager.tools := reg;
                         Manager.preferredTool := preferred |}
                      override w)) evs
    /\ probesOnly evs.
Proof.
  unfold Manager.selectTool; simpl.
  destruct (tryNamed_journal override w) as [e1 [H1 P1]].
  unfold bind at 1.
  destruct (Manager.tryNamed runner reg override w) as [[[t1|]|x] w1];
    simpl in *; eauto.
  destruct (tryNamed_journal preferred w1) as [e2 [H2 P2]].
  unfold bind at 1.
  destruct (Manager.tryNamed runner reg preferred w1) as [[[t2|]|x] w2];
    simpl in *.
  - exists (e1 ++ e2); split;
      [eapply extends_trans; eauto | apply Forall_app; auto].
  - destruct (firstInstalled_journal w2) as [e3 [H3 P3]].
    exists ((e1 ++ e2) ++ e3); split.
    + eapply extends_trans; [eapply extends_trans|]; eauto.
    + repeat (apply Forall_app; split); auto.
  - exists (e1 ++ e2); split;
      [eapply extends_trans; eauto | apply Forall_app; auto].
Qed.
End SelectFacts.

Import SelectSpec.

(** C1 (amended).  For each of the three category managers, every registry,
    every installed-set describing it, every optional override and every
    optional configured preferred name, [selectTool] returns (it never
    throws) by this precedence: the override if it is a non-empty name that
    is registered and installed, else the configured preferred name if it is
    a non-empty name that is registered and installed, else the first
    registered adapter, in registration order, that is installed, else null.
    An empty-string override or preferred name counts as absent.  In
    particular an override that is not installed falls through to the next
    steps, and with neither override nor preferred name the result is the
    first installed adapter in registration order, else null. *)
Theorem selectTool_precedence :
  forall (W : Type) (c : Category) (reg : Map.t (ToolOf W c))
         (preferred override : option jsstring)
         (installed : jsstring -> bool) (w : World W),
    answers (runnerOf c) reg installed ->
    let mgr := {| Manager.tools := reg; Manager.preferredTool := preferred |} in
    fst (selectToolOf c mgr override w)
    = Returned (precedence reg installed (given override) (given preferred))
    /\ (forall n, installed n = false ->
          fst (selectToolOf c mgr (Some n) w)
          = Returned (precedence reg installed None (given preferred)))
    /\ (preferred = None ->
          fst (selectToolOf c mgr None w)
          = Returned (firstRegisteredInstalled reg installed)).
Proof.
  intros W c reg preferred override installed w Hans mgr.
  assert (Hsel : forall o,
             fst (selectToolOf c mgr o w)
             = Returned (precedence reg installed (given o) (given preferred))).
  { intros o. destruct c; apply selectTool_answers; exact Hans. }
  split; [apply Hsel|]. split.
  - intros n Hn. rewrite Hsel. f_equal.
    unfold precedence, given. destruct (truthy n); [|reflexivity].
    unfold registeredInstalled at 1.
    destruct (Map.get reg n); [rewrite Hn|]; reflexivity.
  - intros ->. rewrite Hsel. reflexivity.
Qed.

Lemma slangOnly_answers :
  answers (runnerOf Lint) Scripted.slangOnly Scripted.slangInstalled.
Proof.
  intros n tool [H|[H|[]]] x; injection H as <- <-; reflexivity.
Defined.

Lemma selectTool_precedence_witness :
  answers (runnerOf Lint) Scripted.slangOnly Scripted.slangInstalled
  /\ fst (selectToolOf Lint
            {| Manager.tools := Scripted.slangOnly;
               Manager.preferredTool := None |}
            (Some (js "verilator")) Scripted.w0)
     = Returned (Some (Scripted.linter true
                         (Returned (Scripted.clean (js "slang"))))).
Proof.
  split; [exact slangOnly_answers|].
  exact (proj1 (@selectTool_precedence unit Lint Scripted.slangOnly None
                  (Some (js "verilator")) Scripted.slangInstalled Scripted.w0
                  slangOnly_answers)).
Defined.

(** C1 as stated fails: with two installed adapters, the second registered
    under the empty name, an override naming the second (the empty string)
    is registered and installed, yet [selectTool] returns the first. *)
Lemma selectTool_empty_override_counterexample :
  answers (runnerOf Lint) Scripted.withEmptyName (fun _ => true)
  /\ fst (selectToolOf Lint
            {| Manager.tools := Scripted.withEmptyName;
               Manager.preferredTool := None |}
            (Some []) Scripted.w0)
     <> Returned (precedence Scripted.withEmptyName (fun _ => true)
                             (Some []) None).
Proof.
  split.
  - intros n tool [H|[H|[]]] x; injection H as <- <-; reflexivity.
  - vm_compute. intros H. injection H as H.
    apply (f_equal (fun f => fst (f [] tt))) in H. discriminate H.
Qed.

(** ** Manager operations *)

Section OperationFacts.
Variable W : Type.

Lemma selectTool_extends T (runner : T -> ToolRunner W)
      (mgr : Manager.t T) override (w w1 : World W) o :
  Manager.selectTool runner mgr override w = (o, w1) ->
  exists probes, w1.(journal) = w.(journal) ++ probes /\ probesOnly probes.
Proof.
  destruct mgr as [reg preferred]. intros E.
  destruct (selectTool_journal runner reg preferred override w)
    as [evs [He Hp]].
  rewrite E in He. exists evs. split; auto.
Qed.

(** An adapter whose [lint] throws anything but null/undefined: the
    manager returns the failure shape, with the thrown value's message (if
    it has one) as stderr. *)
Lemma lint_folds_exception (mgr : LintManager.t W) files override
      (w w1 : World W) tool e x :
  LintManager.selectTool mgr override w = (Returned (Some tool), w1) ->
  lint tool files w1.(ext) = (Threw e, x) ->
  e <> ThrownNullish ->
  fst (LintManager.lint mgr files override w)
  = Returned {| lintBase := failure (messageText e);
                warnings := []; lintErrors := [] |}.
Proof.
  intros Hsel Hl Hne. unfold LintManager.lint.
  unfold bind at 1. rewrite Hsel.
  unfold try_catch, invoke. rewrite Hl.
  destruct e; simpl; congruence.
Qed.

Lemma simulate_folds_compile_exception (mgr : SimulationManager.t W)
      files testbench args override (w w1 : World W) tool e x :
  SimulationManager.selectTool mgr override w = (Returned (Some tool), w1) ->
  compile tool files w1.(ext) = (Threw e, x) ->
  e <> ThrownNullish ->
  fst (SimulationManager.simulate mgr files testbench args override w)
  = Returned (SimulationManager.failed None (messageText e)).
Proof.
  intros Hsel Hc Hne. unfold SimulationManager.simulate.
  unfold bind at 1. rewrite Hsel.
  unfold try_catch, bind, invoke. rewrite Hc.
  destruct e; simpl; congruence.
Qed.

Lemma simulate_folds_simulate_exception (mgr : SimulationManager.t W)
      files testbench args override (w w1 : World W) tool cr x e x' :
  SimulationManager.selectTool mgr override w = (Returned (Some tool), w1) ->
  compile tool files w1.(ext) = (Returned cr, x) ->
  cr.(success) = true ->
  simulate tool testbench args x = (Threw e, x') ->
  e <> ThrownNullish ->
  fst (SimulationManager.simulate mgr files testbench args override w)
  = Returned (SimulationManager.failed None (messageText e)).
Proof.
  intros Hsel Hc Hok Hs Hne. unfold SimulationManager.simulate.
  unfold bind at 1. rewrite Hsel.
  unfold try_catch, bind, invoke. rewrite Hc. simpl. rewrite Hok. simpl.
  rewrite Hs. destruct e; simpl; congruence.
Qed.

Lemma synthesize_folds_exception (mgr : SynthesisManager.t W)
      design constraints override (w w1 : World W) tool e x :
  SynthesisManager.selectTool mgr override w = (Returned (Some tool), w1) ->
  synthesize tool design constraints w1.(ext) = (Threw e, x) ->
  e <> ThrownNullish ->
  fst (SynthesisManager.synthesize mgr design constraints override w)
  = Returned (SynthesisManager.failed (messageText e)).
Proof.
  intros Hsel Hs Hne. unfold SynthesisManager.synthesize.
  unfold bind at 1. rewrite Hsel.
  unfold try_catch, bind, invoke. rewrite Hs.
  destruct e; simpl; congruence.
Qed.
End OperationFacts.

(** What the handlers of the three operations do achieve.  For every
    manager, file list and override: when the selected adapter's category
    method ([lint]; [compile], or [simulate] after a successful [compile];
    [synthesize]) throws any value other than [null]/[undefined], the
    manager operation does not throw; it returns a result with
    [success: false] whose [stderr] is the thrown value's [message] (unset
    when the value carries none). *)
Theorem manager_operations_fold_exceptions :
  forall (W : Type) (files : list jsstring) (override : option jsstring)
         (w w1 : World W) (e : Thrown) (x : W),
    e <> ThrownNullish ->
    (forall (mgr : LintManager.t W) tool,
        LintManager.selectTool mgr override w = (Returned (Some tool), w1) ->
        lint tool files w1.(ext) = (Threw e, x) ->
        exists r, fst (LintManager.lint mgr files override w) = Returned r
                  /\ r.(success) = false /\ r.(stderr) = messageText e)
    /\ (forall (mgr : SimulationManager.t W) tool testbench args,
        SimulationManager.selectTool mgr override w
        = (Returned (Some tool), w1) ->
        (compile tool files w1.(ext) = (Threw e, x)
         \/ exists cr x0, compile tool files w1.(ext) = (Returned cr, x0)
                          /\ cr.(success) = true
                          /\ simulate tool testbench args x0 = (Threw e, x)) ->
        exists r, fst (SimulationManager.simulate mgr files testbench args
                         override w) = Returned r
                  /\ r.(success) = false /\ r.(stderr) = messageText e)
    /\ (forall (mgr : SynthesisManager.t W) tool constraints,
        SynthesisManager.selectTool mgr override w
        = (Returned (Some tool), w1) ->
        synthesize tool files constraints w1.(ext) = (Threw e, x) ->
        exists r, fst (SynthesisManager.synthesize mgr files constraints
                         override w) = Returned r
                  /\ r.(success) = false /\ r.(stderr) = messageText e).
Proof.
  intros W files override w w1 e x Hne. repeat split.
  - intros mgr tool Hsel Hl. eexists. split.
    + eapply lint_folds_exception; eauto.
    + split; reflexivity.
  - intros mgr tool testbench args Hsel [Hc | (cr & x0 & Hc & Hok & Hs)];
      eexists.
    + split; [eapply simulate_folds_compile_exception; eauto|].
      split; reflexivity.
    + split; [eapply simulate_folds_simulate_exception; eauto|].
      split; reflexivity.
  - intros mgr tool constraints Hsel Hs. eexists. split.
    + eapply synthesize_folds_exception; eauto.
    + split; reflexivity.
Qed.

Lemma manager_operations_fold_exceptions_witness :
  Scripted.eacces <> ThrownNullish
  /\ exists r,
      fst (LintManager.lint Scripted.brokenLintManager [js "top.v"] None
                            Scripted.w0) = Returned r
      /\ r.(success) = false /\ r.(stderr) = Some (js "spawn EACCES").
Proof.
  assert (Hne : Scripted.eacces <> ThrownNullish) by discriminate.
  split; [exact Hne|].
  exact (proj1 (@manager_operations_fold_exceptions unit [js "top.v"] None
                  Scripted.w0
                  {| ext := tt; journal := [Invoked MIsInstalled] |}
                  Scripted.eacces tt Hne)
               Scripted.brokenLintManager Scripted.brokenLinter
               eq_refl eq_refl).
Defined.

(** C2 (the code falls short of the claim).  The claim: whatever the
    adapter's category method throws, [lint], [simulate] and [synthesize]
    return a result with [success: false] and never throw.  The handlers
    are there to do that, and miss one case: when the method rejects with
    [undefined] (or [null]), the handler's own read of [error.message]
    raises a [TypeError], and that leaves each of the three operations. *)
Theorem manager_operations_rethrow_on_nullish :
  fst (LintManager.lint
         {| Manager.tools :=
              [(js "verilator", Scripted.linter true (Threw ThrownNullish))];
            Manager.preferredTool := None |}
         [js "top.v"] None Scripted.w0)
  = Threw nullishPropertyRead
  /\ fst (SimulationManager.simulate
            {| Manager.tools :=
                 [(js "iverilog",
                   Scripted.simulator true (Threw ThrownNullish)
                                      (Threw ThrownNullish))];
               Manager.preferredTool := None |}
            [js "top.v"] (js "tb.v") None None Scripted.w0)
     = Threw nullishPropertyRead
  /\ fst (SynthesisManager.synthesize
            {| Manager.tools :=
                 [(js "yosys",
                   Scripted.synthesizer true (Threw ThrownNullish)
                     (Returned Scripted.someTiming)
                     (Returned Scripted.somePpa))];
               Manager.preferredTool := None |}
            [js "top.v"] (js "top.sdc") None Scripted.w0)
     = Threw nullishPropertyRead.
Proof. repeat split. Qed.

(** C3.  Whatever simulation adapter was selected: if its [compile] returns
    [success: false], the manager's [simulate] returns at once a failure
    result carrying the compile step's [errors] and [stderr]; the journal
    gains the selection's probes and the one [compile] invocation, and no
    invocation of the adapter's [simulate]. *)
Theorem simulate_stops_at_failed_compile :
  forall (W : Type) (mgr : SimulationManager.t W) (files : list jsstring)
         (testbench : jsstring) (args : option (list jsstring))
         (override : option jsstring) (w w1 : World W)
         (tool : SimulationTool W) (cr : CompileResult) (x : W),
    SimulationManager.selectTool mgr override w = (Returned (Some tool), w1) ->
    compile tool files w1.(ext) = (Returned cr, x) ->
    cr.(success) = false ->
    exists probes,
      probesOnly probes
      /\ SimulationManager.simulate mgr files testbench args override w
         = (Returned {| simBase := {| success := false; stdout := None;
                                      stderr := cr.(stderr);
                                      exitCode := None;
                                      errors := cr.(errors) |};
                        passed := false; coverage := None;
                        waveform := None |},
            {| ext := x;
               journal := w.(journal) ++ probes ++ [Invoked MCompile] |})
      /\ invoked MSimulate (probes ++ [Invoked MCompile]) = false.
Proof.
  intros W mgr files testbench args override w w1 tool cr x Hsel Hc Hfail.
  destruct (selectTool_extends _ _ _ _ Hsel) as [probes [Hj Hp]].
  exists probes. split; [exact Hp|]. split.
  - unfold SimulationManager.simulate.
    unfold bind at 1.
    change (Manager.selectTool (@simRunner W) mgr override w)
      with (SimulationManager.selectTool mgr override w).
    rewrite Hsel.
    unfold try_catch, bind, invoke. rewrite Hc. simpl. rewrite Hfail. simpl.
    unfold ret, SimulationManager.failed. rewrite Hj, app_assoc. reflexivity.
  - unfold invoked. rewrite existsb_app. simpl.
    rewrite orb_false_r. apply not_true_is_false. intros Hex.
    apply existsb_exists in Hex as [ev [Hin Hev]].
    unfold probesOnly in Hp. rewrite Forall_forall in Hp.
    rewrite (Hp _ Hin) in Hev. discriminate.
Qed.

Lemma simulate_stops_at_failed_compile_witness :
  exists probes,
    probesOnly probes
    /\ SimulationManager.simulate
         {| Manager.tools :=
              [(js "iverilog",
                Scripted.simulator true (Returned Scripted.compileFailed)
                                   (Threw ThrownOther))];
            Manager.preferredTool := None |}
         [js "top.v"] (js "tb.v") None None Scripted.w0
       = (Returned {| simBase := {| success := false; stdout := None;
                                    stderr := Some (js "syntax error");
                                    exitCode := None;
                                    errors := Some [js "Command failed"] |};
                      passed := false; coverage := None; waveform := None |},
          {| ext := tt; journal := [] ++ probes ++ [Invoked MCompile] |})
    /\ invoked MSimulate (probes ++ [Invoked MCompile]) = false.
Proof.
  exact (@simulate_stops_at_failed_compile unit
           {| Manager.tools :=
                [(js "iverilog",
                  Scripted.simulator true (Returned Scripted.compileFailed)
                                     (Threw ThrownOther))];
              Manager.preferredTool := None |}
           [js "top.v"] (js "tb.v") None None Scripted.w0
           {| ext := tt; journal := [Invoked MIsInstalled] |}
           (Scripted.simulator true (Returned Scripted.compileFailed)
                               (Threw ThrownOther))
           Scripted.compileFailed tt eq_refl eq_refl eq_refl).
Defined.

(** C5 (amended).  For every [synthesize] call whose core step returns
    [success: true] with a (non-empty) netlist: if [analyzeTiming] throws,
    the manager warns and returns the core result untouched, without
    attempting [estimatePPA], so [timing] and [ppa] keep whatever the core
    step returned (unset unless the adapter itself had filled them); if
    [analyzeTiming] returns and [estimatePPA] throws, the manager warns and
    the result is the core result with [timing] set to the analysis and
    [ppa] as the core step returned it.  Either way [success] is [true] and
    no exception reaches the caller. *)
Theorem synthesize_enrichment_failure_nonfatal :
  forall (W : Type) (mgr : SynthesisManager.t W) (design : list jsstring)
         (constraints : jsstring) (override : option jsstring)
         (w w1 : World W) (tool : SynthesisTool W) (core : SynthesisResult)
         (net : jsstring) (x : W),
    SynthesisManager.selectTool mgr override w = (Returned (Some tool), w1) ->
    synthesize tool design constraints w1.(ext) = (Returned core, x) ->
    core.(success) = true ->
    core.(netlist) = Some net ->
    truthy net = true ->
    (forall e x1,
        analyzeTiming tool net x = (Threw e, x1) ->
        exists r,
          fst (SynthesisManager.synthesize mgr design constraints override w)
          = Returned r
          /\ r = core
          /\ r.(success) = true
          /\ r.(timing) = core.(timing) /\ r.(ppa) = core.(ppa)
          /\ journal (snd (SynthesisManager.synthesize mgr design constraints
                             override w))
             = w1.(journal)
               ++ [Invoked MSynthesize; Invoked MAnalyzeTiming; Warned])
    /\ (forall tm x1 e x2,
        analyzeTiming tool net x = (Returned tm, x1) ->
        estimatePPA tool net x1 = (Threw e, x2) ->
        exists r,
          fst (SynthesisManager.synthesize mgr design constraints override w)
          = Returned r
          /\ r.(success) = true
          /\ r.(timing) = Some tm /\ r.(ppa) = core.(ppa)
          /\ journal (snd (SynthesisManager.synthesize mgr design constraints
                             override w))
             = w1.(journal)
               ++ [Invoked MSynthesize; Invoked MAnalyzeTiming;
                   Invoked MEstimatePPA; Warned]).
Proof.
  intros W mgr design constraints override w w1 tool core net x
         Hsel Hs Hok Hnet Htruthy.
  assert (Hstart :
            SynthesisManager.synthesize mgr design constraints override w
            = try_catch
                (match core.(netlist) with
                 | Some n =>
                     if core.(success) && truthy n
                     then SynthesisManager.enrich tool core n
                     else ret core
                 | None => ret core
                 end)
                (fun error =>
                   msg <- message_of error ;;
                   ret (SynthesisManager.failed msg))
                {| ext := x;
                   journal := w1.(journal) ++ [Invoked MSynthesize] |}).
  { unfold SynthesisManager.synthesize.
    unfold bind at 1.
    change (Manager.selectTool (@synthRunner W) mgr override w)
      with (SynthesisManager.selectTool mgr override w).
    rewrite Hsel.
    unfold try_catch, bind, invoke. rewrite Hs. reflexivity. }
  rewrite Hstart, Hnet, Hok, Htruthy. simpl.
  unfold SynthesisManager.enrich. split.
  - intros e x1 Ht. exists core.
    unfold try_catch, bind, invoke. simpl. rewrite Ht. simpl.
    rewrite <- !app_assoc. simpl. auto 6.
  - intros tm x1 e x2 Ht Hp. exists (SynthesisManager.setTiming core tm).
    unfold try_catch, bind, invoke. simpl. rewrite Ht. simpl.
    rewrite Hp. simpl. rewrite Hok, <- !app_assoc. simpl. auto 6.
Qed.

Lemma synthesize_enrichment_failure_nonfatal_witness :
  exists r,
    fst (SynthesisManager.synthesize
           (Scripted.yosysOnly Scripted.noTimingSynthesizer)
           [js "top.v"] (js "top.sdc") None Scripted.w0) = Returned r
    /\ r = Scripted.synthesized None
    /\ r.(success) = true /\ r.(timing) = None /\ r.(ppa) = None
    /\ journal (snd (SynthesisManager.synthesize
                       (Scripted.yosysOnly Scripted.noTimingSynthesizer)
                       [js "top.v"] (js "top.sdc") None Scripted.w0))
       = [Invoked MIsInstalled; Invoked MSynthesize;
          Invoked MAnalyzeTiming; Warned].
Proof.
  exact (proj1 (@synthesize_enrichment_failure_nonfatal unit
                  (Scripted.yosysOnly Scripted.noTimingSynthesizer)
                  [js "top.v"] (js "top.sdc") None Scripted.w0
                  {| ext := tt; journal := [Invoked MIsInstalled] |}
                  Scripted.noTimingSynthesizer (Scripted.synthesized None)
                  (js "design.v") tt
                  eq_refl eq_refl eq_refl eq_refl eq_refl)
               Scripted.eacces tt eq_refl).
Defined.

(** C5 as stated fails: the core step returns [success: true] with a
    netlist and with [timing] already filled, [analyzeTiming] throws, and
    the final result still carries that [timing]: the field is left as it
    was, not unset. *)
Lemma synthesize_preset_timing_counterexample :
  synthesize Scripted.presetSynthesizer [js "top.v"] (js "top.sdc") tt
  = (Returned (Scripted.synthesized (Some Scripted.someTiming)), tt)
  /\ analyzeTiming Scripted.presetSynthesizer (js "design.v") tt
     = (Threw Scripted.eacces, tt)
  /\ exists r,
      fst (SynthesisManager.synthesize
             (Scripted.yosysOnly Scripted.presetSynthesizer)
             [js "top.v"] (js "top.sdc") None Scripted.w0) = Returned r
      /\ r.(success) = true
      /\ r.(timing) = Some Scripted.someTiming
      /\ r.(timing) <> None.
Proof.
  split; [reflexivity|]. split; [reflexivity|].
  eexists. split; [reflexivity|]. split; [reflexivity|].
  split; [reflexivity|discriminate].
Qed.

(** C6.  For every lint manager none of whose registered adapters is
    installed (in particular one with an empty registry), every file list
    and every override, [lint] does not throw and returns
    [{ success: false, warnings: [], lintErrors: [],
       stderr: "No lint tool available" }]
    ([lintErrors] is the list of error diagnostics, the specification's
    [errors]; no other field is set), without invoking any adapter's
    [lint]. *)
Theorem lint_no_tool_available :
  forall (W : Type) (reg : Map.t (LintTool W)) (preferred : option jsstring)
         (files : list jsstring) (override : option jsstring) (w : World W),
    answers (@lintRunner W) reg (fun _ => false) ->
    let mgr := {| Manager.tools := reg; Manager.preferredTool := preferred |} in
    fst (LintManager.lint mgr files override w)
    = Returned {| lintBase := {| success := false; stdout := None;
                                 stderr := Some (js "No lint tool available");
                                 exitCode := None; errors := None |};
                  warnings := []; lintErrors := [] |}
    /\ invoked MLint (journal (snd (LintManager.lint mgr files override w)))
       = invoked MLint (journal w).
Proof.
  intros W reg preferred files override w Hans mgr.
  pose proof (@selectTool_answers _ _ _ _ _ preferred override w Hans)
    as Hsel.
  assert (Hnone : precedence reg (fun _ => false) (given override)
                             (given preferred) = None).
  { unfold precedence, registeredInstalled.
    destruct (given override) as [n|]; [destruct (Map.get reg n)|];
      (destruct (given preferred) as [n'|]; [destruct (Map.get reg n')|]);
      clear; induction reg as [|[k v] rest IH]; simpl; auto. }
  rewrite Hnone in Hsel.
  unfold LintManager.lint, LintManager.selectTool. fold mgr in Hsel.
  destruct (selectTool_extends _ _ _ _
              (surjective_pairing
                 (Manager.selectTool (@lintRunner W) mgr override w)))
    as [probes [Hj Hp]].
  rewrite (bind_returned _ _ _ Hsel). simpl. split; [reflexivity|].
  rewrite Hj. unfold invoked. rewrite existsb_app.
  replace (existsb _ probes) with false; [apply orb_false_r|].
  symmetry. apply not_true_is_false. intros Hex.
  apply existsb_exists in Hex as [ev [Hin Hev]].
  unfold probesOnly in Hp. rewrite Forall_forall in Hp.
  rewrite (Hp _ Hin) in Hev. discriminate.
Qed.

Lemma lint_no_tool_available_witness :
  answers (@lintRunner unit) (Map.empty (LintTool unit)) (fun _ => false)
  /\ fst (LintManager.lint (Manager.create (LintTool unit))
                           [js "top.v"] None Scripted.w0)
     = Returned {| lintBase := {| success := false; stdout := None;
                                  stderr := Some (js "No lint tool available");
                                  exitCode := None; errors := None |};
                   warnings := []; lintErrors := [] |}.
Proof.
  assert (H : answers (@lintRunner unit) (Map.empty (LintTool unit))
                      (fun _ => false))
    by (intros n tool []).
  split; [exact H|].
  exact (proj1 (@lint_no_tool_available unit (Map.empty (LintTool unit)) None
                  [js "top.v"] None Scripted.w0 H)).
Defined.

(** ** Pass/fail detection *)

Lemma returnOnMatch_existsb (v : bool) (ps : list pattern) (o : jsstring) :
  returnOnMatch v ps o
  = if existsb (fun p => test p o) ps then Some v else None.
Proof.
  induction ps as [|p ps IH]; simpl; [reflexivity|].
  destruct (test p o); simpl; auto.
Qed.

Lemma checkPatterns_no_failure (fs ps : list pattern) (o : jsstring) :
  checkPatterns fs ps o = noFailureMatches fs o.
Proof.
  unfold checkPatterns, noFailureMatches.
  rewrite !returnOnMatch_existsb.
  destruct (existsb _ fs); simpl; [reflexivity|].
  destruct (existsb _ ps); reflexivity.
Qed.

Lemma checkSimulationPassedOf_unfold (a : SimAdapter) (o : jsstring) :
  checkSimulationPassedOf a o
  = checkPatterns (failPatternsOf a) (passPatternsOf a) o.
Proof. destruct a; reflexivity. Qed.

(** C4.  For both simulation adapters and every output that matches at
    least one failure pattern, [checkSimulationPassed] returns [false],
    whatever pass patterns the same output also matches. *)
Theorem failure_pattern_takes_precedence :
  forall (a : SimAdapter) (output : jsstring),
    (exists p, In p (failPatternsOf a) /\ test p output = true) ->
    checkSimulationPassedOf a output = false.
Proof.
  intros a output Hfail.
  rewrite checkSimulationPassedOf_unfold, checkPatterns_no_failure.
  unfold noFailureMatches.
  replace (existsb (fun p => test p output) (failPatternsOf a)) with true;
    [reflexivity|].
  symmetry. apply existsb_exists. exact Hfail.
Qed.

Lemma failure_pattern_takes_precedence_witness :
  test (ci "all tests passed")
       (js "All tests passed. ERROR: scoreboard mismatch") = true
  /\ (exists p, In p (failPatternsOf Icarus)
                /\ test p (js "All tests passed. ERROR: scoreboard mismatch")
                   = true)
  /\ checkSimulationPassedOf Icarus
       (js "All tests passed. ERROR: scoreboard mismatch") = false.
Proof.
  assert (H : exists p, In p (failPatternsOf Icarus)
                /\ test p (js "All tests passed. ERROR: scoreboard mismatch")
                   = true).
  { exists (ci "error:"). split; [right; left; reflexivity | reflexivity]. }
  split; [reflexivity|]. split; [exact H|].
  exact (failure_pattern_takes_precedence Icarus _ H).
Defined.

(** C9.  For both simulation adapters and every output,
    [checkSimulationPassed] is the function "no failure pattern matches":
    it returns [false] exactly when some failure pattern matches, and
    replacing the pass-pattern list by any other list changes nothing. *)
Theorem checkSimulationPassed_ignores_pass_patterns :
  forall (a : SimAdapter) (output : jsstring),
    checkSimulationPassedOf a output
    = noFailureMatches (failPatternsOf a) output
    /\ (checkSimulationPassedOf a output = false
        <-> exists p, In p (failPatternsOf a) /\ test p output = true)
    /\ (forall passPatterns : list pattern,
          checkPatterns (failPatternsOf a) passPatterns output
          = checkSimulationPassedOf a output).
Proof.
  intros a output.
  rewrite checkSimulationPassedOf_unfold, checkPatterns_no_failure.
  split; [reflexivity|]. split.
  - unfold noFailureMatches. rewrite negb_false_iff. apply existsb_exists.
  - intros ps. apply checkPatterns_no_failure.
Qed.

(** ** Lint output grammars *)

Lemma parseLintOutputOf_unfold (a : LintAdapter) (result : ToolResult) :
  parseLintOutputOf a result
  = lintResultOf result (parseLinesOf a (outputLines result) [] []).
Proof. destruct a; reflexivity. Qed.

(** A line the adapter's pattern does not match leaves both arrays as
    they were. *)
Lemma parseLines_skip (a : LintAdapter) (ln : jsstring)
      (rest : list jsstring) (warns errs : list LintMessage) :
  exec (linePatternOf a) ln = None ->
  parseLinesOf a (ln :: rest) warns errs = parseLinesOf a rest warns errs.
Proof. intros H. destruct a; simpl in *; rewrite H; reflexivity. Qed.

Lemma parseLines_all_skipped (a : LintAdapter) (lines : list jsstring)
      (warns errs : list LintMessage) :
  Forall (fun ln => exec (linePatternOf a) ln = None) lines ->
  parseLinesOf a lines warns errs = (warns, errs).
Proof.
  induction 1 as [|ln rest Hln _ IH].
  - destruct a; reflexivity.
  - rewrite parseLines_skip by assumption. exact IH.
Qed.

(** The loop keeps error-severity diagnostics out of [warnings] and puts
    nothing else into [lintErrors]. *)
Lemma parseLines_severities (a : LintAdapter) (lines : list jsstring) :
  forall warns errs,
    forallb (fun d => negb (isErrorSeverity d)) warns = true ->
    forallb isErrorSeverity errs = true ->
    forallb (fun d => negb (isErrorSeverity d))
            (fst (parseLinesOf a lines warns errs)) = true
    /\ forallb isErrorSeverity (snd (parseLinesOf a lines warns errs)) = true.
Proof.
  induction lines as [|ln rest IH]; intros warns errs Hw He.
  - destruct a; simpl; auto.
  - destruct (exec (linePatternOf a) ln) as [m|] eqn:E.
    + destruct a; simpl in *; rewrite E.
      * destruct (str_eqb (cap 1 m) (js "Warning"));
          apply (IH); auto; rewrite forallb_app; simpl;
            (rewrite Hw || rewrite He); reflexivity.
      * destruct (str_eqb (cap 4 m) (js "error"));
          apply (IH); auto; rewrite forallb_app; simpl;
            (rewrite Hw || rewrite He); auto.
        destruct (str_eqb (cap 4 m) (js "warning")); reflexivity.
      * destruct (includes (js "error") (toLowerCase (cap 4 m)));
          apply (IH); auto; rewrite forallb_app; simpl;
            (rewrite Hw || rewrite He); reflexivity.
    + rewrite parseLines_skip by assumption. apply (IH); auto.
Qed.

Lemma filter_none {A} (f : A -> bool) (l : list A) :
  forallb (fun d => negb (f d)) l = true -> filter f l = [].
Proof.
  induction l as [|d l IH]; simpl; [reflexivity|].
  intros H. apply andb_true_iff in H as [Hd Hl].
  apply negb_true_iff in Hd. rewrite Hd. auto.
Qed.

Lemma filter_all {A} (f : A -> bool) (l : list A) :
  forallb f l = true -> filter f l = l.
Proof.
  induction l as [|d l IH]; simpl; [reflexivity|].
  intros H. apply andb_true_iff in H as [Hd Hl].
  rewrite Hd. f_equal. auto.
Qed.

Lemma errorCount_lintErrors (a : LintAdapter) (result : ToolResult) :
  errorCount (parseLintOutputOf a result)
  = length (lintErrors (parseLintOutputOf a result)).
Proof.
  rewrite parseLintOutputOf_unfold. unfold errorCount, lintResultOf.
  destruct (parseLines_severities a (outputLines result) [] []
              eq_refl eq_refl) as [Hw He].
  destruct (parseLinesOf a (outputLines result) [] []) as [ws es];
    simpl in *.
  rewrite filter_app, (filter_none _ _ Hw), (filter_all _ _ He).
  reflexivity.
Qed.

(** C7.  The Verilator line [%Warning-WIDTH: top.v:10:5: message text]
    parses to exactly one diagnostic, the warning
    [{file: "top.v", line: 10, column: 5, severity: "warning",
      code: "WIDTH", message: "message text"}],
    whatever the exit status of the run; and a line that the adapter's
    grammar does not match adds no diagnostic, so output without a matching
    line yields none at all. *)
Theorem verilator_line_grammar :
  (forall (ok : bool) (status : option N) (errs : option (list jsstring)),
      let r := VerilatorLint.parseLintOutput
                 {| success := ok;
                    stdout := Some (js "%Warning-WIDTH: top.v:10:5: message text");
                    stderr := None; exitCode := status; errors := errs |} in
      r.(warnings)
      = [{| file := js "top.v"; line := Int 10; column := Some (Int 5);
            code := js "WIDTH"; message := js "message text";
            severity := SevWarning |}]
      /\ r.(lintErrors) = [])
  /\ (forall (a : LintAdapter) (ln : jsstring) (rest : list jsstring)
             (warns errs : list LintMessage),
         exec (linePatternOf a) ln = None ->
         parseLinesOf a (ln :: rest) warns errs
         = parseLinesOf a rest warns errs)
  /\ (forall (a : LintAdapter) (result : ToolResult),
         Forall (fun ln => exec (linePatternOf a) ln = None)
                (outputLines result) ->
         (parseLintOutputOf a result).(warnings) = []
         /\ (parseLintOutputOf a result).(lintErrors) = []).
Proof.
  split; [|split].
  - intros ok status errs. vm_compute. split; reflexivity.
  - exact parseLines_skip.
  - intros a result Hall. rewrite parseLintOutputOf_unfold.
    rewrite parseLines_all_skipped by assumption. split; reflexivity.
Qed.

Lemma verilator_line_grammar_witness :
  exec (linePatternOf Verilator) (js "make: *** [all] Error 2") = None
  /\ Forall (fun ln => exec (linePatternOf Verilator) ln = None)
            (outputLines (failure (Some (js "make: *** [all] Error 2"))))
  /\ parseLinesOf Verilator [js "make: *** [all] Error 2"] [] [] = ([], [])
  /\ (parseLintOutputOf Verilator
        (failure (Some (js "make: *** [all] Error 2")))).(warnings) = []
  /\ (parseLintOutputOf Verilator
        (failure (Some (js "make: *** [all] Error 2")))).(lintErrors) = [].
Proof.
  assert (H1 : exec (linePatternOf Verilator)
                    (js "make: *** [all] Error 2") = None) by reflexivity.
  assert (H2 : Forall (fun ln => exec (linePatternOf Verilator) ln = None)
                 (outputLines (failure (Some (js "make: *** [all] Error 2")))))
    by (repeat constructor).
  split; [exact H1|]. split; [exact H2|]. split.
  - exact (proj1 (proj2 verilator_line_grammar) Verilator _ [] [] [] H1).
  - exact (proj2 (proj2 verilator_line_grammar) Verilator _ H2).
Defined.

Lemma lintOf_unfold {Env : Type} (a : LintAdapter)
      (execAsync : jsstring -> ExecOptions -> Env -> ExecOutcome * Env)
      (fs : list jsstring) (e : Env) :
  exists cmd opts,
    lintOf a execAsync fs e
    = (Returned (parseLintOutputOf a
                   (runResult (match a with
                               | Verilator => errsMessage
                               | Slang | Verible => errsStderr
                               end)
                              (fst (execAsync cmd opts e)))),
       snd (execAsync cmd opts e)).
Proof.
  destruct a; simpl;
    [unfold VerilatorLint.lint, VerilatorLint.run
    |unfold SlangLint.lint, SlangLint.run
    |unfold VeribleLint.lint, VeribleLint.run];
    match goal with
    | |- context [execAsync ?c ?o e] =>
        exists c, o; destruct (execAsync c o e); reflexivity
    end.
Qed.

(** The error array grows by one for each line read as an error, and by
    nothing else. *)
Lemma parseLines_error_lines (a : LintAdapter) (lines : list jsstring) :
  forall warns errs,
    length (snd (parseLinesOf a lines warns errs))
    = length errs + length (filter (isErrorLine a) lines).
Proof.
  induction lines as [|ln rest IH]; intros warns errs.
  - destruct a; simpl; lia.
  - unfold isErrorLine at 1. simpl filter. fold (isErrorLine a).
    destruct (exec (linePatternOf a) ln) as [m|] eqn:E.
    + destruct a; simpl in E |- *; rewrite E;
        match goal with
        | |- context [if ?c then _ else _] => destruct c
        end; simpl; rewrite IH; rewrite ?length_app; simpl; lia.
    + rewrite parseLines_skip by assumption. rewrite IH. simpl. lia.
Qed.

Lemma filter_empty_existsb {A : Type} (f : A -> bool) (l : list A) :
  Nat.eqb (length (filter f l)) 0 = negb (existsb f l).
Proof.
  induction l as [|x l IH]; simpl; [reflexivity|].
  destruct (f x); simpl; [reflexivity | exact IH].
Qed.

(** C10.  For each of the three lint adapters and every raw process
    result: the [success] of the [LintResult] is [true] exactly when no
    error-severity diagnostic was parsed; the [LintResult] depends on the
    captured output only, not on the process's [success], exit code or
    [errors]; and when the process exits non-zero with output none of whose
    lines matches the adapter's grammar, [lint] returns [success: true] with
    empty [warnings] and empty [lintErrors].  Against the raw output:
    [lintErrors] holds one diagnostic for each line of [stdout + stderr]
    that the adapter reads as an error, so [success] is [false] exactly
    when the output has such a line. *)
Theorem lint_success_iff_no_error_diagnostics :
  forall a : LintAdapter,
    (forall result : ToolResult,
        (parseLintOutputOf a result).(success) = true
        <-> errorCount (parseLintOutputOf a result) = 0)
    /\ (forall r1 r2 : ToolResult,
           r1.(stdout) = r2.(stdout) -> r1.(stderr) = r2.(stderr) ->
           parseLintOutputOf a r1 = parseLintOutputOf a r2)
    /\ (forall (Env : Type)
               (execAsync : jsstring -> ExecOptions -> Env -> ExecOutcome * Env)
               (fs : list jsstring) (e : Env) (error : ExecError),
           (forall cmd opts, fst (execAsync cmd opts e) = ExecFailed error) ->
           Forall (fun ln => exec (linePatternOf a) ln = None)
                  (split 10 (or_else error.(err_stdout) []
                             ++ or_else error.(err_stderr) [])) ->
           exists r,
             fst (lintOf a execAsync fs e) = Returned r
             /\ r.(success) = true
             /\ r.(warnings) = [] /\ r.(lintErrors) = [])
    /\ (forall result : ToolResult,
           length (parseLintOutputOf a result).(lintErrors)
           = length (filter (isErrorLine a) (outputLines result))
           /\ (parseLintOutputOf a result).(success)
              = negb (existsb (isErrorLine a) (outputLines result))
           /\ (forall ln, In ln (outputLines result) ->
                          isErrorLine a ln = true ->
                          (parseLintOutputOf a result).(success) = false)).
Proof.
  intros a. split; [|split; [|split]].
  - intros result. rewrite errorCount_lintErrors.
    rewrite parseLintOutputOf_unfold. unfold lintResultOf.
    destruct (parseLinesOf a (outputLines result) [] []) as [ws es]; simpl.
    apply Nat.eqb_eq.
  - intros r1 r2 Ho He. rewrite !parseLintOutputOf_unfold.
    unfold lintResultOf, outputLines. rewrite Ho, He. reflexivity.
  - intros Env execAsync fs e error Hfail Hskip.
    destruct (lintOf_unfold a execAsync fs e) as (cmd & opts & ->).
    simpl. rewrite Hfail. eexists. split; [reflexivity|].
    rewrite parseLintOutputOf_unfold.
    unfold outputLines, runResult. simpl.
    assert (Htr : forall s : jsstring,
               (if truthy s then s else []) = s)
      by (intros [|c s]; reflexivity).
    rewrite !Htr, parseLines_all_skipped by assumption.
    repeat split.
  - intros result.
    assert (Hlen : length (parseLintOutputOf a result).(lintErrors)
                   = length (filter (isErrorLine a) (outputLines result))).
    { rewrite parseLintOutputOf_unfold. unfold lintResultOf.
      pose proof (parseLines_error_lines a (outputLines result) [] []) as H.
      destruct (parseLinesOf a (outputLines result) [] []) as [ws es].
      simpl in *. exact H. }
    assert (Hsucc : (parseLintOutputOf a result).(success)
                    = negb (existsb (isErrorLine a) (outputLines result))).
    { rewrite <- filter_empty_existsb, <- Hlen.
      rewrite parseLintOutputOf_unfold. unfold lintResultOf.
      destruct (parseLinesOf a (outputLines result) [] []) as [ws es].
      reflexivity. }
    split; [exact Hlen|]. split; [exact Hsucc|].
    intros ln Hin Hln. rewrite Hsucc.
    assert (He : existsb (isErrorLine a) (outputLines result) = true)
      by (apply existsb_exists; exists ln; auto).
    now rewrite He.
Qed.

Lemma lint_success_iff_no_error_diagnostics_witness :
  (forall cmd opts,
      fst (Scripted.failing (js "sh: 1: slang: not found") cmd opts tt)
      = ExecFailed {| err_stdout := Some [];
                      err_stderr := Some (js "sh: 1: slang: not found");
                      err_code := Some 1%N;
                      err_message := js "Command failed" |})
  /\ (exists r,
      fst (lintOf Slang (Scripted.failing (js "sh: 1: slang: not found"))
                  [js "top.sv"] tt) = Returned r
      /\ r.(success) = true /\ r.(warnings) = [] /\ r.(lintErrors) = [])
  /\ (let result :=
        {| success := true; stdout := Some (js "checking top.sv");
           stderr := Some (js "top.sv:3:7: error: undeclared identifier");
           exitCode := Some 0%N; errors := None |} in
      In (js "checking top.svtop.sv:3:7: error: undeclared identifier")
         (outputLines result)
      /\ isErrorLine Slang
           (js "checking top.svtop.sv:3:7: error: undeclared identifier")
         = true
      /\ (parseLintOutputOf Slang result).(success) = false).
Proof.
  assert (H1 : forall cmd opts,
             fst (Scripted.failing (js "sh: 1: slang: not found") cmd opts tt)
             = ExecFailed {| err_stdout := Some [];
                             err_stderr := Some (js "sh: 1: slang: not found");
                             err_code := Some 1%N;
                             err_message := js "Command failed" |})
    by reflexivity.
  split; [exact H1|]. split.
  - refine (proj1 (proj2 (proj2 (lint_success_iff_no_error_diagnostics Slang)))
                  unit _ [js "top.sv"] tt _ H1 _).
    repeat constructor.
  - intros result.
    assert (Hin : In (js "checking top.svtop.sv:3:7: error: undeclared identifier")
                     (outputLines result)) by (left; reflexivity).
    assert (Hln : isErrorLine Slang
                    (js "checking top.svtop.sv:3:7: error: undeclared identifier")
                  = true) by (vm_compute; reflexivity).
    split; [exact Hin|]. split; [exact Hln|].
    exact (proj2 (proj2 (proj2 (proj2 (proj2
             (lint_success_iff_no_error_diagnostics Slang))) result))
             _ Hin Hln).
Defined.

(** ** The Icarus adapter's compile/simulate pair *)

(** C8.  [IcarusSim.compile] sets the instance's [executable] to ['a.out']
    before it spawns anything, and never throws; so after any [compile] on
    an instance, one that returned [success: false] included, [simulate] on
    that instance does not answer with the "Design not compiled" guard
    result but spawns [vvp a.out ...] and answers from that process.  The
    guard result is what [simulate] answers on an instance on which
    [compile] was never called. *)
Theorem icarus_compile_arms_simulate :
  forall (Env : Type)
         (execAsync : jsstring -> ExecOptions -> Env -> ExecOutcome * Env)
         (this : IcarusSim.t) (e : Env) (fs : list jsstring),
    (exists cr e1,
        IcarusSim.compile execAsync fs (this, e)
        = (Returned cr, ({| IcarusSim.this_executable := Some (js "a.out") |}, e1))
        /\ cr.(success)
           = match fst (execAsync
                          (js "iverilog " ++ join (js " ") (js "-o" :: js "a.out" :: fs))
                          (WithEnv None) e) with
             | ExecOk _ _ => true
             | ExecFailed _ => false
             end
        /\ forall testbench args,
            IcarusSim.simulate execAsync testbench args
              ({| IcarusSim.this_executable := Some (js "a.out") |}, e1)
            = (fst (IcarusSim.runExecutable execAsync (js "a.out") args e1),
               ({| IcarusSim.this_executable := Some (js "a.out") |},
                snd (IcarusSim.runExecutable execAsync (js "a.out") args e1)))
            /\ fst (IcarusSim.simulate execAsync testbench args
                      ({| IcarusSim.this_executable := Some (js "a.out") |}, e1))
               <> Returned IcarusSim.notCompiled
            /\ (let spawned :=
                  execAsync (js "vvp a.out "
                             ++ join (js " ") (match args with
                                               | Some a => a
                                               | None => []
                                               end))
                            (WithTimeout 60000) e1 in
                IcarusSim.simulate execAsync testbench args
                  ({| IcarusSim.this_executable := Some (js "a.out") |}, e1)
                = (Returned
                     match fst spawned with
                     | ExecOk out err =>
                         {| simBase := {| success := true; stdout := Some out;
                                          stderr := Some err; exitCode := None;
                                          errors := None |};
                            passed := IcarusSim.checkSimulationPassed out;
                            coverage := None;
                            waveform := Some (js "dump.vcd") |}
                     | ExecFailed error =>
                         {| simBase :=
                              {| success := false;
                                 stdout := Some (or_else error.(err_stdout) []);
                                 stderr := Some (or_else error.(err_stderr)
                                                         error.(err_message));
                                 exitCode := None; errors := None |};
                            passed := false; coverage := None;
                            waveform := None |}
                     end,
                   ({| IcarusSim.this_executable := Some (js "a.out") |},
                    snd spawned))))
    /\ (forall testbench args,
           IcarusSim.simulate execAsync testbench args (IcarusSim.create, e)
           = (Returned IcarusSim.notCompiled, (IcarusSim.create, e))).
Proof.
  intros Env execAsync this e fs. split; [|reflexivity].
  assert (Hsim : forall e1 testbench args,
             IcarusSim.simulate execAsync testbench args
               ({| IcarusSim.this_executable := Some (js "a.out") |}, e1)
             = (fst (IcarusSim.runExecutable execAsync (js "a.out") args e1),
                ({| IcarusSim.this_executable := Some (js "a.out") |},
                 snd (IcarusSim.runExecutable execAsync (js "a.out") args e1)))
             /\ fst (IcarusSim.simulate execAsync testbench args
                       ({| IcarusSim.this_executable := Some (js "a.out") |}, e1))
                <> Returned IcarusSim.notCompiled
             /\ (let spawned :=
                  execAsync (js "vvp a.out "
                             ++ join (js " ") (match args with
                                               | Some a => a
                                               | None => []
                                               end))
                            (WithTimeout 60000) e1 in
                IcarusSim.simulate execAsync testbench args
                  ({| IcarusSim.this_executable := Some (js "a.out") |}, e1)
                = (Returned
                     match fst spawned with
                     | ExecOk out err =>
                         {| simBase := {| success := true; stdout := Some out;
                                          stderr := Some err; exitCode := None;
                                          errors := None |};
                            passed := IcarusSim.checkSimulationPassed out;
                            coverage := None;
                            waveform := Some (js "dump.vcd") |}
                     | ExecFailed error =>
                         {| simBase :=
                              {| success := false;
                                 stdout := Some (or_else error.(err_stdout) []);
                                 stderr := Some (or_else error.(err_stderr)
                                                         error.(err_message));
                                 exitCode := None; errors := None |};
                            passed := false; coverage := None;
                            waveform := None |}
                     end,
                   ({| IcarusSim.this_executable := Some (js "a.out") |},
                    snd spawned)))).
  { intros e1 testbench args.
    assert (Heq : IcarusSim.simulate execAsync testbench args
               ({| IcarusSim.this_executable := Some (js "a.out") |}, e1)
             = (fst (IcarusSim.runExecutable execAsync (js "a.out") args e1),
                ({| IcarusSim.this_executable := Some (js "a.out") |},
                 snd (IcarusSim.runExecutable execAsync (js "a.out") args e1)))).
    { unfold IcarusSim.simulate. cbn [IcarusSim.this_executable].
      change (truthy (js "a.out")) with true. cbn [negb].
      destruct (IcarusSim.runExecutable execAsync (js "a.out") args e1);
        reflexivity. }
    split; [exact Heq|]. rewrite Heq. cbn [fst].
    unfold IcarusSim.runExecutable. cbv zeta.
    change (js "vvp " ++ js "a.out" ++ js " "
            ++ join (js " ") (match args with Some a => a | None => [] end))
      with (js "vvp a.out "
            ++ join (js " ") (match args with Some a => a | None => [] end)).
    destruct (execAsync _ (WithTimeout 60000) e1) as [[o1 o2|er] e3];
      cbn [fst snd]; (split; [discriminate | reflexivity]). }
  unfold IcarusSim.compile, IcarusSim.run, argv.
  cbv beta zeta. cbn [args files env]. rewrite app_nil_r.
  destruct (execAsync (js "iverilog " ++ join (js " ") (js "-o" :: js "a.out" :: fs))
                      (WithEnv None) e) as [[out err|error] e1];
    cbn [runResult success negb fst]; eexists; exists e1;
    (split; [reflexivity|]); (split; [reflexivity|]); apply Hsim.
Qed.

(** A failed compile followed by a simulate, run: the compile reports
    failure, and the simulate answers from the [vvp] process (here failing
    too), not from the guard. *)
Lemma icarus_failed_compile_then_simulate :
  let exec := Scripted.failing (js "top.v:3: syntax error") in
  let after := snd (IcarusSim.compile exec [js "top.v"] (IcarusSim.create, tt)) in
  (exists cr, fst (IcarusSim.compile exec [js "top.v"] (IcarusSim.create, tt))
              = Returned cr /\ cr.(success) = false)
  /\ fst (IcarusSim.simulate exec (js "tb") None after)
     = Returned {| simBase := {| success := false; stdout := Some [];
                                 stderr := Some (js "top.v:3: syntax error");
                                 exitCode := None; errors := None |};
                   passed := false; coverage := None; waveform := None |}.
Proof. split; [eexists; split; reflexivity | reflexivity]. Qed.

(** ** Registry invariant and concrete runs *)

Lemma Map_has_In {V} (m : Map.t V) (k : jsstring) :
  Map.has m k = true <-> In k (Map.keys m).
Proof.
  unfold Map.has, Map.keys.
  induction m as [|[k' v'] rest IH]; simpl.
  - split; [discriminate | contradiction].
  - destruct (str_eqb k k') eqn:E.
    + apply str_eqb_eq in E. split; auto.
    + rewrite IH. split; [auto|].
      intros [H|H]; [|exact H].
      subst k'. exfalso.
      assert (str_eqb k k = true) by now apply str_eqb_eq.
      congruence.
Qed.

(** Registry keys stay distinct under [register]. *)
Lemma register_keeps_keys_distinct {T} (mgr : Manager.t T)
      (name : jsstring) (tool : T) :
  NoDup (Manager.getAvailableTools mgr) ->
  NoDup (Manager.getAvailableTools (Manager.register mgr name tool)).
Proof.
  unfold Manager.getAvailableTools, Manager.register; simpl.
  intros Hnd. rewrite Map_set_keys.
  destruct (Map.has (Manager.tools mgr) name) eqn:E; [exact Hnd|].
  apply NoDup_app; repeat split.
  - exact Hnd.
  - repeat constructor. intros [].
  - intros k Hin [<-|[]].
    apply Map_has_In in Hin. congruence.
Qed.

(** Registering a name again keeps its place in the order and replaces the
    adapter. *)
Example register_again_keeps_place :
  Manager.getAvailableTools
    (Manager.register
       {| Manager.tools := Scripted.slangOnly; Manager.preferredTool := None |}
       (js "verilator") Scripted.brokenLinter)
  = [js "verilator"; js "slang"].
Proof. reflexivity. Qed.

(** A probe that throws is skipped by [detectInstalledTools], with a
    warning, and the other adapters are still probed. *)
Example detect_survives_throwing_probe :
  LintManager.detectInstalledTools
    {| Manager.tools :=
         [(js "verilator",
           {| lintRunner :=
                {| run := fun _ => Scripted.always (Returned (failure None));
                   isInstalled := Scripted.always (Threw Scripted.eacces);
                   getVersion := Scripted.always (Returned (js "unknown")) |};
              lint := fun _ => Scripted.always (Threw ThrownOther) |});
          (js "slang", Scripted.linter true (Threw ThrownOther))];
       Manager.preferredTool := None |}
    Scripted.w0
  = (Returned [js "slang"],
     {| ext := tt;
        journal := [Invoked MIsInstalled; Warned; Invoked MIsInstalled] |}).
Proof. reflexivity. Qed.

(** The other two grammars on a line each. *)
Example slang_error_line :
  let r := SlangLint.parseLintOutput
             {| success := false; stdout := Some [];
                stderr := Some (js "top.sv:3:7: error: undeclared identifier 'foo'");
                exitCode := Some 1%N; errors := None |} in
  r.(success) = false
  /\ r.(warnings) = []
  /\ r.(lintErrors)
     = [{| file := js "top.sv"; line := Int 3; column := Some (Int 7);
           code := js "slang"; message := js "undeclared identifier 'foo'";
           severity := SevError |}].
Proof. vm_compute. repeat split. Qed.

Example verible_style_line :
  let r := VeribleLint.parseLintOutput
             {| success := false;
                stdout := Some (js "top.sv:10:5: Line length exceeds max: 100 characters [line-length]");
                stderr := Some []; exitCode := Some 1%N; errors := Some [] |} in
  r.(success) = true
  /\ r.(lintErrors) = []
  /\ r.(warnings)
     = [{| file := js "top.sv"; line := Int 10; column := Some (Int 5);
           code := js "line-length";
           message := js "Line length exceeds max: 100 characters";
           severity := SevWarning |}].
Proof. vm_compute. repeat split. Qed.

(** An [%Error-] line makes the Verilator result unsuccessful even when
    the process itself exited with status 0. *)
Example verilator_error_line :
  let r := VerilatorLint.parseLintOutput
             {| success := true; stdout := Some [];
                stderr := Some (js "%Error-HIERBLOCK: top.sv:15:10: Cannot find module");
                exitCode := Some 0%N; errors := None |} in
  r.(success) = false /\ errorCount r = 1.
Proof. vm_compute. split; reflexivity. Qed.

(** Every matching line adds exactly one diagnostic, every other line
    none: the two arrays together grow by the number of matching lines. *)
Lemma parseLines_count (a : LintAdapter) (lines : list jsstring) :
  forall warns errs,
    length (fst (parseLinesOf a lines warns errs))
    + length (snd (parseLinesOf a lines warns errs))
    = length warns + length errs
      + length (filter (test (linePatternOf a)) lines).
Proof.
  induction lines as [|ln rest IH]; intros warns errs.
  - destruct a; simpl; lia.
  - unfold test at 1. simpl filter.
    destruct (exec (linePatternOf a) ln) as [m|] eqn:E.
    + destruct a; simpl in E |- *; rewrite E;
        match goal with
        | |- context [if ?c then _ else _] => destruct c
        end;
        match goal with
        | |- context [?f ?r (?w ++ [?d]) ?e] =>
            specialize (IH (w ++ [d]) e)
        | |- context [?f ?r ?w (?e ++ [?d])] =>
            specialize (IH w (e ++ [d]))
        end;
        simpl in IH; rewrite IH, length_app; simpl; unfold test; lia.
    + rewrite parseLines_skip by assumption. apply IH.
Qed.

(** The [passed] field of an Icarus run is [true] only for a process that
    exited normally and whose stdout matches no failure pattern. *)
Lemma icarus_passed_field {Env : Type}
      (execAsync : jsstring -> ExecOptions -> Env -> ExecOutcome * Env)
      (exe : jsstring) (args : option (list jsstring)) (e e' : Env)
      (r : SimulationResult) :
  IcarusSim.runExecutable execAsync exe args e = (Returned r, e') ->
  r.(passed) = true ->
  exists out, r.(stdout) = Some out
              /\ noFailureMatches IcarusSim.failPatterns out = true.
Proof.
  unfold IcarusSim.runExecutable.
  destruct (execAsync _ (WithTimeout 60000) e) as [[out err|error] e1];
    intros [= <- <-]; simpl; [|discriminate].
  intros Hp. exists out. split; [reflexivity|].
  unfold IcarusSim.checkSimulationPassed in Hp.
  now rewrite checkPatterns_no_failure in Hp.
Qed.

(* ================================================================== *)
(** * Further properties of the same code *)
(* ================================================================== *)

(** ** The matcher only reports what the pattern denotes *)

Lemma nth_set_cap (i j : nat) (v : jsstring) (caps : captures) :
  nth j (set_cap i v caps) None
  = if Nat.eqb j i then Some v else nth j caps None.
Proof.
  revert j caps. induction i as [|i IH]; intros [|j] [|c caps]; simpl;
    try reflexivity.
  - destruct j; reflexivity.
  - rewrite IH. destruct (Nat.eqb j i); [reflexivity|]. destruct j; reflexivity.
  - apply IH.
Qed.

Lemma CapsOk_set (Q : nat -> jsstring -> Prop) (i : nat) (v : jsstring)
      (caps : captures) :
  CapsOk Q caps -> Q i v -> CapsOk Q (set_cap i v caps).
Proof.
  intros Hc Hq j w. rewrite nth_set_cap.
  destruct (Nat.eqb j i) eqn:E.
  - apply Nat.eqb_eq in E. subst j. intros [= <-]. exact Hq.
  - apply Hc.
Qed.

Lemma CapsOk_nil (Q : nat -> jsstring -> Prop) : CapsOk Q [].
Proof. intros [|i] v; discriminate. Qed.

Lemma consumed_app (pre s' : jsstring) : consumed (pre ++ s') s' = pre.
Proof.
  unfold consumed. rewrite length_app.
  replace (length pre + length s' - length s') with (length pre) by lia.
  rewrite firstn_app, firstn_all.
  replace (length pre - length pre) with 0 by lia. simpl.
  apply app_nil_r.
Qed.

Section Soundness.
Variable ic : bool.
Variable total : nat.
Variable R : Type.

Lemma star_sound (greedy : bool) (cs : charset) (s : jsstring)
      (k : jsstring -> option R) (res : R) :
  star ic greedy cs s k = Some res ->
  exists pre s', s = pre ++ s'
                 /\ Forall (fun c => cs_mem ic cs c = true) pre
                 /\ k s' = Some res.
Proof.
  revert k res. induction s as [|c s IH]; intros k res; simpl.
  - intros H. exists [], []. auto.
  - destruct (cs_mem ic cs c) eqn:E.
    + assert (Hmore : star ic greedy cs s k = Some res ->
                      exists pre s', c :: s = pre ++ s'
                        /\ Forall (fun c => cs_mem ic cs c = true) pre
                        /\ k s' = Some res).
      { intros H. destruct (IH _ _ H) as (pre & s' & -> & Hp & Hk).
        exists (c :: pre), s'. repeat split; auto. }
      assert (Hstop : k (c :: s) = Some res ->
                      exists pre s', c :: s = pre ++ s'
                        /\ Forall (fun c => cs_mem ic cs c = true) pre
                        /\ k s' = Some res).
      { intros H. exists [], (c :: s). auto. }
      destruct greedy; unfold orelse.
      * destruct (star ic true cs s k) eqn:S; [intros [= <-]|]; auto.
      * destruct (k (c :: s)) eqn:K; [intros [= <-]|]; auto.
    + intros H. exists [], (c :: s). auto.
Qed.

Variable Q : nat -> jsstring -> Prop.

Lemma backtrack_sound (r : regex) :
  GroupsOk ic Q r ->
  forall (s : jsstring) (caps : captures)
         (k : jsstring -> captures -> option R) (res : R),
    backtrack ic total r s caps k = Some res ->
    CapsOk Q caps ->
    exists pre s' caps',
      s = pre ++ s' /\ Lang ic r pre /\ CapsOk Q caps'
      /\ k s' caps' = Some res.
Proof.
  induction r as [|cs|r1 IH1 r2 IH2|r1 IH1 r2 IH2|i r1 IH1|greedy cs| |];
    intros Hg s caps k res H Hc; simpl in *.
  - exists [], s, caps. auto.
  - destruct s as [|c s]; [discriminate|].
    destruct (cs_mem ic cs c) eqn:E; [|discriminate].
    exists [c], s, caps. repeat split; eauto.
  - destruct Hg as [Hg1 Hg2].
    destruct (IH1 Hg1 _ _ _ _ H Hc) as (p1 & s1 & c1 & -> & L1 & C1 & K1).
    destruct (IH2 Hg2 _ _ _ _ K1 C1) as (p2 & s2 & c2 & -> & L2 & C2 & K2).
    exists (p1 ++ p2), s2, c2. rewrite app_assoc. repeat split; eauto.
  - destruct Hg as [Hg1 Hg2]. unfold orelse in H.
    destruct (backtrack ic total r1 s caps k) eqn:B1.
    + injection H as <-.
      destruct (IH1 Hg1 _ _ _ _ B1 Hc) as (p & s' & c' & -> & L & C & K).
      exists p, s', c'. auto.
    + destruct (IH2 Hg2 _ _ _ _ H Hc) as (p & s' & c' & -> & L & C & K).
      exists p, s', c'. auto.
  - destruct Hg as [Hq Hg1].
    destruct (IH1 Hg1 _ _ _ _ H Hc) as (p & s' & c' & -> & L & C & K).
    rewrite consumed_app in K.
    exists p, s', (set_cap i p c'). repeat split; auto.
    apply CapsOk_set; auto.
  - destruct s as [|c s]; [discriminate|].
    destruct (cs_mem ic cs c) eqn:E; [|discriminate].
    destruct (star_sound _ _ _ _ H) as (pre & s' & -> & Hp & Hk).
    exists (c :: pre), s', caps. repeat split; auto. discriminate.
  - destruct (Nat.eqb (length s) total); [|discriminate].
    exists [], s, caps. auto.
  - destruct s as [|c s]; [|discriminate].
    exists [], [], caps. auto.
Qed.
End Soundness.

(** Whatever [exec] returns, each capture lies in the language of its
    group. *)
Lemma exec_sound (Q : nat -> jsstring -> Prop) (p : pattern)
      (s : jsstring) (caps : captures) :
  GroupsOk p.(ignoreCase) Q p.(re) ->
  (forall v, Q 0 v) ->
  exec p s = Some caps ->
  CapsOk Q caps.
Proof.
  intros Hg H0. unfold exec. generalize (length s) as total.
  assert (Hhere : forall total s0 caps0,
             backtrack p.(ignoreCase) total p.(re) s0 []
               (fun s' caps' => Some (set_cap 0 (consumed s0 s') caps'))
             = Some caps0 -> CapsOk Q caps0).
  { intros total s0 caps0 B.
    destruct (@backtrack_sound _ total _ Q _ Hg _ _ _ _ B (CapsOk_nil Q))
      as (pre & s' & caps' & _ & _ & Hc & Hk).
    apply (f_equal (fun o => match o with Some x => x | None => caps0 end))
      in Hk.
    subst caps0. apply CapsOk_set; auto. }
  induction s as [|c s IH]; intros total; cbn [exec_from].
  - destruct (backtrack _ _ _ _ _ _) eqn:B; [|discriminate].
    intros [= <-]. eapply Hhere; eauto.
  - destruct (backtrack _ _ _ _ _ _) eqn:B.
    + intros [= <-]. eapply Hhere; eauto.
    + apply IH.
Qed.

Lemma cap_ok (Q : nat -> jsstring -> Prop) (caps : captures) (i : nat) :
  CapsOk Q caps -> Q i [] -> Q i (cap i caps).
Proof.
  intros Hc Hd. unfold cap.
  destruct (nth i caps None) eqn:E; [apply (Hc _ _ E) | exact Hd].
Qed.

Lemma parseInt10_digits (v : jsstring) :
  digits v -> exists n, parseInt10 v = Int n.
Proof.
  intros [Hne Hd]. destruct v as [|c v]; [congruence|].
  inversion Hd as [|? ? Hc _]; subst.
  unfold parseInt10. rewrite Hc. eauto.
Qed.

(** ** What the line patterns capture *)

(** Peel a [Lang] hypothesis down to equations on characters. *)
Ltac lang_open H :=
  repeat match type of H with
         | exists _, _ => let x := fresh "x" in destruct H as [x H]
         | _ /\ _ => let H1 := fresh "H" in destruct H as [H1 H]; lang_open H1
         | _ \/ _ => destruct H as [H|H]
         end.

Ltac lang_lit :=
  let v := fresh "v" in
  let H := fresh "H" in
  intros v H; cbn in H;
  repeat match goal with
         | H : exists _, _ |- _ => destruct H
         | H : _ /\ _ |- _ => destruct H
         | H : _ \/ _ |- _ => destruct H
         | H : N.eqb _ _ = true |- _ => apply N.eqb_eq in H
         end;
  subst; auto; try (split; assumption).

Ltac groups_ok :=
  cbn;
  repeat match goal with
         | |- _ /\ _ => split
         | |- True => exact I
         end;
  lang_lit.

Lemma verilator_groups :
  GroupsOk false verilatorGroups VerilatorLint.linePattern.(re).
Proof. groups_ok. Qed.

Lemma slang_groups :
  GroupsOk false slangGroups SlangLint.linePattern.(re).
Proof. groups_ok. Qed.

Lemma verible_groups :
  GroupsOk false veribleGroups VeribleLint.linePattern.(re).
Proof. groups_ok. Qed.

Lemma veribleLsp_groups :
  GroupsOk false veribleGroups VeribleLSP.linePattern.(re).
Proof. groups_ok. Qed.

Section Definedness.
Variable ic : bool.
Variable total : nat.
Variable R : Type.

Lemma Keeps_refl (caps : captures) : Keeps caps caps.
Proof. intros i H; exact H. Qed.

Lemma Keeps_trans (a b c : captures) : Keeps a b -> Keeps b c -> Keeps a c.
Proof. intros H1 H2 i H. auto. Qed.

Lemma Keeps_set (i : nat) (v : jsstring) (caps : captures) :
  Keeps caps (set_cap i v caps).
Proof.
  intros j H. rewrite nth_set_cap. destruct (Nat.eqb j i); [discriminate|auto].
Qed.

Lemma backtrack_defines (r : regex) :
  forall (s : jsstring) (caps : captures)
         (k : jsstring -> captures -> option R) (res : R),
    backtrack ic total r s caps k = Some res ->
    exists s' caps',
      k s' caps' = Some res /\ Keeps caps caps'
      /\ forall i, In i (Sets r) -> nth i caps' None <> None.
Proof.
  induction r as [|cs|r1 IH1 r2 IH2|r1 IH1 r2 IH2|i r1 IH1|greedy cs| |];
    intros s caps k res H; simpl in *.
  - exists s, caps. repeat split; auto using Keeps_refl; try contradiction.
  - destruct s as [|c s]; [discriminate|].
    destruct (cs_mem ic cs c); [|discriminate].
    exists s, caps. repeat split; auto using Keeps_refl; try contradiction.
  - destruct (IH1 _ _ _ _ H) as (s1 & c1 & K1 & Kp1 & S1).
    destruct (IH2 _ _ _ _ K1) as (s2 & c2 & K2 & Kp2 & S2).
    exists s2, c2. repeat split; eauto using Keeps_trans.
    intros i Hi. apply in_app_or in Hi as [Hi|Hi]; auto.
  - unfold orelse in H.
    destruct (backtrack ic total r1 s caps k) eqn:B1.
    + injection H as <-.
      destruct (IH1 _ _ _ _ B1) as (s' & c' & K & Kp & _).
      exists s', c'. repeat split; auto; try contradiction.
    + destruct (IH2 _ _ _ _ H) as (s' & c' & K & Kp & _).
      exists s', c'. repeat split; auto; try contradiction.
  - destruct (IH1 _ _ _ _ H) as (s' & c' & K & Kp & S1).
    exists s', (set_cap i (consumed s s') c'). repeat split; auto.
    + eapply Keeps_trans; [exact Kp | apply Keeps_set].
    + intros j [<-|Hj].
      * rewrite nth_set_cap, Nat.eqb_refl. discriminate.
      * apply Keeps_set. auto.
  - destruct s as [|c s]; [discriminate|].
    destruct (cs_mem ic cs c); [|discriminate].
    destruct (star_sound _ _ _ _ _ H) as (pre & s' & _ & _ & Hk).
    exists s', caps. repeat split; auto using Keeps_refl; try contradiction.
  - destruct (Nat.eqb (length s) total); [|discriminate].
    exists s, caps. repeat split; auto using Keeps_refl; try contradiction.
  - destruct s as [|c s]; [|discriminate].
    exists [], caps. repeat split; auto using Keeps_refl; try contradiction.
Qed.
End Definedness.

Lemma exec_defines (p : pattern) (s : jsstring) (caps : captures) :
  exec p s = Some caps ->
  forall i, In i (Sets p.(re)) -> nth i caps None <> None.
Proof.
  unfold exec. generalize (length s) as total.
  assert (Hhere : forall total s0 caps0,
             backtrack p.(ignoreCase) total p.(re) s0 []
               (fun s' caps' => Some (set_cap 0 (consumed s0 s') caps'))
             = Some caps0 ->
             forall i, In i (Sets p.(re)) -> nth i caps0 None <> None).
  { intros total s0 caps0 B i Hi.
    destruct (@backtrack_defines _ _ _ _ _ _ _ _ B)
      as (s' & caps' & Hk & _ & Hs).
    apply (f_equal (fun o => match o with Some x => x | None => caps0 end))
      in Hk.
    subst caps0. apply Keeps_set. auto. }
  induction s as [|c s IH]; intros total; cbn [exec_from].
  - destruct (backtrack _ _ _ _ _ _) eqn:B; [|discriminate].
    intros [= <-]. eapply Hhere; eauto.
  - destruct (backtrack _ _ _ _ _ _) eqn:B.
    + intros [= <-]. eapply Hhere; eauto.
    + apply IH.
Qed.

(** A group that every match sets holds, after [exec], a string of its
    language. *)
Lemma exec_cap (Q : nat -> jsstring -> Prop) (p : pattern) (s : jsstring)
      (caps : captures) (i : nat) :
  GroupsOk p.(ignoreCase) Q p.(re) ->
  (forall v, Q 0 v) ->
  In i (Sets p.(re)) ->
  exec p s = Some caps ->
  Q i (cap i caps).
Proof.
  intros Hg H0 Hi He. unfold cap.
  pose proof (@exec_defines p s caps He i Hi) as Hd.
  destruct (nth i caps None) as [v|] eqn:E; [|congruence].
  exact (@exec_sound Q p s caps Hg H0 He i v E).
Qed.

Ltac group_fact Q G i :=
  match goal with
  | He : exec ?p ?ln = Some ?m |- _ =>
      exact (@exec_cap Q p ln m i G (fun _ => I)
                       ltac:(cbn; tauto) He)
  end.

Lemma verilator_match (ln : jsstring) (m : captures) :
  exec VerilatorLint.linePattern ln = Some m ->
  digits (cap 4 m) /\ digits (cap 5 m) /\ cap 3 m <> []
  /\ (cap 1 m = js "Warning" \/ cap 1 m = js "Error").
Proof.
  intros He. split; [|split; [|split]].
  - group_fact verilatorGroups verilator_groups 4.
  - group_fact verilatorGroups verilator_groups 5.
  - group_fact verilatorGroups verilator_groups 3.
  - group_fact verilatorGroups verilator_groups 1.
Qed.

Lemma slang_match (ln : jsstring) (m : captures) :
  exec SlangLint.linePattern ln = Some m ->
  digits (cap 2 m) /\ digits (cap 3 m) /\ cap 1 m <> []
  /\ (cap 4 m = js "error" \/ cap 4 m = js "warning" \/ cap 4 m = js "note").
Proof.
  intros He. split; [|split; [|split]].
  - group_fact slangGroups slang_groups 2.
  - group_fact slangGroups slang_groups 3.
  - group_fact slangGroups slang_groups 1.
  - group_fact slangGroups slang_groups 4.
Qed.

Lemma verible_match (ln : jsstring) (m : captures) :
  exec VeribleLint.linePattern ln = Some m ->
  digits (cap 2 m) /\ digits (cap 3 m) /\ cap 1 m <> [].
Proof.
  intros He. split; [|split].
  - group_fact veribleGroups verible_groups 2.
  - group_fact veribleGroups verible_groups 3.
  - group_fact veribleGroups verible_groups 1.
Qed.

Lemma veribleLsp_match (ln : jsstring) (m : captures) :
  exec VeribleLSP.linePattern ln = Some m ->
  digits (cap 2 m) /\ digits (cap 3 m) /\ cap 1 m <> [].
Proof.
  intros He. split; [|split].
  - group_fact veribleGroups veribleLsp_groups 2.
  - group_fact veribleGroups veribleLsp_groups 3.
  - group_fact veribleGroups veribleLsp_groups 1.
Qed.

Lemma positioned_intro (f c msg ln col : jsstring) (sev : Severity) :
  digits ln -> digits col -> f <> [] ->
  positioned {| file := f; line := parseInt10 ln;
                column := Some (parseInt10 col); code := c;
                message := msg; severity := sev |}.
Proof.
  intros Hl Hc Hf.
  destruct (parseInt10_digits Hl) as [n Hn].
  destruct (parseInt10_digits Hc) as [k Hk].
  unfold positioned; simpl. rewrite Hn, Hk. eauto.
Qed.

Lemma parseLines_positioned (a : LintAdapter) (lines : list jsstring) :
  forall warns errs,
    Forall positioned warns -> Forall positioned errs ->
    Forall positioned (fst (parseLinesOf a lines warns errs))
    /\ Forall positioned (snd (parseLinesOf a lines warns errs)).
Proof.
  induction lines as [|ln rest IH]; intros warns errs Hw He.
  - destruct a; simpl; auto.
  - destruct (exec (linePatternOf a) ln) as [m|] eqn:E.
    + destruct a; simpl in E |- *; rewrite E;
        [destruct (verilator_match _ E) as (H1 & H2 & H3 & _)
        |destruct (slang_match _ E) as (H1 & H2 & H3 & _)
        |destruct (verible_match _ E) as (H1 & H2 & H3)];
        match goal with
        | |- context [if ?c then _ else _] => destruct c
        end;
        apply IH; auto; apply Forall_app; split; auto;
        constructor; auto using positioned_intro.
    + rewrite parseLines_skip by assumption. apply IH; auto.
Qed.

(** X1.  Every diagnostic that any of the three lint adapters parses has a
    numeric line, a numeric column (never [NaN]) and a non-empty file
    name. *)
Theorem lint_diagnostics_positioned :
  forall (a : LintAdapter) (result : ToolResult),
    Forall positioned ((parseLintOutputOf a result).(warnings)
                       ++ (parseLintOutputOf a result).(lintErrors)).
Proof.
  intros a result. rewrite parseLintOutputOf_unfold. unfold lintResultOf.
  destruct (parseLines_positioned a (outputLines result)
              (Forall_nil _) (Forall_nil _)) as [Hw He].
  destruct (parseLinesOf a (outputLines result) [] []) as [ws es].
  simpl in *. apply Forall_app; auto.
Qed.

(** ** Language-server parsers *)

Lemma slangLsp_parseLines_app (lines : list jsstring)
      (acc : list Lsp.Diagnostic) :
  SlangLSP.parseLines lines acc = acc ++ SlangLSP.parseLines lines [].
Proof.
  revert acc. induction lines as [|ln rest IH]; intros acc; simpl.
  - now rewrite app_nil_r.
  - destruct (exec SlangLSP.linePattern ln); [|apply IH].
    rewrite (IH (acc ++ _)), (IH [_]). now rewrite <- app_assoc.
Qed.

Lemma veribleLsp_parseLines_app (lines : list jsstring)
      (acc : list Lsp.Diagnostic) :
  VeribleLSP.parseLines lines acc = acc ++ VeribleLSP.parseLines lines [].
Proof.
  revert acc. induction lines as [|ln rest IH]; intros acc; simpl.
  - now rewrite app_nil_r.
  - destruct (exec VeribleLSP.linePattern ln); [|apply IH].
    rewrite (IH (acc ++ _)), (IH [_]). now rewrite <- app_assoc.
Qed.

Lemma slang_lint_follows_lsp (lines : list jsstring) :
  forall warns errs,
    SlangLint.parseLines lines warns errs
    = (warns ++ map asLintMessage
                    (filter (fun d => negb (isLspError d))
                            (SlangLSP.parseLines lines [])),
       errs ++ map asLintMessage
                   (filter isLspError (SlangLSP.parseLines lines []))).
Proof.
  induction lines as [|ln rest IH]; intros warns errs; simpl.
  - now rewrite !app_nil_r.
  - change SlangLSP.linePattern with SlangLint.linePattern.
    destruct (exec SlangLint.linePattern ln) as [m|]; [|apply IH].
    rewrite slangLsp_parseLines_app, !filter_app, !map_app.
    unfold SlangLSP.mapSeverity. simpl filter.
    destruct (str_eqb (cap 4 m) (js "error")) eqn:E1.
    + rewrite IH. cbn. now rewrite <- !app_assoc.
    + destruct (str_eqb (cap 4 m) (js "warning")) eqn:E2.
      * rewrite IH. cbn. now rewrite <- !app_assoc.
      * destruct (str_eqb (cap 4 m) (js "note")) eqn:E3;
          rewrite IH; cbn; now rewrite <- !app_assoc.
Qed.

(** X2.  The slang language-server parser and the slang lint adapter read
    the same text the same way: the lint result's [lintErrors] are the
    language server's error diagnostics, in order, and its [warnings] are
    all the others (each recorded with code ['slang']); and the language
    server never reports severity [hint]. *)
Theorem slang_lsp_and_lint_agree :
  forall (result : ToolResult) (filePath : jsstring),
    let ds := SlangLSP.parseDiagnostics
                (or_else result.(stdout) [] ++ or_else result.(stderr) [])
                filePath in
    (SlangLint.parseLintOutput result).(lintErrors)
    = map asLintMessage (filter isLspError ds)
    /\ (SlangLint.parseLintOutput result).(warnings)
       = map asLintMessage (filter (fun d => negb (isLspError d)) ds)
    /\ Forall (fun d => d.(Lsp.severity) <> Lsp.hint) ds.
Proof.
  intros result filePath ds. subst ds.
  unfold SlangLint.parseLintOutput, SlangLSP.parseDiagnostics, outputLines,
    lintResultOf.
  rewrite slang_lint_follows_lsp. simpl. split; [reflexivity|].
  split; [reflexivity|].
  generalize (split 10 (or_else (stdout result) [] ++ or_else (stderr result) [])).
  intros lines. induction lines as [|ln rest IH]; simpl; [constructor|].
  destruct (exec SlangLSP.linePattern ln) as [m|] eqn:E; [|exact IH].
  rewrite slangLsp_parseLines_app. apply Forall_app. split; [|exact IH].
  constructor; [|constructor]. simpl.
  change SlangLSP.linePattern with SlangLint.linePattern in E.
  destruct (slang_match _ E) as (_ & _ & _ & [H|[H|H]]);
    rewrite H; discriminate.
Qed.

Lemma lsp_positioned_intro (f msg ln col : jsstring) (sev : Lsp.Severity)
      (c : option jsstring) :
  digits ln -> digits col -> f <> [] ->
  positionedLsp {| Lsp.file := f; Lsp.line := parseInt10 ln;
                   Lsp.column := parseInt10 col; Lsp.severity := sev;
                   Lsp.message := msg; Lsp.code := c |}.
Proof.
  intros Hl Hc Hf.
  destruct (parseInt10_digits Hl) as [n Hn].
  destruct (parseInt10_digits Hc) as [k Hk].
  unfold positionedLsp; simpl. rewrite Hn, Hk. eauto.
Qed.

(** X3.  Every diagnostic of the slang and Verible language-server parsers
    has a numeric line, a numeric column and a non-empty file name, and
    their number is the number of output lines the parser's pattern
    matches. *)
Theorem lsp_diagnostics_positioned :
  forall (output filePath : jsstring),
    (Forall positionedLsp (SlangLSP.parseDiagnostics output filePath)
     /\ length (SlangLSP.parseDiagnostics output filePath)
        = length (filter (test SlangLSP.linePattern) (split 10 output)))
    /\ (Forall positionedLsp (VeribleLSP.parseDiagnostics output filePath)
        /\ length (VeribleLSP.parseDiagnostics output filePath)
           = length (filter (test VeribleLSP.linePattern) (split 10 output))).
Proof.
  intros output filePath.
  unfold SlangLSP.parseDiagnostics, VeribleLSP.parseDiagnostics.
  generalize (split 10 output). intros lines. split.
  - induction lines as [|ln rest [IH1 IH2]]; simpl;
      [split; [constructor|reflexivity]|].
    unfold test at 1.
    destruct (exec SlangLSP.linePattern ln) as [m|] eqn:E; [|auto].
    rewrite slangLsp_parseLines_app. split.
    + apply Forall_app. split; [|exact IH1].
      constructor; [|constructor].
      change SlangLSP.linePattern with SlangLint.linePattern in E.
      destruct (slang_match _ E) as (H1 & H2 & H3 & _).
      auto using lsp_positioned_intro.
    + simpl. now rewrite IH2.
  - induction lines as [|ln rest [IH1 IH2]]; simpl;
      [split; [constructor|reflexivity]|].
    unfold test at 1.
    destruct (exec VeribleLSP.linePattern ln) as [m|] eqn:E; [|auto].
    rewrite veribleLsp_parseLines_app. split.
    + apply Forall_app. split; [|exact IH1].
      constructor; [|constructor].
      destruct (veribleLsp_match _ E) as (H1 & H2 & H3).
      auto using lsp_positioned_intro.
    + simpl. now rewrite IH2.
Qed.

(** ** Literal patterns with the [i] flag are case-blind substring tests *)

Lemma fold_eqb (x y : N) :
  N.eqb (toUpperAscii x) (toUpperAscii y)
  = N.eqb (toLowerAscii x) (toLowerAscii y).
Proof.
  unfold toUpperAscii, toLowerAscii, in_range.
  destruct (N.leb 97 x) eqn:A1, (N.leb x 122) eqn:A2,
           (N.leb 65 x) eqn:A3, (N.leb x 90) eqn:A4,
           (N.leb 97 y) eqn:B1, (N.leb y 122) eqn:B2,
           (N.leb 65 y) eqn:B3, (N.leb y 90) eqn:B4; simpl;
    repeat match goal with
           | H : N.leb _ _ = true |- _ => apply N.leb_le in H
           | H : N.leb _ _ = false |- _ => apply N.leb_gt in H
           end;
    try lia;
    match goal with
    | |- N.eqb ?a ?b = N.eqb ?c ?d =>
        destruct (N.eqb_spec a b), (N.eqb_spec c d); try reflexivity; lia
    end.
Qed.

Lemma startsWith_fold (p s : jsstring) :
  startsWith (map toUpperAscii p) (map toUpperAscii s)
  = startsWith (toLowerCase p) (toLowerCase s).
Proof.
  revert s. induction p as [|c p IH]; intros [|d s]; simpl; auto.
  now rewrite fold_eqb, IH.
Qed.

Lemma includes_fold (p s : jsstring) :
  includes (map toUpperAscii p) (map toUpperAscii s)
  = includes (toLowerCase p) (toLowerCase s).
Proof.
  induction s as [|d s IH].
  - pose proof (startsWith_fold p []) as H. unfold toLowerCase in *.
    cbn [map includes] in *. now rewrite H.
  - pose proof (startsWith_fold p (d :: s)) as H. unfold toLowerCase in *.
    cbn [map includes] in *. now rewrite H, IH.
Qed.

Lemma backtrack_literal (total : nat) (R : Type) (l : list N) :
  forall (s : jsstring) (caps : captures)
         (k : jsstring -> captures -> option R),
    backtrack true total (seqs (map (fun c => Chr (CsLit c)) l)) s caps k
    = if startsWith (map toUpperAscii l) (map toUpperAscii s)
      then k (skipn (length l) s) caps else None.
Proof.
  induction l as [|d l IH]; intros s caps k; [reflexivity|].
  assert (Hone : forall k' : jsstring -> captures -> option R,
             backtrack true total (Chr (CsLit d)) s caps k'
             = match s with
               | c :: s' =>
                   if N.eqb (toUpperAscii d) (toUpperAscii c)
                   then k' s' caps else None
               | [] => None
               end).
  { intros k'. destruct s as [|c s']; simpl; [reflexivity|].
    now rewrite N.eqb_sym. }
  destruct l as [|d' l].
  - simpl map. cbn [seqs]. rewrite Hone.
    destruct s as [|c s']; simpl; [reflexivity|].
    destruct (N.eqb (toUpperAscii d) (toUpperAscii c)); reflexivity.
  - change (seqs (map (fun c => Chr (CsLit c)) (d :: d' :: l)))
      with (Seq (Chr (CsLit d)) (seqs (map (fun c => Chr (CsLit c)) (d' :: l)))).
    cbn [backtrack].
    destruct s as [|c s']; [reflexivity|].
    cbn [map startsWith length skipn cs_mem].
    rewrite (N.eqb_sym (toUpperAscii c)).
    destruct (N.eqb (toUpperAscii d) (toUpperAscii c)); [|reflexivity].
    rewrite IH. reflexivity.
Qed.

Lemma lit_js (s : string) :
  lit s = seqs (map (fun c => Chr (CsLit c)) (js s)).
Proof. unfold lit, js. now rewrite map_map. Qed.

(** [/text/i.test(s)] is [s.toLowerCase().includes(text.toLowerCase())]. *)
Lemma test_ci_includes (text : string) (s : jsstring) :
  test (ci text) s = includes (toLowerCase (js text)) (toLowerCase s).
Proof.
  rewrite <- includes_fold.
  unfold test, exec. generalize (length s) as total.
  induction s as [|c s IH]; intros total; cbn [exec_from ci re ignoreCase];
    rewrite lit_js, backtrack_literal.
  - cbn [map includes]. rewrite orb_false_r.
    destruct (startsWith _ _); reflexivity.
  - cbn [map includes].
    destruct (startsWith (map toUpperAscii (js text))
                         (toUpperAscii c :: map toUpperAscii s));
      [reflexivity|].
    cbn [orb]. apply (IH total).
Qed.

Lemma startsWith_app (p s post : jsstring) :
  startsWith p s = true -> startsWith p (s ++ post) = true.
Proof.
  revert s. induction p as [|c p IH]; intros [|d s]; simpl; auto;
    try discriminate.
  intros H. apply andb_true_iff in H as [H1 H2].
  rewrite H1. simpl. auto.
Qed.

Lemma includes_app (p pre s post : jsstring) :
  includes p s = true -> includes p (pre ++ s ++ post) = true.
Proof.
  intros H. induction pre as [|c pre IH]; simpl.
  - induction s as [|d s IHs]; simpl in *.
    + rewrite orb_false_r in H. destruct p; [|discriminate].
      destruct post; reflexivity.
    + apply orb_true_iff in H as [H|H].
      * change (d :: s ++ post) with ((d :: s) ++ post).
        rewrite (startsWith_app _ _ post H). reflexivity.
      * rewrite (IHs H). apply orb_true_r.
  - rewrite IH. apply orb_true_r.
Qed.

(** X4.  For both simulation adapters, [checkSimulationPassed] is decided by
    four case-blind substring tests: it answers [true] exactly when the
    output, in lower case, contains none of [test failed], [error:],
    [assertion failed] and [*** fail ***]. *)
Theorem checkSimulationPassed_by_substrings :
  forall (a : SimAdapter) (output : jsstring),
    checkSimulationPassedOf a output
    = negb (includes (js "test failed") (toLowerCase output)
            || includes (js "error:") (toLowerCase output)
            || includes (js "assertion failed") (toLowerCase output)
            || includes (js "*** fail ***") (toLowerCase output)).
Proof.
  intros a output.
  rewrite checkSimulationPassedOf_unfold, checkPatterns_no_failure.
  unfold noFailureMatches.
  destruct a; cbn [failPatternsOf IcarusSim.failPatterns
                   VerilatorSim.failPatterns existsb];
    rewrite !test_ci_includes, orb_false_r, !orb_assoc; reflexivity.
Qed.

(** X5.  A failure marker is final: if [checkSimulationPassed] answers
    [false] on some output, it answers [false] on every output that
    contains it, whatever is printed before or after. *)
Theorem checkSimulationPassed_failure_is_final :
  forall (a : SimAdapter) (output : jsstring),
    checkSimulationPassedOf a output = false ->
    forall before after : jsstring,
      checkSimulationPassedOf a (before ++ output ++ after) = false.
Proof.
  intros a output Hfail before after.
  rewrite checkSimulationPassedOf_unfold, checkPatterns_no_failure in *.
  unfold noFailureMatches in *. apply negb_false_iff in Hfail.
  apply negb_false_iff.
  apply existsb_exists in Hfail as [p [Hin Hp]].
  apply existsb_exists. exists p. split; [exact Hin|].
  assert (Hci : exists text, p = ci text).
  { destruct a; cbn in Hin;
      repeat (destruct Hin as [<-|Hin]; [eexists; reflexivity|]);
      contradiction. }
  destruct Hci as [text ->].
  rewrite test_ci_includes in *. unfold toLowerCase in *.
  rewrite !map_app. now apply includes_app.
Qed.

Lemma checkSimulationPassed_failure_is_final_witness :
  checkSimulationPassedOf Icarus (js "Assertion failed") = false
  /\ checkSimulationPassedOf Icarus
       (js "run 1: " ++ js "Assertion failed" ++ js "; *** PASS ***") = false.
Proof.
  assert (H : checkSimulationPassedOf Icarus (js "Assertion failed") = false)
    by reflexivity.
  split; [exact H|].
  exact (checkSimulationPassed_failure_is_final Icarus _ H
           (js "run 1: ") (js "; *** PASS ***")).
Defined.

(** ** Registration and detection *)

Lemma str_eqb_refl (s : jsstring) : str_eqb s s = true.
Proof. now apply str_eqb_eq. Qed.

Lemma str_eqb_neq (s t : jsstring) : s <> t -> str_eqb s t = false.
Proof.
  intros H. destruct (str_eqb s t) eqn:E; [|reflexivity].
  apply str_eqb_eq in E. contradiction.
Qed.

Lemma Map_get_set_other {V} (m : Map.t V) (k k' : jsstring) (v : V) :
  k' <> k -> Map.get (Map.set m k v) k' = Map.get m k'.
Proof.
  intros Hne. induction m as [|[k0 v0] rest IH]; simpl.
  - now rewrite str_eqb_neq.
  - destruct (str_eqb k k0) eqn:E; simpl.
    + apply str_eqb_eq in E. subst k0. now rewrite !str_eqb_neq.
    + destruct (str_eqb k' k0); auto.
Qed.

(** X6.  [register] is an insert that later lookups see: the name then maps
    to the new adapter (the last registration wins), every other name maps
    to what it did, a name registered before keeps its place in the order
    and a new one goes last, and the preferred name is untouched. *)
Theorem register_then_lookup :
  forall (T : Type) (mgr : Manager.t T) (name : jsstring) (tool : T),
    let mgr' := Manager.register mgr name tool in
    Map.get mgr'.(Manager.tools) name = Some tool
    /\ (forall other, other <> name ->
          Map.get mgr'.(Manager.tools) other
          = Map.get mgr.(Manager.tools) other)
    /\ Manager.getAvailableTools mgr'
       = (if Map.has mgr.(Manager.tools) name
          then Manager.getAvailableTools mgr
          else Manager.getAvailableTools mgr ++ [name])
    /\ mgr'.(Manager.preferredTool) = mgr.(Manager.preferredTool).
Proof.
  intros T mgr name tool mgr'. subst mgr'. unfold Manager.register; simpl.
  split; [apply Map_get_set|]. split; [|split; [|reflexivity]].
  - intros other Hne. now apply Map_get_set_other.
  - apply Map_set_keys.
Qed.

Lemma has_set_keeps {V} (m : Map.t V) (k n : jsstring) (v : V) :
  Map.has m n = true -> Map.has (Map.set m k v) n = true.
Proof.
  rewrite !Map_has_In, Map_set_keys.
  destruct (Map.has m k); [auto|]. intros H. apply in_or_app. now left.
Qed.

(** X7.  Every manager a program can build (constructor, [register], and
    the [setPreferred] calls that return) has distinct registry names and a
    preferred name, if any, that is registered: [setPreferred] refuses an
    unregistered name and [register] never removes one. *)
Theorem reachable_manager_invariant :
  forall (T : Type) (mgr : Manager.t T),
    Reachable mgr ->
    NoDup (Manager.getAvailableTools mgr)
    /\ (forall n, mgr.(Manager.preferredTool) = Some n ->
          Map.has mgr.(Manager.tools) n = true).
Proof.
  intros T mgr Hr.
  induction Hr as [|mgr name tool Hr [IH1 IH2]
                   |category mgr mgr' name Hr [IH1 IH2] Hs].
  - split; [constructor | discriminate].
  - split; [now apply register_keeps_keys_distinct|].
    simpl. intros n Hn. apply has_set_keeps. auto.
  - unfold Manager.setPreferred in Hs.
    destruct (Map.has (Manager.tools mgr) name) eqn:Hh; simpl in Hs;
      [|discriminate].
    injection Hs as <-. split; [exact IH1|].
    simpl. intros n [= <-]. exact Hh.
Qed.

Lemma reachable_manager_invariant_witness :
  Reachable (Manager.register (Manager.create (LintTool unit))
                              (js "slang") Scripted.brokenLinter)
  /\ NoDup [js "slang"].
Proof.
  assert (H : Reachable (Manager.register (Manager.create (LintTool unit))
                                          (js "slang") Scripted.brokenLinter))
    by (constructor; constructor).
  split; [exact H|].
  exact (proj1 (reachable_manager_invariant H)).
Defined.

(** [setPreferred] on a name that is not registered throws, naming it. *)
Example setPreferred_unregistered :
  Manager.setPreferred (js "Simulation")
    (Manager.create (SimulationTool unit)) (js "vcs")
  = Threw (ThrownError (js "Simulation tool 'vcs' not registered")).
Proof. reflexivity. Qed.


Lemma countInvoked_probe (evs : list Event) :
  countInvoked MIsInstalled (Invoked MIsInstalled :: evs)
  = S (countInvoked MIsInstalled evs).
Proof. reflexivity. Qed.

Lemma countInvoked_warned (m : Method) (evs : list Event) :
  countInvoked m (Warned :: evs) = countInvoked m evs.
Proof. reflexivity. Qed.

Section DetectFacts.
Variables W T : Type.
Variable runner : T -> ToolRunner W.

Lemma detectLoop_returns (entries : Map.t T) :
  probesPrintable runner entries ->
  forall (acc : list jsstring) (w : World W),
  exists names evs x,
    Manager.detectLoop runner entries acc w
    = (Returned (acc ++ names),
       {| ext := x; journal := w.(journal) ++ evs |})
    /\ (forall n, In n names -> In n (Map.keys entries))
    /\ Forall probeOrWarn evs
    /\ countInvoked MIsInstalled evs = length entries.
Proof.
  induction entries as [|[name tool] rest IH]; intros Hpr acc w.
  - exists [], [], w.(ext). simpl. rewrite !app_nil_r.
    destruct w; repeat split; auto; try contradiction; constructor.
  - assert (Hrest : probesPrintable runner rest)
      by (intros n t Hin; apply (Hpr n t); now right).
    specialize (IH Hrest).
    pose proof (Hpr name tool (or_introl eq_refl) (ext w)) as Hp.
    cbn [Manager.detectLoop]. unfold bind at 1, try_catch at 1, bind at 1,
      invoke at 1.
    destruct (isInstalled (runner tool) (ext w)) as [[b|e] x1]; cbn.
    + destruct (IH (if b then acc ++ [name] else acc)
                   {| ext := x1; journal := journal w ++ [Invoked MIsInstalled] |})
        as (names & evs & x & Heq & Hin & Hev & Hc).
      rewrite Heq. cbn [journal].
      exists (if b then name :: names else names),
             (Invoked MIsInstalled :: evs), x.
      split; [|split; [|split]].
      * destruct b; rewrite <- ?app_assoc; reflexivity.
      * intros n Hn. destruct b; cbn; [destruct Hn as [<-|Hn]|]; auto.
      * constructor; [left; reflexivity | exact Hev].
      * rewrite countInvoked_probe, Hc. reflexivity.
    + destruct (IH acc
                   {| ext := x1;
                      journal := (journal w ++ [Invoked MIsInstalled])
                                 ++ [Warned] |})
        as (names & evs & x & Heq & Hin & Hev & Hc).
      specialize (Hp e eq_refl).
      assert (Hs : forall w' : World W, stringified e w' = (Returned tt, w'))
        by (intros w'; destruct e; [reflexivity .. | discriminate]).
      unfold warn, bind, ret in *. rewrite Hs. cbn in *. rewrite Heq.
      exists names, (Invoked MIsInstalled :: Warned :: evs), x.
      split; [|split; [|split]].
      * rewrite <- !app_assoc. reflexivity.
      * intros n Hn. cbn. auto.
      * constructor; [left; reflexivity|].
        constructor; [right; reflexivity | exact Hev].
      * rewrite countInvoked_probe, countInvoked_warned, Hc. reflexivity.
Qed.

Lemma detectLoop_answers (entries : Map.t T) (installed : jsstring -> bool) :
  answers runner entries installed ->
  forall (acc : list jsstring) (w : World W),
    fst (Manager.detectLoop runner entries acc w)
    = Returned (acc ++ filter installed (Map.keys entries)).
Proof.
  induction entries as [|[name tool] rest IH]; intros Hans acc w.
  - simpl. now rewrite app_nil_r.
  - cbn [Manager.detectLoop].
    pose proof (Hans name tool (or_introl eq_refl) w.(ext)) as Hp.
    unfold bind at 1, try_catch at 1, bind at 1, invoke at 1.
    destruct (isInstalled (runner tool) (ext w)) as [o x1].
    cbn in Hp. subst o. cbn.
    rewrite IH by (eapply answers_tail; eauto).
    destruct (installed name); cbn; rewrite <- ?app_assoc; reflexivity.
Qed.
End DetectFacts.

Lemma probeThrows_printable :
  probesPrintable (@lintRunner unit)
                  Fixtures.probeThrowsManager.(Manager.tools).
Proof.
  intros n t [E|[]] x e. injection E as _ <-. simpl.
  intros [= <-]. reflexivity.
Defined.

(** X8.  [detectInstalledTools] guards its probes, up to the string
    conversion in its warning.  When every value a probe throws converts
    to a string, it never throws: it probes every registered adapter
    exactly once, in registration order, invokes nothing else (a probe
    that throws costs a warning), and every name it returns is a
    registered one.  When the first probe throws a value that does not
    convert (a [Symbol], say), the template literal of the warning throws
    inside the [catch] block and [detectInstalledTools] rejects with what
    the conversion throws. *)
Theorem detectInstalledTools_total :
  forall (W T : Type) (runner : T -> ToolRunner W) (mgr : Manager.t T)
         (w : World W),
    (probesPrintable runner mgr.(Manager.tools) ->
     exists names evs x,
       Manager.detectInstalledTools runner mgr w
       = (Returned names, {| ext := x; journal := w.(journal) ++ evs |})
       /\ (forall n, In n names -> In n (Manager.getAvailableTools mgr))
       /\ Forall probeOrWarn evs
       /\ countInvoked MIsInstalled evs = length mgr.(Manager.tools))
    /\ (forall name tool rest message raised x,
          mgr.(Manager.tools) = (name, tool) :: rest ->
          isInstalled (runner tool) w.(ext)
          = (Threw (ThrownUnprintable message raised), x) ->
          Manager.detectInstalledTools runner mgr w
          = (Threw raised,
             {| ext := x;
                journal := w.(journal) ++ [Invoked MIsInstalled] |})).
Proof.
  intros W T runner mgr w. unfold Manager.detectInstalledTools. split.
  - intros Hpr.
    destruct (detectLoop_returns Hpr [] w)
      as (names & evs & x & Heq & Hin & Hev & Hc).
    exists names, evs, x. auto.
  - intros name tool rest message raised x Ht Hx. rewrite Ht.
    cbn [Manager.detectLoop].
    unfold bind at 1, try_catch at 1, bind at 1, invoke at 1.
    rewrite Hx. reflexivity.
Qed.

Lemma detectInstalledTools_total_witness :
  (exists names evs x,
      Manager.detectInstalledTools (@lintRunner unit)
                                   Fixtures.probeThrowsManager Scripted.w0
      = (Returned names, {| ext := x; journal := evs |})
      /\ (forall n, In n names -> In n [js "verilator"])
      /\ Forall probeOrWarn evs
      /\ countInvoked MIsInstalled evs = 1)
  /\ Manager.detectInstalledTools (@lintRunner unit)
       (Fixtures.only (js "verilator") symbolProbe) Scripted.w0
     = (Threw (ThrownError (js "Cannot convert a Symbol value to a string")),
        {| ext := tt; journal := [Invoked MIsInstalled] |}).
Proof.
  split.
  - exact (proj1 (@detectInstalledTools_total unit _ (@lintRunner unit)
                    Fixtures.probeThrowsManager Scripted.w0)
                 probeThrows_printable).
  - exact (proj2 (@detectInstalledTools_total unit _ (@lintRunner unit)
                    (Fixtures.only (js "verilator") symbolProbe) Scripted.w0)
                 (js "verilator") symbolProbe [] None _ tt eq_refl eq_refl).
Defined.

(** X9.  When an installed-set describes the registry,
    [detectInstalledTools] returns exactly the installed names, in
    registration order. *)
Theorem detectInstalledTools_answers :
  forall (W T : Type) (runner : T -> ToolRunner W) (mgr : Manager.t T)
         (installed : jsstring -> bool) (w : World W),
    answers runner mgr.(Manager.tools) installed ->
    fst (Manager.detectInstalledTools runner mgr w)
    = Returned (filter installed (Manager.getAvailableTools mgr)).
Proof.
  intros W T runner mgr installed w Hans.
  unfold Manager.detectInstalledTools.
  now rewrite (detectLoop_answers Hans).
Qed.

Lemma detectInstalledTools_answers_witness :
  answers (@lintRunner unit) Scripted.slangOnly Scripted.slangInstalled
  /\ fst (Manager.detectInstalledTools (@lintRunner unit)
            {| Manager.tools := Scripted.slangOnly;
               Manager.preferredTool := None |} Scripted.w0)
     = Returned [js "slang"].
Proof.
  split; [exact slangOnly_answers|].
  exact (@detectInstalledTools_answers unit _ (@lintRunner unit)
           {| Manager.tools := Scripted.slangOnly;
              Manager.preferredTool := None |}
           Scripted.slangInstalled Scripted.w0 slangOnly_answers).
Defined.

(** ** Selection against detection *)

Section SelectionFacts.
Variable T : Type.
Variable reg : Map.t T.
Variable installed : jsstring -> bool.

Lemma registeredInstalled_In (name : option jsstring) (tool : T) :
  registeredInstalled reg installed name = Some tool ->
  exists n, In (n, tool) reg /\ installed n = true.
Proof.
  destruct name as [n|]; simpl; [|discriminate].
  destruct (Map.get reg n) as [t|] eqn:G; [|discriminate].
  destruct (installed n) eqn:I; [|discriminate].
  intros [= <-]. exists n. split; [now apply Map_get_In | exact I].
Qed.

Lemma firstRegisteredInstalled_In (tool : T) :
  firstRegisteredInstalled reg installed = Some tool ->
  exists n, In (n, tool) reg /\ installed n = true.
Proof.
  induction reg as [|[n t] rest IH]; simpl; [discriminate|].
  destruct (installed n) eqn:I.
  - intros [= <-]. exists n. auto.
  - intros H. destruct (IH H) as (n' & Hin & Hi). exists n'. auto.
Qed.

Lemma firstRegisteredInstalled_None :
  firstRegisteredInstalled reg installed = None
  <-> filter installed (Map.keys reg) = [].
Proof.
  unfold Map.keys. induction reg as [|[n t] rest IH]; simpl.
  - split; reflexivity.
  - destruct (installed n); [split; discriminate | exact IH].
Qed.

Lemma precedence_In (override preferred : option jsstring) (tool : T) :
  precedence reg installed override preferred = Some tool ->
  exists n, In (n, tool) reg /\ installed n = true.
Proof.
  unfold precedence.
  destruct (registeredInstalled reg installed override) eqn:E1.
  - intros [= <-]. eapply registeredInstalled_In; eauto.
  - destruct (registeredInstalled reg installed preferred) eqn:E2.
    + intros [= <-]. eapply registeredInstalled_In; eauto.
    + apply firstRegisteredInstalled_In.
Qed.

Lemma precedence_None (override preferred : option jsstring) :
  precedence reg installed override preferred = None
  <-> filter installed (Map.keys reg) = [].
Proof.
  split.
  - unfold precedence.
    destruct (registeredInstalled reg installed override); [discriminate|].
    destruct (registeredInstalled reg installed preferred); [discriminate|].
    apply firstRegisteredInstalled_None.
  - intros Hnone.
    destruct (precedence reg installed override preferred) as [tool|] eqn:E;
      [|reflexivity].
    destruct (precedence_In _ _ E) as (n & Hin & Hi).
    assert (Hk : In n (filter installed (Map.keys reg))).
    { apply filter_In. split; [|exact Hi].
      unfold Map.keys. apply in_map_iff. exists (n, tool). auto. }
    rewrite Hnone in Hk. contradiction.
Qed.
End SelectionFacts.

(** X10.  Selection and detection agree.  When an installed-set describes the
    registry, [selectTool] returns [null] exactly when
    [detectInstalledTools] returns the empty list, whatever the override and
    the preferred name; and an adapter it returns is registered under a
    name that is installed. *)
Theorem selectTool_agrees_with_detection :
  forall (W : Type) (c : Category) (mgr : Manager.t (ToolOf W c))
         (installed : jsstring -> bool) (override : option jsstring)
         (w : World W),
    answers (runnerOf c) mgr.(Manager.tools) installed ->
    exists r,
      fst (selectToolOf c mgr override w) = Returned r
      /\ (r = None
          <-> fst (Manager.detectInstalledTools (runnerOf c) mgr w)
              = Returned [])
      /\ (forall tool, r = Some tool ->
            exists n, In (n, tool) mgr.(Manager.tools)
                      /\ installed n = true).
Proof.
  intros W c [reg preferred] installed override w Hans. simpl in Hans.
  exists (precedence reg installed (given override) (given preferred)).
  split; [destruct c; apply selectTool_answers; exact Hans|].
  unfold Manager.detectInstalledTools. cbn [Manager.tools].
  rewrite (detectLoop_answers Hans). cbn [app]. split.
  - rewrite precedence_None. split; [intros ->; reflexivity|].
    intros [= ->]. reflexivity.
  - intros tool. apply precedence_In.
Qed.

Lemma selectTool_agrees_with_detection_witness :
  answers (runnerOf Lint) Scripted.slangOnly Scripted.slangInstalled
  /\ exists r,
      fst (selectToolOf Lint
             {| Manager.tools := Scripted.slangOnly;
                Manager.preferredTool := None |} None Scripted.w0)
      = Returned r
      /\ (r = None
          <-> fst (Manager.detectInstalledTools (runnerOf Lint)
                     {| Manager.tools := Scripted.slangOnly;
                        Manager.preferredTool := None |} Scripted.w0)
              = Returned [])
      /\ (forall tool, r = Some tool ->
            exists n, In (n, tool) Scripted.slangOnly
                      /\ Scripted.slangInstalled n = true).
Proof.
  split; [exact slangOnly_answers|].
  exact (@selectTool_agrees_with_detection unit Lint
           {| Manager.tools := Scripted.slangOnly;
              Manager.preferredTool := None |}
           Scripted.slangInstalled None Scripted.w0 slangOnly_answers).
Defined.

(** ** A probe that throws *)

Lemma selectTool_first_probe_throws {W T : Type} (runner : T -> ToolRunner W)
      (mgr : Manager.t T) (name : jsstring) (tool : T) (rest : Map.t T)
      (override : option jsstring) (e : Thrown) (x : W) (w : World W) :
  mgr.(Manager.tools) = (name, tool) :: rest ->
  given override = None ->
  given mgr.(Manager.preferredTool) = None ->
  isInstalled (runner tool) w.(ext) = (Threw e, x) ->
  Manager.selectTool runner mgr override w
  = (Threw e, {| ext := x; journal := w.(journal) ++ [Invoked MIsInstalled] |}).
Proof.
  intros Ht Ho Hp Hx. unfold Manager.selectTool.
  assert (Hskip : forall nm (w0 : World W),
             given nm = None ->
             Manager.tryNamed runner mgr.(Manager.tools) nm w0
             = (Returned None, w0)).
  { intros [n|] w0 Hn; [|reflexivity]. unfold given in Hn. simpl.
    destruct (truthy n); [discriminate|reflexivity]. }
  unfold bind at 1. rewrite (Hskip _ _ Ho).
  unfold bind at 1. rewrite (Hskip _ _ Hp).
  rewrite Ht. cbn [Manager.firstInstalled]. unfold bind, invoke.
  rewrite Hx. reflexivity.
Qed.

(** X11.  [selectTool] does not guard its probes.  With no override and no
    preferred name, if the probe of the first registered adapter throws,
    then [lint], [simulate] and [synthesize] throw that same value (they
    call [selectTool] outside their [try]), although
    [detectInstalledTools] on the same manager returns whenever the values
    its probes throw convert to strings. *)
Theorem throwing_probe_escapes_operations :
  forall (W : Type) (name : jsstring) (e : Thrown) (x : W) (w : World W)
         (fs : list jsstring),
    (forall (mgr : LintManager.t W) tool rest,
        mgr.(Manager.tools) = (name, tool) :: rest ->
        given mgr.(Manager.preferredTool) = None ->
        isInstalled tool w.(ext) = (Threw e, x) ->
        fst (LintManager.lint mgr fs None w) = Threw e
        /\ (probesPrintable (@lintRunner W) mgr.(Manager.tools) ->
            exists names,
              fst (LintManager.detectInstalledTools mgr w) = Returned names))
    /\ (forall (mgr : SimulationManager.t W) tool rest testbench args,
        mgr.(Manager.tools) = (name, tool) :: rest ->
        given mgr.(Manager.preferredTool) = None ->
        isInstalled tool w.(ext) = (Threw e, x) ->
        fst (SimulationManager.simulate mgr fs testbench args None w)
        = Threw e
        /\ (probesPrintable (@simRunner W) mgr.(Manager.tools) ->
            exists names,
              fst (SimulationManager.detectInstalledTools mgr w)
              = Returned names))
    /\ (forall (mgr : SynthesisManager.t W) tool rest constraints,
        mgr.(Manager.tools) = (name, tool) :: rest ->
        given mgr.(Manager.preferredTool) = None ->
        isInstalled tool w.(ext) = (Threw e, x) ->
        fst (SynthesisManager.synthesize mgr fs constraints None w)
        = Threw e
        /\ (probesPrintable (@synthRunner W) mgr.(Manager.tools) ->
            exists names,
              fst (SynthesisManager.detectInstalledTools mgr w)
              = Returned names)).
Proof.
  intros W name e x w fs. split; [|split].
  - intros mgr tool rest Ht Hp Hx. split.
    + unfold LintManager.lint, LintManager.selectTool. unfold bind at 1.
      rewrite (@selectTool_first_probe_throws _ _ (@lintRunner W) mgr name tool
                 rest None e x w Ht eq_refl Hp Hx).
      reflexivity.
    + intros Hpr. destruct (detectLoop_returns Hpr [] w)
        as (names & evs & x' & Heq & _).
      exists names. unfold LintManager.detectInstalledTools,
        Manager.detectInstalledTools. now rewrite Heq.
  - intros mgr tool rest testbench args Ht Hp Hx. split.
    + unfold SimulationManager.simulate, SimulationManager.selectTool.
      unfold bind at 1.
      rewrite (@selectTool_first_probe_throws _ _ (@simRunner W) mgr name tool
                 rest None e x w Ht eq_refl Hp Hx).
      reflexivity.
    + intros Hpr. destruct (detectLoop_returns Hpr [] w)
        as (names & evs & x' & Heq & _).
      exists names. unfold SimulationManager.detectInstalledTools,
        Manager.detectInstalledTools. now rewrite Heq.
  - intros mgr tool rest constraints Ht Hp Hx. split.
    + unfold SynthesisManager.synthesize, SynthesisManager.selectTool.
      unfold bind at 1.
      rewrite (@selectTool_first_probe_throws _ _ (@synthRunner W) mgr name tool
                 rest None e x w Ht eq_refl Hp Hx).
      reflexivity.
    + intros Hpr. destruct (detectLoop_returns Hpr [] w)
        as (names & evs & x' & Heq & _).
      exists names. unfold SynthesisManager.detectInstalledTools,
        Manager.detectInstalledTools. now rewrite Heq.
Qed.

Lemma throwing_probe_escapes_operations_witness :
  fst (LintManager.lint Fixtures.probeThrowsManager [js "top.v"] None
                        Scripted.w0) = Threw Scripted.eacces
  /\ exists names,
      fst (LintManager.detectInstalledTools Fixtures.probeThrowsManager
                                            Scripted.w0) = Returned names.
Proof.
  pose proof (proj1 (@throwing_probe_escapes_operations unit (js "verilator")
                       Scripted.eacces tt Scripted.w0 [js "top.v"])
                    Fixtures.probeThrowsManager Fixtures.probeThrows []
                    eq_refl eq_refl eq_refl) as [Hlint Hdetect].
  split; [exact Hlint | exact (Hdetect probeThrows_printable)].
Defined.

(** ** The other two operations *)

Lemma selectTool_none {W T : Type} (runner : T -> ToolRunner W)
      (mgr : Manager.t T) (override : option jsstring) (w : World W) :
  answers runner mgr.(Manager.tools) (fun _ => false) ->
  exists probes,
    Manager.selectTool runner mgr override w
    = (Returned None,
       {| ext := ext (snd (Manager.selectTool runner mgr override w));
          journal := w.(journal) ++ probes |})
    /\ probesOnly probes.
Proof.
  intros Hans. destruct mgr as [reg preferred]. simpl in Hans.
  pose proof (@selectTool_answers _ _ _ _ _ preferred override w Hans) as Hsel.
  assert (Hnone : precedence reg (fun _ => false) (given override)
                             (given preferred) = None)
    by (apply precedence_None; induction (Map.keys reg); auto).
  rewrite Hnone in Hsel.
  destruct (selectTool_journal runner reg preferred override w)
    as [probes [Hj Hp]].
  exists probes. split; [|exact Hp].
  destruct (Manager.selectTool runner _ override w) as [o [x j]].
  simpl in *. unfold extends in Hj. simpl in Hj. congruence.
Qed.

(** X12.  With no installed adapter (every probe answers false, the empty
    registry included), [simulate] returns
    [{ success: false, passed: false, stderr: "No simulation tool available" }]
    and [synthesize] returns
    [{ success: false, stderr: "No synthesis tool available" }]; neither
    throws, and neither invokes anything but probes. *)
Theorem no_tool_available_simulate_synthesize :
  forall (W : Type) (fs : list jsstring) (override : option jsstring)
         (w : World W),
    (forall (mgr : SimulationManager.t W) testbench args,
        answers (@simRunner W) mgr.(Manager.tools) (fun _ => false) ->
        exists probes x,
          SimulationManager.simulate mgr fs testbench args override w
          = (Returned {| simBase :=
                           {| success := false; stdout := None;
                              stderr := Some (js "No simulation tool available");
                              exitCode := None; errors := None |};
                         passed := false; coverage := None;
                         waveform := None |},
             {| ext := x; journal := w.(journal) ++ probes |})
          /\ probesOnly probes)
    /\ (forall (mgr : SynthesisManager.t W) constraints,
        answers (@synthRunner W) mgr.(Manager.tools) (fun _ => false) ->
        exists probes x,
          SynthesisManager.synthesize mgr fs constraints override w
          = (Returned {| synthBase :=
                           {| success := false; stdout := None;
                              stderr := Some (js "No synthesis tool available");
                              exitCode := None; errors := None |};
                         netlist := None; timing := None; ppa := None |},
             {| ext := x; journal := w.(journal) ++ probes |})
          /\ probesOnly probes).
Proof.
  intros W fs override w. split.
  - intros mgr testbench args Hans.
    destruct (@selectTool_none _ _ (@simRunner W) mgr override w Hans)
      as [probes [Heq Hp]].
    exists probes. eexists. split; [|exact Hp].
    unfold SimulationManager.simulate, SimulationManager.selectTool.
    unfold bind at 1. rewrite Heq. reflexivity.
  - intros mgr constraints Hans.
    destruct (@selectTool_none _ _ (@synthRunner W) mgr override w Hans)
      as [probes [Heq Hp]].
    exists probes. eexists. split; [|exact Hp].
    unfold SynthesisManager.synthesize, SynthesisManager.selectTool.
    unfold bind at 1. rewrite Heq. reflexivity.
Qed.

Lemma no_tool_available_simulate_synthesize_witness :
  answers (@simRunner unit) (Map.empty (SimulationTool unit)) (fun _ => false)
  /\ exists probes x,
      SimulationManager.simulate (Manager.create (SimulationTool unit))
        [js "top.v"] (js "tb.v") None None Scripted.w0
      = (Returned {| simBase :=
                       {| success := false; stdout := None;
                          stderr := Some (js "No simulation tool available");
                          exitCode := None; errors := None |};
                     passed := false; coverage := None; waveform := None |},
         {| ext := x; journal := [] ++ probes |})
      /\ probesOnly probes.
Proof.
  assert (H : answers (@simRunner unit) (Map.empty (SimulationTool unit))
                      (fun _ => false))
    by (intros n tool []).
  split; [exact H|].
  exact (proj1 (@no_tool_available_simulate_synthesize unit [js "top.v"] None
                  Scripted.w0)
               (Manager.create (SimulationTool unit)) (js "tb.v") None H).
Defined.

(** X13.  Coverage in [simulate].  After a successful compile and a
    simulation that returned [r]: if the adapter has no [collectCoverage],
    or [r] is unsuccessful, the manager returns [r] as it is and invokes
    nothing more; otherwise it invokes [collectCoverage] once and returns
    [r] with the collected coverage, or, if that throws (anything), warns
    and returns [r] unchanged. *)
Theorem simulate_coverage :
  forall (W : Type) (mgr : SimulationManager.t W) (fs : list jsstring)
         (testbench : jsstring) (args : option (list jsstring))
         (override : option jsstring) (w w1 : World W)
         (tool : SimulationTool W) (cr : CompileResult) (x x1 : W)
         (r : SimulationResult),
    SimulationManager.selectTool mgr override w = (Returned (Some tool), w1) ->
    compile tool fs w1.(ext) = (Returned cr, x) ->
    cr.(success) = true ->
    simulate tool testbench args x = (Returned r, x1) ->
    let ran := w1.(journal) ++ [Invoked MCompile; Invoked MSimulate] in
    ((collectCoverage tool = None \/ r.(success) = false) ->
       SimulationManager.simulate mgr fs testbench args override w
       = (Returned r, {| ext := x1; journal := ran |}))
    /\ (forall collect,
          collectCoverage tool = Some collect ->
          r.(success) = true ->
          (forall c x2,
              collect x1 = (Returned c, x2) ->
              SimulationManager.simulate mgr fs testbench args override w
              = (Returned {| simBase := r.(simBase); passed := r.(passed);
                             coverage := Some c; waveform := r.(waveform) |},
                 {| ext := x2;
                    journal := ran ++ [Invoked MCollectCoverage] |}))
          /\ (forall e x2,
              collect x1 = (Threw e, x2) ->
              SimulationManager.simulate mgr fs testbench args override w
              = (Returned r,
                 {| ext := x2;
                    journal := ran ++ [Invoked MCollectCoverage; Warned] |}))).
Proof.
  intros W mgr fs testbench args override w w1 tool cr x x1 r
         Hsel Hc Hok Hs ran.
  assert (Hstart : forall k,
             (match collectCoverage tool with
              | Some collect =>
                  if r.(success) then
                    try_catch
                      (c <- invoke MCollectCoverage collect ;;
                       ret (SimulationManager.setCoverage r c))
                      (fun _ => warn ;;; ret r)
                  else ret r
              | None => ret r
              end) {| ext := x1; journal := ran |} = (Returned (fst k), snd k) ->
             SimulationManager.simulate mgr fs testbench args override w
             = (Returned (fst k), snd k)).
  { intros k Hk. unfold SimulationManager.simulate. unfold bind at 1.
    change (Manager.selectTool (@simRunner W) mgr override w)
      with (SimulationManager.selectTool mgr override w).
    rewrite Hsel. unfold try_catch at 1. unfold bind at 1. unfold invoke at 1.
    rewrite Hc. cbn [negb]. rewrite Hok. cbn [negb].
    unfold bind at 1. unfold invoke at 1. cbn [ext journal]. rewrite Hs.
    subst ran. rewrite <- app_assoc. cbn [app]. rewrite Hk. reflexivity. }
  split.
  - intros Hskip. apply (Hstart (r, _)).
    destruct Hskip as [-> | ->]; [reflexivity|].
    destruct (collectCoverage tool); reflexivity.
  - intros collect Hcol Hr. split.
    + intros c x2 Hc2. apply (Hstart (_, _)).
      rewrite Hcol, Hr. unfold try_catch, bind, invoke. cbn [ext journal].
      rewrite Hc2. reflexivity.
    + intros e x2 Hc2. apply (Hstart (r, _)).
      rewrite Hcol, Hr. unfold try_catch, bind, invoke. cbn [ext journal].
      rewrite Hc2. unfold warn, ret. cbn [ext journal].
      rewrite <- app_assoc. reflexivity.
Qed.

Lemma simulate_coverage_witness :
  SimulationManager.simulate
    (Fixtures.only (js "verilator")
       (Fixtures.covering true (Some (Threw ThrownNullish))))
    [js "top.v"] (js "tb") None None Scripted.w0
  = (Returned (Fixtures.simulated true),
     {| ext := tt;
        journal := ([Invoked MIsInstalled]
                    ++ [Invoked MCompile; Invoked MSimulate])
                   ++ [Invoked MCollectCoverage; Warned] |}).
Proof.
  exact (proj2 (proj2 (@simulate_coverage unit
           (Fixtures.only (js "verilator")
              (Fixtures.covering true (Some (Threw ThrownNullish))))
           [js "top.v"] (js "tb") None None Scripted.w0
           {| ext := tt; journal := [Invoked MIsInstalled] |}
           (Fixtures.covering true (Some (Threw ThrownNullish)))
           Fixtures.compiled tt tt (Fixtures.simulated true)
           eq_refl eq_refl eq_refl eq_refl)
         (Scripted.always (Threw ThrownNullish)) eq_refl eq_refl)
         ThrownNullish tt eq_refl).
Defined.

(** X14.  Enrichment in [synthesize].  After a core step that returned
    [core]: if [core] is unsuccessful or has no (non-empty) netlist, the
    manager returns [core] as it is and invokes neither analysis; if it is
    successful with a netlist and both analyses return, the result is
    [core] with [timing] and [ppa] set to what they returned, in that
    order of invocation. *)
Theorem synthesize_enrichment :
  forall (W : Type) (mgr : SynthesisManager.t W) (design : list jsstring)
         (constraints : jsstring) (override : option jsstring)
         (w w1 : World W) (tool : SynthesisTool W) (core : SynthesisResult)
         (x : W),
    SynthesisManager.selectTool mgr override w = (Returned (Some tool), w1) ->
    synthesize tool design constraints w1.(ext) = (Returned core, x) ->
    ((core.(success) = false \/ truthy_opt core.(netlist) = false) ->
       SynthesisManager.synthesize mgr design constraints override w
       = (Returned core,
          {| ext := x; journal := w1.(journal) ++ [Invoked MSynthesize] |}))
    /\ (forall net tm x1 p x2,
          core.(success) = true ->
          core.(netlist) = Some net -> truthy net = true ->
          analyzeTiming tool net x = (Returned tm, x1) ->
          estimatePPA tool net x1 = (Returned p, x2) ->
          SynthesisManager.synthesize mgr design constraints override w
          = (Returned {| synthBase := core.(synthBase);
                         netlist := core.(netlist);
                         timing := Some tm; ppa := Some p |},
             {| ext := x2;
                journal := w1.(journal)
                           ++ [Invoked MSynthesize; Invoked MAnalyzeTiming;
                               Invoked MEstimatePPA] |})).
Proof.
  intros W mgr design constraints override w w1 tool core x Hsel Hs.
  assert (Hstart :
            SynthesisManager.synthesize mgr design constraints override w
            = try_catch
                (match core.(netlist) with
                 | Some n =>
                     if core.(success) && truthy n
                     then SynthesisManager.enrich tool core n
                     else ret core
                 | None => ret core
                 end)
                (fun error =>
                   msg <- message_of error ;;
                   ret (SynthesisManager.failed msg))
                {| ext := x;
                   journal := w1.(journal) ++ [Invoked MSynthesize] |}).
  { unfold SynthesisManager.synthesize. unfold bind at 1.
    change (Manager.selectTool (@synthRunner W) mgr override w)
      with (SynthesisManager.selectTool mgr override w).
    rewrite Hsel. unfold try_catch, bind, invoke. rewrite Hs. reflexivity. }
  rewrite Hstart. split.
  - intros [Hf | Hn].
    + rewrite Hf. destruct (netlist core); reflexivity.
    + destruct (netlist core) as [n|]; [|reflexivity].
      simpl in Hn. rewrite Hn, andb_false_r. reflexivity.
  - intros net tm x1 p x2 Hok Hnet Htr Ht Hp.
    rewrite Hnet, Hok, Htr. cbn [andb].
    unfold SynthesisManager.enrich, try_catch, bind, invoke.
    cbn [ext journal]. rewrite Ht. cbn [ext journal]. rewrite Hp.
    unfold ret, SynthesisManager.setPpa, SynthesisManager.setTiming.
    cbn [synthBase netlist timing ppa]. rewrite <- !app_assoc, ?Hnet.
    reflexivity.
Qed.

Lemma synthesize_enrichment_witness :
  SynthesisManager.synthesize
    (Scripted.yosysOnly
       (Scripted.synthesizer true (Returned (Scripted.synthesized None))
          (Returned Scripted.someTiming) (Returned Scripted.somePpa)))
    [js "top.v"] (js "top.sdc") None Scripted.w0
  = (Returned {| synthBase := Scripted.synthesized None;
                 netlist := Some (js "design.v");
                 timing := Some Scripted.someTiming;
                 ppa := Some Scripted.somePpa |},
     {| ext := tt;
        journal := [Invoked MIsInstalled]
                   ++ [Invoked MSynthesize; Invoked MAnalyzeTiming;
                       Invoked MEstimatePPA] |}).
Proof.
  exact (proj2 (@synthesize_enrichment unit
           (Scripted.yosysOnly
              (Scripted.synthesizer true (Returned (Scripted.synthesized None))
                 (Returned Scripted.someTiming) (Returned Scripted.somePpa)))
           [js "top.v"] (js "top.sdc") None Scripted.w0
           {| ext := tt; journal := [Invoked MIsInstalled] |}
           (Scripted.synthesizer true (Returned (Scripted.synthesized None))
              (Returned Scripted.someTiming) (Returned Scripted.somePpa))
           (Scripted.synthesized None) tt eq_refl eq_refl)
         (js "design.v") Scripted.someTiming tt Scripted.somePpa tt
         eq_refl eq_refl eq_refl eq_refl eq_refl).
Defined.

(** ** The factories *)

Lemma arrayIncludes_In (xs : list jsstring) (x : jsstring) :
  arrayIncludes xs x = true <-> In x xs.
Proof.
  unfold arrayIncludes. rewrite existsb_exists. split.
  - intros (k & Hin & Hk). apply str_eqb_eq in Hk. now subst.
  - intros Hin. exists x. split; [exact Hin | apply str_eqb_refl].
Qed.

Lemma arrayIncludes_filter {V} (reg : Map.t V) (installed : jsstring -> bool)
      (n : jsstring) :
  arrayIncludes (filter installed (Map.keys reg)) n
  = Map.has reg n && installed n.
Proof.
  apply eq_true_iff_eq.
  rewrite arrayIncludes_In, filter_In, andb_true_iff, Map_has_In.
  reflexivity.
Qed.

Lemma setPreferred_detected {T : Type} (category : jsstring)
      (mgr : Manager.t T) (names : list jsstring) (n : jsstring) :
  (forall k, In k names -> In k (Manager.getAvailableTools mgr)) ->
  arrayIncludes names n = true ->
  Manager.setPreferred category mgr n
  = Returned {| Manager.tools := mgr.(Manager.tools);
                Manager.preferredTool := Some n |}.
Proof.
  intros Hsub Hin. apply arrayIncludes_In in Hin. apply Hsub in Hin.
  apply Map_has_In in Hin. unfold Manager.setPreferred. now rewrite Hin.
Qed.

Lemma registerLoaded_run {W T : Type} (mgr : Manager.t T) (name : jsstring)
      (loaded : option T) (w : World W) :
  exists w', registerLoaded mgr name loaded w
             = (Returned (match loaded with
                          | Some tool => Manager.register mgr name tool
                          | None => mgr
                          end), w')
             /\ ext w' = ext w.
Proof.
  destruct loaded; simpl; eexists; split; reflexivity.
Qed.

Lemma registered_reachable {T : Type} (mgr : Manager.t T) (name : jsstring)
      (loaded : option T) :
  Reachable mgr ->
  Reachable (match loaded with
             | Some tool => Manager.register mgr name tool
             | None => mgr
             end).
Proof. destruct loaded; [now constructor | auto]. Qed.

(** X15.  The three factories never throw, whichever modules load,
    whether the probes of the loaded adapters return or throw, as long as
    what they throw converts to a string (a [setPreferred] they call is
    always on a name they have just detected, hence registered).  The
    manager they return holds the adapters that loaded, in the factory's
    registration order, and is one of the reachable managers. *)
Theorem factories_total :
  forall (W : Type) (w : World W),
    (forall verilator verible slang : option (LintTool W),
        probesPrintable (@lintRunner W)
          (loadedRegistry [(js "verilator", verilator);
                           (js "verible", verible); (js "slang", slang)]) ->
        exists mgr,
          fst (createLintManager verilator verible slang w) = Returned mgr
          /\ mgr.(Manager.tools)
             = loadedRegistry [(js "verilator", verilator);
                               (js "verible", verible); (js "slang", slang)]
          /\ Reachable mgr)
    /\ (forall verilator iverilog : option (SimulationTool W),
        probesPrintable (@simRunner W)
          (loadedRegistry [(js "verilator", verilator);
                           (js "iverilog", iverilog)]) ->
        exists mgr,
          fst (createSimulationManager verilator iverilog w) = Returned mgr
          /\ mgr.(Manager.tools)
             = loadedRegistry [(js "verilator", verilator);
                               (js "iverilog", iverilog)]
          /\ Reachable mgr)
    /\ (forall yosys : option (SynthesisTool W),
        probesPrintable (@synthRunner W)
          (loadedRegistry [(js "yosys", yosys)]) ->
        exists mgr,
          fst (createSynthesisManager yosys w) = Returned mgr
          /\ mgr.(Manager.tools) = loadedRegistry [(js "yosys", yosys)]
          /\ Reachable mgr).
Proof.
  intros W w. split; [|split].
  - intros verilator verible slang Hpr. unfold createLintManager.
    destruct (registerLoaded_run (Manager.create (LintTool W))
                (js "verilator") verilator w) as (w1 & E1 & _).
    unfold bind at 1. rewrite E1.
    set (m1 := match verilator with
               | Some tool => Manager.register _ _ tool
               | None => _
               end).
    destruct (registerLoaded_run m1 (js "verible") verible w1)
      as (w2 & E2 & _).
    unfold bind at 1. rewrite E2.
    set (m2 := match verible with
               | Some tool => Manager.register _ _ tool
               | None => _
               end).
    destruct (registerLoaded_run m2 (js "slang") slang w2) as (w3 & E3 & _).
    unfold bind at 1. rewrite E3.
    set (m3 := match slang with
               | Some tool => Manager.register _ _ tool
               | None => _
               end).
    assert (Hr : Reachable m3)
      by (repeat apply registered_reachable; constructor).
    assert (Ht : m3.(Manager.tools)
                 = loadedRegistry [(js "verilator", verilator);
                                   (js "verible", verible);
                                   (js "slang", slang)])
      by (subst m3 m2 m1; destruct verilator, verible, slang; reflexivity).
    rewrite <- Ht in Hpr.
    destruct (detectLoop_returns Hpr [] w3)
      as (names & evs & x & Heq & Hsub & _).
    unfold bind at 1.
    change (LintManager.detectInstalledTools m3 w3)
      with (Manager.detectLoop (@lintRunner W) m3.(Manager.tools) [] w3).
    rewrite Heq. cbn [app].
    assert (Hpick : forall n,
               arrayIncludes names n = true ->
               exists mgr,
                 LintManager.setPreferred m3 n = Returned mgr
                 /\ mgr.(Manager.tools) = m3.(Manager.tools)
                 /\ Reachable mgr).
    { intros n Hn. eexists. split;
        [apply (setPreferred_detected (js "Lint") m3 names n Hsub Hn)|].
      split; [reflexivity|].
      eapply ReachSetPreferred; [exact Hr|].
      apply (setPreferred_detected (js "Lint") m3 names n Hsub Hn). }
    repeat match goal with
           | |- context [if arrayIncludes names ?n then _ else _] =>
               destruct (arrayIncludes names n) eqn:?
           end;
      try (match goal with
           | H : arrayIncludes names ?n = true
             |- context [LintManager.setPreferred m3 ?n] =>
               destruct (Hpick n H) as (mgr & Hm & Hmt & Hmr);
               exists mgr; unfold lift; rewrite Hm;
               split; [reflexivity|]; split; [congruence | exact Hmr]
           end).
    exists m3. auto.
  - intros verilator iverilog Hpr. unfold createSimulationManager.
    destruct (registerLoaded_run (Manager.create (SimulationTool W))
                (js "verilator") verilator w) as (w1 & E1 & _).
    unfold bind at 1. rewrite E1.
    set (m1 := match verilator with
               | Some tool => Manager.register _ _ tool
               | None => _
               end).
    destruct (registerLoaded_run m1 (js "iverilog") iverilog w1)
      as (w2 & E2 & _).
    unfold bind at 1. rewrite E2.
    set (m2 := match iverilog with
               | Some tool => Manager.register _ _ tool
               | None => _
               end).
    assert (Hr : Reachable m2)
      by (repeat apply registered_reachable; constructor).
    assert (Ht : m2.(Manager.tools)
                 = loadedRegistry [(js "verilator", verilator);
                                   (js "iverilog", iverilog)])
      by (subst m2 m1; destruct verilator, iverilog; reflexivity).
    rewrite <- Ht in Hpr.
    destruct (detectLoop_returns Hpr [] w2)
      as (names & evs & x & Heq & Hsub & _).
    unfold bind at 1.
    change (SimulationManager.detectInstalledTools m2 w2)
      with (Manager.detectLoop (@simRunner W) m2.(Manager.tools) [] w2).
    rewrite Heq. cbn [app].
    assert (Hpick : forall n,
               arrayIncludes names n = true ->
               exists mgr,
                 SimulationManager.setPreferred m2 n = Returned mgr
                 /\ mgr.(Manager.tools) = m2.(Manager.tools)
                 /\ Reachable mgr).
    { intros n Hn. eexists. split;
        [apply (setPreferred_detected (js "Simulation") m2 names n Hsub Hn)|].
      split; [reflexivity|].
      eapply ReachSetPreferred; [exact Hr|].
      apply (setPreferred_detected (js "Simulation") m2 names n Hsub Hn). }
    repeat match goal with
           | |- context [if arrayIncludes names ?n then _ else _] =>
               destruct (arrayIncludes names n) eqn:?
           end;
      try (match goal with
           | H : arrayIncludes names ?n = true
             |- context [SimulationManager.setPreferred m2 ?n] =>
               destruct (Hpick n H) as (mgr & Hm & Hmt & Hmr);
               exists mgr; unfold lift; rewrite Hm;
               split; [reflexivity|]; split; [congruence | exact Hmr]
           end).
    exists m2. auto.
  - intros yosys Hpr. unfold createSynthesisManager.
    destruct (registerLoaded_run (Manager.create (SynthesisTool W))
                (js "yosys") yosys w) as (w1 & E1 & _).
    unfold bind at 1. rewrite E1.
    set (m1 := match yosys with
               | Some tool => Manager.register _ _ tool
               | None => _
               end).
    assert (Hr : Reachable m1)
      by (repeat apply registered_reachable; constructor).
    assert (Ht : m1.(Manager.tools) = loadedRegistry [(js "yosys", yosys)])
      by (subst m1; destruct yosys; reflexivity).
    rewrite <- Ht in Hpr.
    destruct (detectLoop_returns Hpr [] w1)
      as (names & evs & x & Heq & Hsub & _).
    unfold bind at 1.
    change (SynthesisManager.detectInstalledTools m1 w1)
      with (Manager.detectLoop (@synthRunner W) m1.(Manager.tools) [] w1).
    rewrite Heq. cbn [app].
    destruct (arrayIncludes names (js "yosys")) eqn:Hy.
    + exists {| Manager.tools := m1.(Manager.tools);
                Manager.preferredTool := Some (js "yosys") |}.
      unfold lift, SynthesisManager.setPreferred.
      rewrite (setPreferred_detected (js "Synthesis") m1 names _ Hsub Hy).
      split; [reflexivity|]. split; [exact Ht|].
      eapply ReachSetPreferred; [exact Hr|].
      apply (setPreferred_detected (js "Synthesis") m1 names _ Hsub Hy).
    + exists m1. auto.
Qed.

Lemma factories_total_witness :
  probesPrintable (@lintRunner unit)
    (loadedRegistry [(js "verilator", Some Fixtures.probeThrows);
                     (js "verible", None); (js "slang", None)])
  /\ exists mgr,
      fst (createLintManager (Some Fixtures.probeThrows) None None
                             Scripted.w0) = Returned mgr
      /\ mgr.(Manager.tools)
         = loadedRegistry [(js "verilator", Some Fixtures.probeThrows);
                           (js "verible", None); (js "slang", None)]
      /\ Reachable mgr.
Proof.
  split; [exact probeThrows_printable|].
  exact (proj1 (@factories_total unit Scripted.w0)
               (Some Fixtures.probeThrows) None None probeThrows_printable).
Defined.

Lemma createLintManager_run {W : Type}
      (verilator verible slang : option (LintTool W))
      (installed : jsstring -> bool) (w : World W) :
  let reg := loadedRegistry [(js "verilator", verilator);
                             (js "verible", verible); (js "slang", slang)] in
  answers (@lintRunner W) reg installed ->
  fst (createLintManager verilator verible slang w)
  = Returned {| Manager.tools := reg;
                Manager.preferredTool :=
                  firstPreferred reg installed
                    [js "verilator"; js "slang"; js "verible"] |}.
Proof.
  intros reg Hans. unfold createLintManager.
  destruct (registerLoaded_run (Manager.create (LintTool W))
              (js "verilator") verilator w) as (w1 & E1 & _).
  unfold bind at 1. rewrite E1.
  set (m1 := match verilator with
             | Some tool => Manager.register _ _ tool
             | None => _
             end).
  destruct (registerLoaded_run m1 (js "verible") verible w1)
    as (w2 & E2 & _).
  unfold bind at 1. rewrite E2.
  set (m2 := match verible with
             | Some tool => Manager.register _ _ tool
             | None => _
             end).
  destruct (registerLoaded_run m2 (js "slang") slang w2) as (w3 & E3 & _).
  unfold bind at 1. rewrite E3.
  set (m3 := match slang with
             | Some tool => Manager.register _ _ tool
             | None => _
             end).
  assert (Hm : m3 = {| Manager.tools := reg; Manager.preferredTool := None |})
    by (subst m3 m2 m1 reg; destruct verilator, verible, slang; reflexivity).
  rewrite Hm.
  erewrite bind_returned
    by (apply (@detectLoop_answers _ _ (@lintRunner W) reg installed Hans)).
  cbn [app]. rewrite !arrayIncludes_filter.
  unfold lift, LintManager.setPreferred, Manager.setPreferred.
  cbn [Manager.tools firstPreferred].
  destruct (Map.has reg (js "verilator")) eqn:H1;
    [destruct (installed (js "verilator")); cbn [andb negb fst];
     [reflexivity|] | cbn [andb negb fst]];
    (destruct (Map.has reg (js "slang")) eqn:H2;
     [destruct (installed (js "slang")); cbn [andb negb fst];
      [reflexivity|] | cbn [andb negb fst]]);
    (destruct (Map.has reg (js "verible")) eqn:H3;
     [destruct (installed (js "verible")); cbn [andb negb fst];
      reflexivity | reflexivity]).
Qed.

Lemma firstPreferred_Some {T} (reg : Map.t T) (installed : jsstring -> bool)
      (priority : list jsstring) (n : jsstring) :
  firstPreferred reg installed priority = Some n ->
  In n priority /\ Map.has reg n = true /\ installed n = true.
Proof.
  induction priority as [|p rest IH]; simpl; [discriminate|].
  destruct (Map.has reg p && installed p) eqn:E.
  - intros [= <-]. apply andb_true_iff in E. tauto.
  - intros H. destruct (IH H) as (H1 & H2 & H3). auto.
Qed.

Lemma firstPreferred_None {T} (reg : Map.t T) (installed : jsstring -> bool)
      (priority : list jsstring) :
  firstPreferred reg installed priority = None ->
  forall n, In n priority -> Map.has reg n && installed n = false.
Proof.
  induction priority as [|p rest IH]; simpl; [contradiction|].
  destruct (Map.has reg p && installed p) eqn:E; [discriminate|].
  intros H n [<-|Hn]; auto.
Qed.

Lemma loadedRegistry_keys {T} (entries : list (jsstring * option T))
      (k : jsstring) :
  In k (Map.keys (loadedRegistry entries)) -> In k (map fst entries).
Proof.
  unfold Map.keys. induction entries as [|[n [t|]] rest IH]; simpl; auto.
  intros [H|H]; auto.
Qed.

(** The selection a manager makes, without override, when its preferred
    name is the first installed name of a priority list that covers the
    registry. *)
Lemma select_preferred {W T} (runner : T -> ToolRunner W) (reg : Map.t T)
      (installed : jsstring -> bool) (priority : list jsstring)
      (w : World W) :
  answers runner reg installed ->
  Forall (fun n => truthy n = true) priority ->
  (forall k, In k (Map.keys reg) -> In k priority) ->
  fst (Manager.selectTool runner
         {| Manager.tools := reg;
            Manager.preferredTool := firstPreferred reg installed priority |}
         None w)
  = Returned (match firstPreferred reg installed priority with
              | Some n => Map.get reg n
              | None => None
              end).
Proof.
  intros Hans Htruthy Hcover. rewrite (selectTool_answers _ _ _ Hans).
  f_equal. unfold precedence. cbn [given registeredInstalled].
  destruct (firstPreferred reg installed priority) as [n|] eqn:E.
  - destruct (firstPreferred_Some _ _ _ E) as (Hin & Hhas & Hi).
    rewrite Forall_forall in Htruthy. cbn [given]. rewrite (Htruthy _ Hin).
    cbn [registeredInstalled]. rewrite Hi.
    apply Map_has_get in Hhas as [t Ht]. rewrite Ht. reflexivity.
  - cbn [given registeredInstalled].
    apply firstRegisteredInstalled_None.
    pose proof (firstPreferred_None _ _ _ E) as Hnone.
    assert (Hall : forall k, In k (Map.keys reg) -> installed k = false).
    { intros k Hk. specialize (Hnone k (Hcover k Hk)).
      apply Map_has_In in Hk. rewrite Hk in Hnone. exact Hnone. }
    clear Hcover Hnone. induction (Map.keys reg) as [|k ks IH];
      [reflexivity|].
    simpl. rewrite (Hall k (or_introl eq_refl)). apply IH.
    intros k' Hk'. apply Hall. now right.
Qed.

(** X16.  The default lint manager.  When an installed-set describes the
    adapters that loaded, [createLintManager] returns the manager holding
    them (in the order verilator, verible, slang) whose preferred name is
    the first installed one of verilator, slang, verible; so [lint] without
    override runs verilator if it is installed, else slang, else verible
    (slang before verible, although verible is registered first), else no
    tool. *)
Theorem createLintManager_preference :
  forall (W : Type) (verilator verible slang : option (LintTool W))
         (installed : jsstring -> bool) (w : World W),
    let reg := loadedRegistry [(js "verilator", verilator);
                               (js "verible", verible);
                               (js "slang", slang)] in
    let preferred := firstPreferred reg installed
                       [js "verilator"; js "slang"; js "verible"] in
    answers (@lintRunner W) reg installed ->
    fst (createLintManager verilator verible slang w)
    = Returned {| Manager.tools := reg; Manager.preferredTool := preferred |}
    /\ forall w2,
        fst (LintManager.selectTool
               {| Manager.tools := reg; Manager.preferredTool := preferred |}
               None w2)
        = Returned (match preferred with
                    | Some n => Map.get reg n
                    | None => None
                    end).
Proof.
  intros W verilator verible slang installed w reg preferred Hans.
  split; [now apply createLintManager_run|].
  intros w2. apply select_preferred; [exact Hans| |].
  - repeat constructor.
  - intros k Hk. apply loadedRegistry_keys in Hk. cbn in Hk. cbn. tauto.
Qed.

Lemma lintTrio_answers :
  answers (@lintRunner unit) (loadedRegistry Fixtures.lintTrio)
          Fixtures.noVerilator.
Proof.
  intros n tool [H|[H|[H|[]]]] x; injection H as <- <-; reflexivity.
Defined.

Lemma createLintManager_preference_witness :
  answers (@lintRunner unit) (loadedRegistry Fixtures.lintTrio)
          Fixtures.noVerilator
  /\ (exists mgr,
         fst (createLintManager
                (Some (Scripted.linter false
                         (Returned (Scripted.clean (js "verilator")))))
                (Some (Scripted.linter true
                         (Returned (Scripted.clean (js "verible")))))
                (Some (Scripted.linter true
                         (Returned (Scripted.clean (js "slang")))))
                Scripted.w0) = Returned mgr
         /\ Manager.getAvailableTools mgr
            = [js "verilator"; js "verible"; js "slang"]
         /\ mgr.(Manager.preferredTool) = Some (js "slang")).
Proof.
  split; [exact lintTrio_answers|].
  eexists. split.
  - exact (proj1 (@createLintManager_preference unit _ _ _
                    Fixtures.noVerilator Scripted.w0 lintTrio_answers)).
  - split; reflexivity.
Defined.

(** X17.  The default simulation and synthesis managers.  When an
    installed-set describes the adapters that loaded,
    [createSimulationManager] prefers verilator if installed, else iverilog,
    and [createSynthesisManager] prefers yosys if installed; [simulate] and
    [synthesize] without override then select that adapter, or none when
    nothing is installed. *)
Theorem createSimulationManager_preference :
  forall (W : Type) (installed : jsstring -> bool) (w : World W),
    (forall verilator iverilog : option (SimulationTool W),
        let reg := loadedRegistry [(js "verilator", verilator);
                                   (js "iverilog", iverilog)] in
        let preferred := firstPreferred reg installed
                           [js "verilator"; js "iverilog"] in
        answers (@simRunner W) reg installed ->
        fst (createSimulationManager verilator iverilog w)
        = Returned {| Manager.tools := reg;
                      Manager.preferredTool := preferred |}
        /\ forall w2,
            fst (SimulationManager.selectTool
                   {| Manager.tools := reg;
                      Manager.preferredTool := preferred |} None w2)
            = Returned (match preferred with
                        | Some n => Map.get reg n
                        | None => None
                        end))
    /\ (forall yosys : option (SynthesisTool W),
        let reg := loadedRegistry [(js "yosys", yosys)] in
        let preferred := firstPreferred reg installed [js "yosys"] in
        answers (@synthRunner W) reg installed ->
        fst (createSynthesisManager yosys w)
        = Returned {| Manager.tools := reg;
                      Manager.preferredTool := preferred |}
        /\ forall w2,
            fst (SynthesisManager.selectTool
                   {| Manager.tools := reg;
                      Manager.preferredTool := preferred |} None w2)
            = Returned (match preferred with
                        | Some n => Map.get reg n
                        | None => None
                        end)).
Proof.
  intros W installed w. split.
  - intros verilator iverilog reg preferred Hans. split.
    + unfold createSimulationManager.
      destruct (registerLoaded_run (Manager.create (SimulationTool W))
                  (js "verilator") verilator w) as (w1 & E1 & _).
      unfold bind at 1. rewrite E1.
      set (m1 := match verilator with
                 | Some tool => Manager.register _ _ tool
                 | None => _
                 end).
      destruct (registerLoaded_run m1 (js "iverilog") iverilog w1)
        as (w2 & E2 & _).
      unfold bind at 1. rewrite E2.
      set (m2 := match iverilog with
                 | Some tool => Manager.register _ _ tool
                 | None => _
                 end).
      assert (Hm : m2 = {| Manager.tools := reg;
                           Manager.preferredTool := None |})
        by (subst m2 m1 reg; destruct verilator, iverilog; reflexivity).
      rewrite Hm.
      erewrite bind_returned
        by (apply (@detectLoop_answers _ _ (@simRunner W) reg installed Hans)).
      cbn [app]. rewrite !arrayIncludes_filter.
      unfold lift, SimulationManager.setPreferred, Manager.setPreferred.
      subst preferred. cbn [Manager.tools firstPreferred].
      destruct (Map.has reg (js "verilator")) eqn:H1;
        [destruct (installed (js "verilator")); cbn [andb negb fst];
         [reflexivity|] | cbn [andb negb fst]];
        (destruct (Map.has reg (js "iverilog")) eqn:H2;
         [destruct (installed (js "iverilog")); cbn [andb negb fst];
          reflexivity | reflexivity]).
    + intros w2. apply select_preferred; [exact Hans| |].
      * repeat constructor.
      * intros k Hk. apply loadedRegistry_keys in Hk. cbn in Hk. cbn. tauto.
  - intros yosys reg preferred Hans. split.
    + unfold createSynthesisManager.
      destruct (registerLoaded_run (Manager.create (SynthesisTool W))
                  (js "yosys") yosys w) as (w1 & E1 & _).
      unfold bind at 1. rewrite E1.
      set (m1 := match yosys with
                 | Some tool => Manager.register _ _ tool
                 | None => _
                 end).
      assert (Hm : m1 = {| Manager.tools := reg;
                           Manager.preferredTool := None |})
        by (subst m1 reg; destruct yosys; reflexivity).
      rewrite Hm.
      erewrite bind_returned
        by (apply (@detectLoop_answers _ _ (@synthRunner W) reg installed
                     Hans)).
      cbn [app]. rewrite !arrayIncludes_filter.
      unfold lift, SynthesisManager.setPreferred, Manager.setPreferred.
      subst preferred. cbn [Manager.tools firstPreferred].
      destruct (Map.has reg (js "yosys")) eqn:H1;
        [destruct (installed (js "yosys")); cbn [andb negb fst];
         reflexivity | reflexivity].
    + intros w2. apply select_preferred; [exact Hans| |].
      * repeat constructor.
      * intros k Hk. apply loadedRegistry_keys in Hk. cbn in Hk. cbn. tauto.
Qed.

Lemma createSimulationManager_preference_witness :
  answers (@synthRunner unit)
          (loadedRegistry [(js "yosys", Some Scripted.noTimingSynthesizer)])
          (fun _ => true)
  /\ fst (createSynthesisManager (Some Scripted.noTimingSynthesizer)
                                 Scripted.w0)
     = Returned {| Manager.tools := [(js "yosys", Scripted.noTimingSynthesizer)];
                   Manager.preferredTool := Some (js "yosys") |}.
Proof.
  assert (H : answers (@synthRunner unit)
                (loadedRegistry [(js "yosys", Some Scripted.noTimingSynthesizer)])
                (fun _ => true))
    by (intros n tool [H|[]] x; injection H as <- <-; reflexivity).
  split; [exact H|].
  exact (proj1 (proj2 (@createSimulationManager_preference unit
                         (fun _ => true) Scripted.w0)
                      (Some Scripted.noTimingSynthesizer) H)).
Defined.

(** ** When the operations cannot throw *)

Section Totality.
Variables W T : Type.
Variable runner : T -> ToolRunner W.

Lemma tryNamed_returns (reg : Map.t T) (name : option jsstring)
      (w : World W) :
  (forall n t, In (n, t) reg -> probeReturns (runner t)) ->
  exists o, fst (Manager.tryNamed runner reg name w) = Returned o
            /\ forall t, o = Some t -> exists n, In (n, t) reg.
Proof.
  intros Hp. destruct name as [n|]; simpl;
    [|exists None; split; [reflexivity | discriminate]].
  destruct (truthy n);
    [|exists None; split; [reflexivity | discriminate]].
  destruct (Map.get reg n) as [tool|] eqn:G;
    [|exists None; split; [reflexivity | discriminate]].
  destruct (Hp _ _ (Map_get_In _ _ G) w.(ext)) as [b Hb].
  rewrite bind_returned with (a := b) by (now rewrite invoke_fst).
  destruct b.
  - exists (Some tool). split; [reflexivity|].
    intros t [= <-]. exists n. now apply Map_get_In.
  - exists None. split; [reflexivity | discriminate].
Qed.

Lemma firstInstalled_returns (reg : Map.t T) (w : World W) :
  (forall n t, In (n, t) reg -> probeReturns (runner t)) ->
  exists o, fst (Manager.firstInstalled runner reg w) = Returned o
            /\ forall t, o = Some t -> exists n, In (n, t) reg.
Proof.
  revert w. induction reg as [|[n tool] rest IH]; intros w Hp; simpl.
  - exists None. split; [reflexivity | discriminate].
  - destruct (Hp n tool (or_introl eq_refl) w.(ext)) as [b Hb].
    rewrite bind_returned with (a := b) by (now rewrite invoke_fst).
    destruct b.
    + exists (Some tool). split; [reflexivity|].
      intros t [= <-]. exists n. now left.
    + destruct (IH (snd (invoke MIsInstalled (isInstalled (runner tool)) w)))
        as (o & Ho & Hin).
      { intros n' t' H'. apply (Hp n' t'). now right. }
      exists o. split; [exact Ho|].
      intros t Ht. destruct (Hin t Ht) as [n' Hn']. exists n'. now right.
Qed.

Lemma selectTool_returns (mgr : Manager.t T) (override : option jsstring)
      (w : World W) :
  (forall n t, In (n, t) mgr.(Manager.tools) -> probeReturns (runner t)) ->
  exists o, fst (Manager.selectTool runner mgr override w) = Returned o
            /\ forall t, o = Some t -> exists n, In (n, t) mgr.(Manager.tools).
Proof.
  intros Hp. unfold Manager.selectTool.
  destruct (tryNamed_returns mgr.(Manager.tools) override w Hp)
    as (o1 & H1 & Hin1).
  rewrite (bind_returned _ _ _ H1).
  destruct o1 as [t1|]; [exists (Some t1); split; [reflexivity | exact Hin1]|].
  destruct (tryNamed_returns mgr.(Manager.tools) mgr.(Manager.preferredTool)
              (snd (Manager.tryNamed runner mgr.(Manager.tools) override w)) Hp)
    as (o2 & H2 & Hin2).
  rewrite (bind_returned _ _ _ H2).
  destruct o2 as [t2|]; [exists (Some t2); split; [reflexivity | exact Hin2]|].
  apply firstInstalled_returns. exact Hp.
Qed.
End Totality.







(** ** The repository's adapters behind the managers *)

Lemma lintToolOf_contract {Env : Type} (a : LintAdapter)
      (execAsync : jsstring -> ExecOptions -> Env -> ExecOutcome * Env)
      (fs : list jsstring) :
  probeReturns (lintToolOf a execAsync)
  /\ neverNullish (lint (lintToolOf a execAsync) fs).
Proof.
  split.
  - intros x. destruct a; simpl;
      [unfold VerilatorLint.isInstalled
      |unfold SlangLint.isInstalled
      |unfold VeribleLint.isInstalled]; unfold probe;
      match goal with
      | |- context [execAsync ?c ?o x] =>
          destruct (execAsync c o x) as [[out err|error] x']
      end; eexists; reflexivity.
  - intros x.
    assert (E : lint (lintToolOf a execAsync) fs = lintOf a execAsync fs)
      by (destruct a; reflexivity).
    rewrite E. destruct (lintOf_unfold a execAsync fs x) as (cmd & opts & ->).
    discriminate.
Qed.

(** X19.  The three lint adapters behind the manager.  Over any process
    table, a [LintManager] whose registry holds only [VerilatorLint],
    [SlangLint] and [VeribleLint] instances never throws from [lint]; and
    a result with [success: true] has no error diagnostics. *)
Theorem repository_linters_never_throw :
  forall (Env : Type)
         (execAsync : jsstring -> ExecOptions -> Env -> ExecOutcome * Env)
         (mgr : LintManager.t Env) (fs : list jsstring)
         (override : option jsstring) (w : World Env),
    (forall n t, In (n, t) mgr.(Manager.tools) ->
       exists a, t = lintToolOf a execAsync) ->
    exists r,
      fst (LintManager.lint mgr fs override w) = Returned r
      /\ (r.(success) = true -> r.(lintErrors) = []).
Proof.
  intros Env execAsync mgr fs override w Hreg.
  destruct (selectTool_returns (@lintRunner Env) mgr override w) as (o & Ho & Hin).
  { intros n t H. destruct (Hreg n t H) as [a ->].
    apply (lintToolOf_contract a execAsync fs). }
  unfold LintManager.lint, LintManager.selectTool.
  rewrite (bind_returned _ _ _ Ho).
  destruct o as [tool|].
  - destruct (Hin tool eq_refl) as [n Hn].
    destruct (Hreg n tool Hn) as [a ->].
    assert (E : lint (lintToolOf a execAsync) fs = lintOf a execAsync fs)
      by (destruct a; reflexivity).
    rewrite E. unfold try_catch, invoke.
    set (w1 := snd (Manager.selectTool (@lintRunner Env) mgr override w)).
    destruct (lintOf_unfold a execAsync fs w1.(ext)) as (cmd & opts & ->).
    cbn [fst snd]. eexists. split; [reflexivity|].
    rewrite parseLintOutputOf_unfold. unfold lintResultOf.
    destruct (parseLinesOf a _ [] []) as [ws es]. simpl.
    destruct es; [reflexivity | discriminate].
  - eexists. split; [reflexivity | discriminate].
Qed.

Lemma repository_linters_never_throw_witness :
  (forall n t,
      In (n, t) [(js "slang", lintToolOf Slang (printing (js "slang version 6")))] ->
      exists a, t = lintToolOf a (printing (js "slang version 6")))
  /\ exists r,
      fst (LintManager.lint
             {| Manager.tools :=
                  [(js "slang", lintToolOf Slang (printing (js "slang version 6")))];
                Manager.preferredTool := None |}
             [js "top.sv"] None Scripted.w0) = Returned r
      /\ (r.(success) = true -> r.(lintErrors) = []).
Proof.
  assert (H : forall n t,
             In (n, t) [(js "slang",
                         lintToolOf Slang (printing (js "slang version 6")))] ->
             exists a, t = lintToolOf a (printing (js "slang version 6"))).
  { intros n t [E|[]]. injection E as _ <-. exists Slang. reflexivity. }
  split; [exact H|].
  exact (@repository_linters_never_throw unit (printing (js "slang version 6"))
           {| Manager.tools :=
                [(js "slang", lintToolOf Slang (printing (js "slang version 6")))];
              Manager.preferredTool := None |}
           [js "top.sv"] None Scripted.w0 H).
Defined.

(** ** The Verilator adapter's compile/simulate pair *)

Section VerilatorFacts.
Variable Env : Type.
Variable execAsync : jsstring -> ExecOptions -> Env -> ExecOutcome * Env.
Variable basename : jsstring -> jsstring -> jsstring.
Variable extname : jsstring -> jsstring.

Let vcompile := VerilatorSim.compile execAsync basename extname.
Let vsimulate := VerilatorSim.simulate execAsync.

Lemma verilator_compile_cases (this : VerilatorSim.t) (e : Env)
      (files : list jsstring) :
  match vcompile files (this, e) with
  | (Returned r, (this', _)) =>
      exists topFile rest,
        files = topFile :: rest
        /\ if r.(success)
           then r.(executable)
                = Some (js "obj_dir/V" ++ basename topFile (extname topFile))
                /\ this'.(VerilatorSim.this_executable) = r.(executable)
           else r.(executable) = None /\ this' = this
  | (Threw x, w') =>
      files = [] /\ x = VerilatorSim.invalidPathArgument /\ w' = (this, e)
  end.
Proof.
  unfold vcompile, VerilatorSim.compile, VerilatorSim.run.
  destruct files as [|topFile rest]; [repeat split|].
  destruct (execAsync _ _ e) as [[out err|error] e1]; cbn;
    exists topFile, rest; repeat split.
Qed.
End VerilatorFacts.

(** X20.  [VerilatorSim.compile] assigns [this.executable] only after a
    successful run.  It throws exactly for an empty file list, before
    anything is spawned; a returned result has [success: true] exactly
    when the instance's [executable] is then [obj_dir/V<top>], [<top>]
    being the first file's base name without extension; after a failed
    compile the instance is as before.  So on a fresh instance a failed or
    throwing compile leaves [simulate] answering the "Design not compiled"
    guard result without spawning. *)
Theorem verilator_compile_arms_on_success_only :
  forall (Env : Type)
         (execAsync : jsstring -> ExecOptions -> Env -> ExecOutcome * Env)
         (basename : jsstring -> jsstring -> jsstring)
         (extname : jsstring -> jsstring)
         (this : VerilatorSim.t) (e : Env) (files : list jsstring),
    let after := VerilatorSim.compile execAsync basename extname files
                                      (this, e) in
    match after with
    | (Returned r, (this', _)) =>
        exists topFile rest,
          files = topFile :: rest
          /\ if r.(success)
             then r.(executable)
                  = Some (js "obj_dir/V" ++ basename topFile (extname topFile))
                  /\ this'.(VerilatorSim.this_executable) = r.(executable)
             else r.(executable) = None /\ this' = this
    | (Threw x, w') =>
        files = [] /\ x = VerilatorSim.invalidPathArgument /\ w' = (this, e)
    end
    /\ (forall testbench args,
          this = VerilatorSim.create ->
          (forall r, fst after = Returned r -> r.(success) = false) ->
          VerilatorSim.simulate execAsync testbench args (snd after)
          = (Returned VerilatorSim.notCompiled, snd after)).
Proof.
  intros Env execAsync basename extname this e files after.
  pose proof (verilator_compile_cases execAsync basename extname this e files)
    as H.
  fold after in H. split; [exact H|].
  intros testbench args -> Hfail.
  destruct after as [[r|x] [this' e']]; cbn [fst snd] in *.
  - destruct H as (topFile & rest & _ & H).
    rewrite (Hfail r eq_refl) in H. destruct H as [_ ->]. reflexivity.
  - destruct H as (_ & _ & [= -> ->]). reflexivity.
Qed.

Lemma verilator_probe_returns {Env : Type}
      (execAsync : jsstring -> ExecOptions -> Env -> ExecOutcome * Env)
      (basename : jsstring -> jsstring -> jsstring)
      (extname : jsstring -> jsstring) :
  probeReturns (VerilatorSim.tool execAsync basename extname).
Proof.
  intros [this e]. simpl. unfold VerilatorSim.isInstalled, probe.
  destruct (execAsync _ _ e) as [[out err|error] e']; eexists; reflexivity.
Qed.

(** X21.  The Verilator simulator behind the manager.  Over any process
    table, a [SimulationManager] whose registry holds only [VerilatorSim]
    instances never throws from [simulate].  A result with
    [success: true] comes from a non-empty file list and carries the
    all-zero coverage of [collectCoverage] and the waveform [dump.vcd].
    For an empty file list the result is a failure whose [stderr] is
    either the no-tool message or the message of the [TypeError] that
    [path.extname(undefined)] throws. *)
Theorem verilator_behind_manager :
  forall (Env : Type)
         (execAsync : jsstring -> ExecOptions -> Env -> ExecOutcome * Env)
         (basename : jsstring -> jsstring -> jsstring)
         (extname : jsstring -> jsstring)
         (mgr : SimulationManager.t (VerilatorSim.world Env))
         (fs : list jsstring) (testbench : jsstring)
         (args : option (list jsstring)) (override : option jsstring)
         (w : World (VerilatorSim.world Env)),
    (forall n t, In (n, t) mgr.(Manager.tools) ->
       t = VerilatorSim.tool execAsync basename extname) ->
    exists r,
      fst (SimulationManager.simulate mgr fs testbench args override w)
      = Returned r
      /\ (r.(success) = true ->
          fs <> [] /\ r.(coverage) = Some zeroCoverage
          /\ r.(waveform) = Some (js "dump.vcd"))
      /\ (fs = [] ->
          r = SimulationManager.failed
                None (Some (js "No simulation tool available"))
          \/ exists m, VerilatorSim.invalidPathArgument = ThrownError m
                       /\ r = SimulationManager.failed None (Some m)).
Proof.
  intros Env execAsync basename extname mgr fs testbench args override w Hreg.
  destruct (selectTool_returns (@simRunner _) mgr override w)
    as (o & Ho & Hin).
  { intros n t H. rewrite (Hreg n t H). apply verilator_probe_returns. }
  unfold SimulationManager.simulate, SimulationManager.selectTool.
  rewrite (bind_returned _ _ _ Ho).
  destruct o as [tool|].
  - destruct (Hin tool eq_refl) as [n Hn]. rewrite (Hreg n tool Hn).
    set (w1 := snd (Manager.selectTool (@simRunner _) mgr override w)).
    destruct w1 as [[this e] j].
    unfold try_catch at 1. unfold bind at 1. unfold invoke at 1.
    cbn [compile VerilatorSim.tool ext journal].
    unfold VerilatorSim.compile, VerilatorSim.run.
    destruct fs as [|topFile rest].
    + cbn. eexists. split; [reflexivity|]. split; [discriminate|].
      intros _. right. eexists. split; reflexivity.
    + destruct (execAsync _ _ e) as [[out err|error] e1]; cbn.
      * unfold bind at 1. unfold invoke at 1.
        unfold VerilatorSim.simulate, VerilatorSim.runExecutable.
        cbn [ext journal VerilatorSim.this_executable truthy negb].
        destruct (execAsync _ _ e1) as [[out2 err2|error2] e2]; cbn;
          (eexists; split; [reflexivity|]; split; [|discriminate]).
        -- intros _. repeat split. discriminate.
        -- discriminate.
      * eexists. split; [reflexivity|]. split; discriminate.
  - eexists. split; [reflexivity|]. split; [discriminate|].
    intros _. left. reflexivity.
Qed.

Lemma verilator_behind_manager_witness :
  let tool :=
    VerilatorSim.tool (printing (js "Verilator 5.020 test passed"))
                      (fun f _ => f) (fun _ => []) in
  (forall n t, In (n, t) [(js "verilator", tool)] -> t = tool)
  /\ exists r,
      fst (SimulationManager.simulate
             {| Manager.tools := [(js "verilator", tool)];
                Manager.preferredTool := None |}
             [js "top"] (js "tb") None None
             {| ext := (VerilatorSim.create, tt); journal := [] |})
      = Returned r
      /\ (r.(success) = true ->
          [js "top"] <> [] /\ r.(coverage) = Some zeroCoverage
          /\ r.(waveform) = Some (js "dump.vcd"))
      /\ ([js "top"] = [] ->
          r = SimulationManager.failed
                None (Some (js "No simulation tool available"))
          \/ exists m, VerilatorSim.invalidPathArgument = ThrownError m
                       /\ r = SimulationManager.failed None (Some m)).
Proof.
  intros tool.
  assert (H : forall n t, In (n, t) [(js "verilator", tool)] -> t = tool).
  { intros n t [E|[]]. injection E as _ <-. reflexivity. }
  split; [exact H|].
  exact (@verilator_behind_manager unit
           (printing (js "Verilator 5.020 test passed"))
           (fun f _ => f) (fun _ => [])
           {| Manager.tools := [(js "verilator", tool)];
              Manager.preferredTool := None |}
           [js "top"] (js "tb") None None
           {| ext := (VerilatorSim.create, tt); journal := [] |} H).
Defined.

Lemma icarus_probe_returns {Env : Type}
      (execAsync : jsstring -> ExecOptions -> Env -> ExecOutcome * Env) :
  probeReturns (IcarusSim.tool execAsync).
Proof.
  intros [this e]. simpl. unfold IcarusSim.isInstalled, probe.
  destruct (execAsync _ _ e) as [[out err|error] e']; eexists; reflexivity.
Qed.

(** X22.  The Icarus simulator behind the manager.  Over any process table,
    a [SimulationManager] whose registry holds only [IcarusSim] instances
    never throws from [simulate], the empty file list included.  A result
    with [success: true] carries no coverage (the adapter has no
    [collectCoverage]) and the waveform [dump.vcd]; a result with
    [success: false] has [passed: false]. *)
Theorem icarus_behind_manager :
  forall (Env : Type)
         (execAsync : jsstring -> ExecOptions -> Env -> ExecOutcome * Env)
         (mgr : SimulationManager.t (IcarusSim.world Env))
         (fs : list jsstring) (testbench : jsstring)
         (args : option (list jsstring)) (override : option jsstring)
         (w : World (IcarusSim.world Env)),
    (forall n t, In (n, t) mgr.(Manager.tools) ->
       t = IcarusSim.tool execAsync) ->
    exists r,
      fst (SimulationManager.simulate mgr fs testbench args override w)
      = Returned r
      /\ r.(coverage) = None
      /\ (r.(success) = true -> r.(waveform) = Some (js "dump.vcd"))
      /\ (r.(success) = false -> r.(passed) = false).
Proof.
  intros Env execAsync mgr fs testbench args override w Hreg.
  destruct (selectTool_returns (@simRunner _) mgr override w)
    as (o & Ho & Hin).
  { intros n t H. rewrite (Hreg n t H). apply icarus_probe_returns. }
  unfold SimulationManager.simulate, SimulationManager.selectTool.
  rewrite (bind_returned _ _ _ Ho).
  destruct o as [tool|].
  - destruct (Hin tool eq_refl) as [n Hn]. rewrite (Hreg n tool Hn).
    set (w1 := snd (Manager.selectTool (@simRunner _) mgr override w)).
    destruct w1 as [[this e] j].
    unfold try_catch at 1. unfold bind at 1. unfold invoke at 1.
    cbn [compile IcarusSim.tool ext journal].
    unfold IcarusSim.compile, IcarusSim.run.
    destruct (execAsync _ _ e) as [[out err|error] e1]; cbn.
    + unfold bind at 1. unfold invoke at 1.
      unfold IcarusSim.simulate, IcarusSim.runExecutable.
      cbn [ext journal IcarusSim.this_executable truthy negb js].
      destruct (execAsync _ _ e1) as [[out2 err2|error2] e2]; cbn;
        (eexists; split; [reflexivity|]); repeat split; discriminate.
    + eexists. split; [reflexivity|]. repeat split. discriminate.
  - eexists. split; [reflexivity|]. repeat split. discriminate.
Qed.

Lemma icarus_behind_manager_witness :
  let tool := IcarusSim.tool (printing (js "Icarus Verilog version 12.0")) in
  (forall n t, In (n, t) [(js "iverilog", tool)] -> t = tool)
  /\ exists r,
      fst (SimulationManager.simulate
             {| Manager.tools := [(js "iverilog", tool)];
                Manager.preferredTool := None |}
             [js "top.v"] (js "tb") None None
             {| ext := (IcarusSim.create, tt); journal := [] |})
      = Returned r
      /\ r.(coverage) = None
      /\ (r.(success) = true -> r.(waveform) = Some (js "dump.vcd"))
      /\ (r.(success) = false -> r.(passed) = false).
Proof.
  intros tool.
  assert (H : forall n t, In (n, t) [(js "iverilog", tool)] -> t = tool).
  { intros n t [E|[]]. injection E as _ <-. reflexivity. }
  split; [exact H|].
  exact (@icarus_behind_manager unit
           (printing (js "Icarus Verilog version 12.0"))
           {| Manager.tools := [(js "iverilog", tool)];
              Manager.preferredTool := None |}
           [js "top.v"] (js "tb") None None
           {| ext := (IcarusSim.create, tt); journal := [] |} H).
Defined.

(** ** Include paths and language-server detection *)

Lemma uniqueInto_app (seen xs ys : list jsstring) :
  uniqueInto seen (xs ++ ys) = uniqueInto (uniqueInto seen xs) ys.
Proof.
  revert seen. induction xs as [|x xs IH]; intros seen; simpl;
    [reflexivity|].
  destruct (arrayIncludes seen x); apply IH.
Qed.

Lemma uniqueInto_extends (seen xs : list jsstring) :
  exists tail, uniqueInto seen xs = seen ++ tail.
Proof.
  revert seen. induction xs as [|x xs IH]; intros seen; simpl.
  - exists []. now rewrite app_nil_r.
  - destruct (arrayIncludes seen x); [apply IH|].
    destruct (IH (seen ++ [x])) as [tail ->].
    exists (x :: tail). now rewrite <- app_assoc.
Qed.

Lemma uniqueInto_In (seen xs : list jsstring) (p : jsstring) :
  In p (uniqueInto seen xs) <-> In p seen \/ In p xs.
Proof.
  revert seen. induction xs as [|x xs IH]; intros seen; simpl.
  - tauto.
  - destruct (arrayIncludes seen x) eqn:E; rewrite IH.
    + apply arrayIncludes_In in E. intuition (subst; auto).
    + rewrite in_app_iff. simpl. tauto.
Qed.

Lemma uniqueInto_NoDup (seen xs : list jsstring) :
  NoDup seen -> NoDup (uniqueInto seen xs).
Proof.
  revert seen. induction xs as [|x xs IH]; intros seen Hnd; simpl;
    [exact Hnd|].
  destruct (arrayIncludes seen x) eqn:E; apply IH; [exact Hnd|].
  apply NoDup_app; [exact Hnd | repeat constructor; intros [] |].
  intros y Hy [<-|[]].
  apply arrayIncludes_In in Hy. congruence.
Qed.

Lemma uniqueInto_fresh (seen xs : list jsstring) :
  NoDup (seen ++ xs) -> uniqueInto seen xs = seen ++ xs.
Proof.
  revert seen. induction xs as [|x xs IH]; intros seen Hnd; simpl.
  - now rewrite app_nil_r.
  - destruct (arrayIncludes seen x) eqn:E.
    + apply arrayIncludes_In in E. apply NoDup_remove_2 in Hnd.
      exfalso. apply Hnd. apply in_or_app. now left.
    + rewrite IH; rewrite <- app_assoc; [reflexivity | exact Hnd].
Qed.

(** X23.  [autoDetectIncludePaths] returns every input directory exactly
    once: the result has no duplicates; its members are the include
    directories, the RTL directories and, only when [includeTestbench] is
    true, the testbench directories; it starts with the include
    directories (after their own duplicates are dropped), so they keep the
    highest priority; and a duplicate-free input is returned as it is. *)
Theorem autoDetectIncludePaths_unique :
  forall (structure : ProjectStructure) (options : option IncludeOptions),
    let withTestbench :=
      match options with
      | Some o => match o.(includeTestbench) with
                  | Some true => true
                  | _ => false
                  end
      | None => false
      end in
    let given :=
      structure.(includeDirs) ++ structure.(rtlDirs)
      ++ (if withTestbench then structure.(testbenchDirs) else []) in
    let paths := autoDetectIncludePaths structure options in
    NoDup paths
    /\ (forall p, In p paths <-> In p given)
    /\ (exists tail, paths = unique structure.(includeDirs) ++ tail)
    /\ (NoDup given -> paths = given).
Proof.
  intros structure options withTestbench given paths.
  assert (E : paths = unique given).
  { unfold paths, autoDetectIncludePaths, given, withTestbench.
    destruct options as [[[[|]|] ? ?]|]; reflexivity. }
  rewrite E. unfold unique. repeat split.
  - apply uniqueInto_NoDup. constructor.
  - intros H. apply uniqueInto_In in H. destruct H as [[]|H]. exact H.
  - intros H. apply uniqueInto_In. now right.
  - unfold given. rewrite uniqueInto_app. apply uniqueInto_extends.
  - intros Hnd. apply (uniqueInto_fresh [] given). exact Hnd.
Qed.

(** X24.  [detectLSP] keeps the priority slang, verible, svls.  When the
    three modules load it never throws: it answers with the first client
    whose probe returns [true], a probe that throws counting as "not
    installed" (unlike the managers' [selectTool]); later clients are not
    probed once one has answered [true]; and it answers [none] exactly
    when no probe returned [true].  When one of the three imports rejects,
    [detectLSP] rejects with that error, the first in the order slang,
    verible, svls, and probes nothing. *)
Theorem detectLSP_priority :
  forall (W : Type) (w : World W),
    (forall slangInstalled veribleInstalled svlsInstalled : M W bool,
        let w1 := snd (slangInstalled w) in
        let w2 := snd (veribleInstalled w1) in
        let w3 := snd (svlsInstalled w2) in
        let found := detectLSP (Returned slangInstalled)
                               (Returned veribleInstalled)
                               (Returned svlsInstalled) w in
        (exists t, fst found = Returned t)
        /\ (fst (slangInstalled w) = Returned true ->
            found = (Returned Lsp.slang, w1))
        /\ (fst (slangInstalled w) <> Returned true ->
            fst (veribleInstalled w1) = Returned true ->
            found = (Returned Lsp.verible, w2))
        /\ (fst (slangInstalled w) <> Returned true ->
            fst (veribleInstalled w1) <> Returned true ->
            fst (svlsInstalled w2) = Returned true ->
            found = (Returned Lsp.svls, w3))
        /\ (fst found = Returned Lsp.none <->
            fst (slangInstalled w) <> Returned true
            /\ fst (veribleInstalled w1) <> Returned true
            /\ fst (svlsInstalled w2) <> Returned true))
    /\ (forall (e : Thrown) (veribleModule svlsModule : Outcome (M W bool)),
          detectLSP (Threw e) veribleModule svlsModule w = (Threw e, w))
    /\ (forall (slangInstalled : M W bool) (e : Thrown)
               (svlsModule : Outcome (M W bool)),
          detectLSP (Returned slangInstalled) (Threw e) svlsModule w
          = (Threw e, w))
    /\ (forall (slangInstalled veribleInstalled : M W bool) (e : Thrown),
          detectLSP (Returned slangInstalled) (Returned veribleInstalled)
                    (Threw e) w
          = (Threw e, w)).
Proof.
  intros W w. split; [|repeat split; reflexivity].
  intros s v sv w1 w2 w3 found.
  unfold found, detectLSP, lift, try_catch, bind, ret.
  subst w1 w2 w3.
  destruct (s w) as [[[|]|e1] w1]; cbn [fst snd];
    [repeat split; try (eexists; reflexivity); try congruence;
     intros; intuition congruence | |];
    (destruct (v w1) as [[[|]|e2] w2]; cbn [fst snd];
     [repeat split; try (eexists; reflexivity); try congruence;
      intros; intuition congruence | |]);
    (destruct (sv w2) as [[[|]|e3] w3]; cbn [fst snd];
     repeat split; try (eexists; reflexivity); try congruence;
     intros; intuition congruence).
Qed.

(** X25.  The three lint parsers report one diagnostic for each output line
    that matches the adapter's line pattern and nothing for any other
    line: the number of warnings plus the number of error diagnostics is
    the number of matching lines of [stdout + stderr]. *)
Theorem lint_one_diagnostic_per_matching_line :
  forall (a : LintAdapter) (result : ToolResult),
    length (parseLintOutputOf a result).(warnings)
    + length (parseLintOutputOf a result).(lintErrors)
    = length (filter (test (linePatternOf a)) (outputLines result)).
Proof.
  intros a result. rewrite parseLintOutputOf_unfold. unfold lintResultOf.
  pose proof (parseLines_count a (outputLines result) [] []) as H.
  destruct (parseLinesOf a (outputLines result) [] []) as [ws es].
  simpl in *. exact H.
Qed.
